(** * Tungsten scene export session ([scene.py])

    A shallow embedding of the [TungstenScene] export session and of the
    export operator [W_OT_export], together with the properties of the
    session that the specification states.

    Conventions of the embedding.
    - Python dictionaries are finite maps [gmap string _]; list-valued
      document fields are Rocq lists, appended at the end.
    - The session object ([self]) is the record [TungstenScene]; every method
      is a computation in a state-and-exception monad over a session paired
      with the state of the host (file system, host application).
    - Calls that leave [scene.py] (the [os], [shutil], [tempfile], [zipfile]
      and [bpy] primitives, the mesh writer, the settings converters) are
      members of the interfaces [Host] and [Converters]: the theorems hold for
      every implementation of them, under the assumptions they state.
    - Scalars of transforms are exact rationals.  The only arithmetic the
      session performs on them is the product with the two flip matrices,
      whose entries are 0, 1 and -1.
    - The arithmetic on the render size is Python's: integers are
      converted to IEEE 754 binary64 floats, divided and multiplied there,
      and truncated back.
    - [time.time] and [print] calls are diagnostics and are left out. *)

From Stdlib Require Import ZArith QArith Qcanon Floats.SpecFloat.
From stdpp Require Import gmap strings list fin_maps.

Open Scope string_scope.
Open Scope list_scope.
Set Warnings "-register-all".

(** ** JSON values *)

Inductive json : Type :=
  | JNull
  | JBool (b : bool)
  | JInt (z : Z)
  | JFloat (q : Qc)
  | JStr (s : string)
  | JList (l : list json)
  | JDict (d : gmap string json).

(** A Python [dict] with string keys. *)
Abbreviation dict := (gmap string json).

(** [d1.update(d2)]: every key of [d2] is (re)bound in [d1]. *)
Definition dict_update (d1 d2 : dict) : dict := d2 ∪ d1.

(** Truth value of an optional dictionary, as [if mat:] tests it: [None] and
    the empty dictionary are false. *)
Definition truthy (mat : option dict) : bool :=
  match mat with
  | None => false
  | Some d => negb (Nat.eqb (size d) 0)
  end.

(** ** A state and exception monad *)

Definition exn := string.

Inductive result (A : Type) : Type :=
  | Ok (a : A)
  | Raise (e : exn).
Arguments Ok {A} a.
Arguments Raise {A} e.

(** A computation over a state [S]: it returns or raises, and in both cases
    leaves a state behind (a raised exception does not roll back what was
    mutated before it). *)
Definition M (S A : Type) : Type := S -> result A * S.

Definition ret {S A} (a : A) : M S A := fun s => (Ok a, s).

Definition raise {S A} (e : exn) : M S A := fun s => (Raise e, s).

Definition bind {S A B} (m : M S A) (k : A -> M S B) : M S B :=
  fun s =>
    match m s with
    | (Ok a, s') => k a s'
    | (Raise e, s') => (Raise e, s')
    end.

Definition modify {S} (f : S -> S) : M S unit := fun s => (Ok tt, f s).

Notation "x <- m ;; k" := (bind m (fun x => k))
  (at level 100, m at next level, right associativity).
Notation "m ;;; k" := (bind m (fun _ => k))
  (at level 100, right associativity).

(** [for x in xs: body x]. *)
Fixpoint for_each {S A} (xs : list A) (body : A -> M S unit) : M S unit :=
  match xs with
  | [] => ret tt
  | x :: xs' => body x ;;; for_each xs' body
  end.

(** ** Transforms ([mathutils]) *)

Record Vector4 : Type := mkVector4 { vx : Qc; vy : Qc; vz : Qc; vw : Qc }.

(** A 4x4 matrix, by rows: iterating a [Matrix] yields its rows. *)
Record Matrix : Type :=
  mkMatrix { row0 : Vector4; row1 : Vector4; row2 : Vector4; row3 : Vector4 }.

Definition dot4 (a b : Vector4) : Qc :=
  (vx a * vx b + vy a * vy b + vz a * vz b + vw a * vw b)%Qc.

Definition col (f : Vector4 -> Qc) (m : Matrix) : Vector4 :=
  mkVector4 (f (row0 m)) (f (row1 m)) (f (row2 m)) (f (row3 m)).

Definition row_mul (r : Vector4) (b : Matrix) : Vector4 :=
  mkVector4 (dot4 r (col vx b)) (dot4 r (col vy b))
            (dot4 r (col vz b)) (dot4 r (col vw b)).

(** [a * b] on matrices. *)
Definition Matrix_mul (a b : Matrix) : Matrix :=
  mkMatrix (row_mul (row0 a) b) (row_mul (row1 a) b)
           (row_mul (row2 a) b) (row_mul (row3 a) b).

(** [Matrix.Scale(factor, 4, axis)] for a unit [axis]: the scaling by
    [factor] along [axis], that is the identity plus [(factor - 1)] times
    the outer product of the axis with itself, in the upper left 3x3 block. *)
Definition Matrix_Scale (factor : Qc) (axis : Qc * Qc * Qc) : Matrix :=
  let '(x, y, z) := axis in
  let f := (factor - 1)%Qc in
  mkMatrix
    (mkVector4 (1 + f * (x * x)) (f * (x * y)) (f * (x * z)) 0)%Qc
    (mkVector4 (f * (y * x)) (1 + f * (y * y)) (f * (y * z)) 0)%Qc
    (mkVector4 (f * (z * x)) (f * (z * y)) (1 + f * (z * z)) 0)%Qc
    (mkVector4 0 0 0 1)%Qc.

(** [list(v)] for a row [v]. *)
Definition list_of_vector (v : Vector4) : list json :=
  [JFloat (vx v); JFloat (vy v); JFloat (vz v); JFloat (vw v)].

(** The loop [for v in m: acc += list(v)], from an accumulator [acc]. *)
Definition extend_rows (acc : list json) (m : Matrix) : list json :=
  fold_left (fun acc v => acc ++ list_of_vector v)
            [row0 m; row1 m; row2 m; row3 m] acc.

(** The sixteen scalars of a matrix in row-major order. *)
Definition row_major (m : Matrix) : list json :=
  list_of_vector (row0 m) ++ list_of_vector (row1 m)
  ++ list_of_vector (row2 m) ++ list_of_vector (row3 m).

(** A row with its first and third scalars negated. *)
Definition negate_xz (v : Vector4) : Vector4 :=
  mkVector4 (- vx v) (vy v) (- vz v) (vw v).

(** ** Floating-point arithmetic

    A Python [float] is an IEEE 754 binary64 number: 53 bits of mantissa,
    infinities at exponent 1024.  The integers the session computes with
    are properties of the host, which stores them in 32 bits: their
    conversion to a float is exact and never overflows. *)

(** [float(z)], rounded to the nearest float (to even on a tie). *)
Definition float_of_int (z : Z) : spec_float :=
  binary_normalize 53 1024 z 0 false.

(** [a / b] on integers: the true division, a float. *)
Definition int_truediv (a b : Z) : spec_float :=
  SFdiv 53 1024 (float_of_int a) (float_of_int b).

(** [z * f] for an integer [z] and a float [f]: the product of floats. *)
Definition int_mul_float (z : Z) (f : spec_float) : spec_float :=
  SFmul 53 1024 (float_of_int z) f.

(** [int(f)]: the integral part of a finite float, towards zero.  Python
    raises on an infinity or a NaN, which the products of the session, of
    32-bit integers, never are. *)
Definition int_of_float (f : spec_float) : Z :=
  match f with
  | S754_finite s m e =>
      let n := match e with
               | Z0 => Zpos m
               | Zpos p => (Zpos m * 2 ^ Zpos p)%Z
               | Zneg p => (Zpos m / 2 ^ Zpos p)%Z
               end in
      if s then (- n)%Z else n
  | S754_zero _ | S754_infinity _ | S754_nan => 0%Z
  end.

(** ** Host entities

    The attributes of the host's data blocks that the session reads. *)

Record Library : Type := mkLibrary { library_filepath : string }.

Record Image : Type := mkImage {
  image_name : string;
  image_file_format : string;
  image_filepath : string;
  image_library : option Library;
  image_source : string
}.

(** [material_id] tells apart two data blocks that carry the same name. *)
Record Material : Type := mkMaterial {
  material_name : string;
  material_id : nat
}.

Record MaterialSlot : Type := mkMaterialSlot { slot_material : option Material }.

Record Object : Type := mkObject {
  object_name : string;
  object_type : string;
  matrix_world : Matrix;
  material_slots : list MaterialSlot
}.

Record World : Type := mkWorld { world_name : string }.

Record RenderSettings : Type := mkRenderSettings {
  resolution_x : Z;
  resolution_y : Z;
  resolution_percentage : Z
}.

(** A scene of the host; it has a camera (section 6 of the specification). *)
Record Scene : Type := mkScene {
  scene_world : option World;
  scene_camera : Object;
  scene_objects : list Object;
  scene_render : RenderSettings
}.

(** ** The document and the session *)

(** [self.scene]: a dictionary with six fixed keys. *)
Record Document : Type := mkDocument {
  media : list json;
  bsdfs : list dict;
  primitives : list dict;
  camera : dict;
  integrator : dict;
  renderer : dict
}.

Definition set_bsdfs (f : list dict -> list dict) (d : Document) : Document :=
  mkDocument (media d) (f (bsdfs d)) (primitives d) (camera d) (integrator d) (renderer d).

Definition set_primitives (f : list dict -> list dict) (d : Document) : Document :=
  mkDocument (media d) (bsdfs d) (f (primitives d)) (camera d) (integrator d) (renderer d).

Definition set_camera (f : dict -> dict) (d : Document) : Document :=
  mkDocument (media d) (bsdfs d) (primitives d) (f (camera d)) (integrator d) (renderer d).

Definition set_integrator (f : dict -> dict) (d : Document) : Document :=
  mkDocument (media d) (bsdfs d) (primitives d) (camera d) (f (integrator d)) (renderer d).

Definition set_renderer (f : dict -> dict) (d : Document) : Document :=
  mkDocument (media d) (bsdfs d) (primitives d) (camera d) (integrator d) (f (renderer d)).

(** The attributes of a [TungstenScene] object. *)
Record TungstenScene : Type := mkTungstenScene {
  dir : string;
  clean_on_del : bool;
  self_contained : bool;
  scene : Document;
  mats : gmap string dict;
  images : gmap string string;
  scenefile : string;
  default_mat : string
}.

Definition set_scene (f : Document -> Document) (s : TungstenScene) : TungstenScene :=
  mkTungstenScene (dir s) (clean_on_del s) (self_contained s) (f (scene s))
                  (mats s) (images s) (scenefile s) (default_mat s).

Definition set_mats (f : gmap string dict -> gmap string dict) (s : TungstenScene)
  : TungstenScene :=
  mkTungstenScene (dir s) (clean_on_del s) (self_contained s) (scene s)
                  (f (mats s)) (images s) (scenefile s) (default_mat s).

Definition set_images (f : gmap string string -> gmap string string) (s : TungstenScene)
  : TungstenScene :=
  mkTungstenScene (dir s) (clean_on_del s) (self_contained s) (scene s)
                  (mats s) (f (images s)) (scenefile s) (default_mat s).

(** The record appended to [bsdfs] by the constructor. *)
Definition default_bsdf (name : string) : dict :=
  <["name" := JStr name]>
    (<["type" := JStr "lambert"]>
       (<["albedo" := JFloat (Q2Qc (8 # 10))]> ∅)).

(** The [renderer] record as the constructor seeds it. *)
Definition renderer_defaults : dict :=
  <["output_file" := JStr "scene.png"]>
    (<["overwrite_output_files" := JBool true]>
       (<["enable_resume_render" := JBool false]>
          (<["checkpoint_interval" := JInt 0]> ∅))).

Definition IMAGE_FORMATS : gmap string string :=
  <["BMP" := ".bmp"]>
    (<["PNG" := ".png"]>
       (<["JPEG" := ".jpg"]>
          (<["TARGA" := ".tga"]>
             (<["TARGA_RAW" := ".tga"]>
                (<["HDR" := ".hdr"]> ∅))))).

(** The object types that carry geometry. *)
Definition geometry_types : gset string :=
  {["MESH"; "CURVE"; "SURFACE"; "META"; "FONT"]}.

Definition ZIP_DEFLATED : Z := 8.

(** ** The interfaces the session calls into *)

(** The host: the file system and the libraries the session uses.  [env] is
    the state they act on. *)
Class Host : Type := {
  env : Type;
  os_path_exists : string -> env -> bool;
  (** The empty path names nothing. *)
  os_path_exists_empty : forall w, os_path_exists "" w = false;
  os_path_isfile : string -> env -> bool;
  os_path_isdir : string -> env -> bool;
  (** A regular file exists, a directory exists, and nothing is both. *)
  os_path_isfile_exists :
    forall p w, os_path_isfile p w = true -> os_path_exists p w = true;
  os_path_isdir_exists :
    forall p w, os_path_isdir p w = true -> os_path_exists p w = true;
  os_path_isdir_not_isfile :
    forall p w, os_path_isdir p w = true -> os_path_isfile p w = false;
  os_path_join : string -> string -> string;
  (** [os.path.relpath(path, start)]; [None] when it raises [ValueError]. *)
  os_path_relpath : string -> string -> env -> option string;
  os_mkdir : string -> M env unit;
  (** [tempfile.mkdtemp(suffix=...)]. *)
  tempfile_mkdtemp : string -> M env string;
  shutil_rmtree : string -> M env unit;
  (** [os.walk(top)], as the list of its [(root, dirs, files)] triples. *)
  os_walk : string -> env -> list (string * list string * list string);
  (** [zipfile.ZipFile(outpath, 'w', flags)], [zipf.write(filename, arcname)]
      and the closing of the archive at the end of the [with] block. *)
  zipfile_open : string -> Z -> M env unit;
  zipfile_write : string -> string -> string -> M env unit;
  zipfile_close : string -> M env unit;
  (** [open(file, 'w')] followed by [json.dump(doc, f, indent=4)]. *)
  json_dump : string -> Document -> M env unit;
  (** [bpy.path.abspath(path, library=...)]. *)
  bpy_path_abspath : string -> option Library -> env -> string;
  (** [im.save()] while [im.filepath_raw] is the given path. *)
  image_save : Image -> string -> M env unit;
  (** [im.save_render(path, scene)] while the file format of the scene's
      render settings is the given format. *)
  image_save_render : Image -> string -> string -> M env unit;
  (** [write_object_mesh(scene, o, path)]: vertex and triangle counts. *)
  write_object_mesh : Scene -> Object -> string -> M env (Z * Z)
}.

(** The settings converters: each receives the session ([self]) and a host
    entity, and may act on both the session and the host. *)
Class Converters {HH : Host} : Type := {
  W_PT_renderer_to_scene_data : Scene -> M (TungstenScene * env) dict;
  W_PT_integrator_to_scene_data : Scene -> M (TungstenScene * env) dict;
  W_PT_world_to_scene_data : World -> M (TungstenScene * env) dict;
  W_PT_camera_to_scene_data : Object -> M (TungstenScene * env) dict;
  (** Returns the reference fragment and the full record, if any. *)
  W_PT_material_to_scene_data :
    Material -> M (TungstenScene * env) (dict * option dict)
}.

(** ** Running host primitives inside a session *)

Section Lifting.
Context {HH : Host}.

(** The state a method of the session runs on. *)
Definition state : Type := TungstenScene * env.

(** A pure query on the state of the host. *)
Definition query {A} (f : env -> A) : M env A := fun w => (Ok (f w), w).

(** A host computation, run from inside a method. *)
Definition host {A} (m : M env A) : M state A :=
  fun st =>
    match m (snd st) with
    | (r, w') => (r, (fst st, w'))
    end.

(** Reading and writing the attributes of [self]. *)
Definition self : M state TungstenScene := fun st => (Ok (fst st), st).

Definition update_self (f : TungstenScene -> TungstenScene) : M state unit :=
  fun st => (Ok tt, (f (fst st), snd st)).

(** [try: body finally: cleanup]: the cleanup runs in both cases; an
    exception of [body] is raised again after it, unless the cleanup raises
    one of its own. *)
Definition try_finally {S A} (body : M S A) (cleanup : M S unit) : M S A :=
  fun s =>
    match body s with
    | (Ok a, s') => (_ <- cleanup ;; ret a) s'
    | (Raise e, s') => (_ <- cleanup ;; raise e) s'
    end.
End Lifting.

(** ** The session: [class TungstenScene] *)

Section Session.
Context {HH : Host} {HC : Converters}.

(** [self.path(name)]. *)
Definition path (s : TungstenScene) (name : string) : string :=
  os_path_join (dir s) name.

(** The defaults of the parameters of the constructor: [clean_on_del=True],
    [self_contained=False]; [path=None] is [None]. *)
Definition clean_on_del_default : bool := true.
Definition self_contained_default : bool := false.

(** [__init__(clean_on_del, self_contained, path)], that is the call
    [TungstenScene(...)]: the session it constructs. *)
Definition __init__ (clean_on_del self_contained : bool)
    (path : option string) : M env TungstenScene :=
  d <- match path with
       | None => tempfile_mkdtemp "w"
       | Some p =>
           e <- query (os_path_exists p) ;;
           (if e then ret tt else os_mkdir p) ;;;
           ret p
       end ;;
  let default_mat := "__default_mat" in
  ret {| dir := d;
         clean_on_del := clean_on_del;
         self_contained := self_contained;
         scene := {| media := [];
                     bsdfs := [] ++ [default_bsdf default_mat];
                     primitives := [];
                     camera := ∅;
                     integrator := ∅;
                     renderer := renderer_defaults |};
         mats := ∅;
         images := ∅;
         scenefile := os_path_join d "scene.json";
         default_mat := default_mat |}.

(** [__del__]. *)
Definition __del__ (s : TungstenScene) : M env unit :=
  if clean_on_del s then shutil_rmtree (dir s) else ret tt.

(** [to_zip(outpath, compress)].  The archive is closed when the [with]
    block is left, by an exception too. *)
Definition to_zip (s : TungstenScene) (outpath : string) (compress : bool)
  : M env unit :=
  let flags := if compress then ZIP_DEFLATED else 0%Z in
  zipfile_open outpath flags ;;;
  try_finally
    (walk <- query (os_walk (dir s)) ;;
     for_each walk (fun '(root, dirs, files) =>
       r <- query (os_path_relpath root (dir s)) ;;
       match r with
       | None => raise "ValueError"
       | Some relroot =>
           (if bool_decide (relroot = ".") then ret tt
            else zipfile_write outpath root relroot) ;;;
           for_each files (fun file =>
             let filename := os_path_join root file in
             isf <- query (os_path_isfile filename) ;;
             if isf
             then zipfile_write outpath filename (os_path_join relroot file)
             else ret tt)
       end))
    (zipfile_close outpath).

(** [save()]. *)
Definition save : M state unit :=
  s <- self ;;
  host (json_dump (scenefile s) (scene s)).

(** [add_world(world)]. *)
Definition add_world (world : World) : M state unit :=
  p <- W_PT_world_to_scene_data world ;;
  update_self (set_scene (set_primitives (fun l => l ++ [p]))).

(** The transform [add_camera] serialises for a camera whose world
    transform is [t]. *)
Definition camera_transform (t : Matrix) : Matrix :=
  Matrix_mul (Matrix_mul t (Matrix_Scale (-1) (0, 0, 1)%Qc))
             (Matrix_Scale (-1) (1, 0, 0)%Qc).

(** The record [add_camera] assigns to [self.scene['camera']], once the
    loop over the rows of the transform has run. *)
Definition camera_record (sc : Scene) (cam : Object) : dict :=
  let transform := camera_transform (matrix_world cam) in
  let scale := int_truediv (resolution_percentage (scene_render sc)) 100 in
  let width :=
    int_of_float (int_mul_float (resolution_x (scene_render sc)) scale) in
  let height :=
    int_of_float (int_mul_float (resolution_y (scene_render sc)) scale) in
  <["transform" := JList (extend_rows [] transform)]>
    (<["resolution" := JList [JInt width; JInt height]]> ∅).

(** [add_camera(scene, camera)]. *)
Definition add_camera (sc : Scene) (cam : Object) : M state unit :=
  update_self (set_scene (set_camera (fun _ => camera_record sc cam))) ;;;
  d <- W_PT_camera_to_scene_data cam ;;
  update_self (set_scene (set_camera (fun c => dict_update c d))).

(** [_save_image_as(im, dest, fmt)].  Both branches restore the attribute
    they borrow in a [finally] clause, so the host primitive is given the
    borrowed value and nothing else of the host changes. *)
Definition _save_image_as (s : TungstenScene) (im : Image) (dest fmt : string)
  : M env unit :=
  if bool_decide (image_source im = "FILE")
     && bool_decide (image_file_format im = fmt)
  then image_save im (path s dest)
  else image_save_render im (path s dest) fmt.

(** [add_image(im)]. *)
Definition add_image (im : Image) : M state string :=
  s <- self ;;
  match images s !! image_name im with
  | Some p => ret p
  | None =>
      match IMAGE_FORMATS !! image_file_format im with
      | Some ext =>
          path0 <- host (query (bpy_path_abspath (image_filepath im) None)) ;;
          path <- match image_library im with
                  | Some l =>
                      host (query (bpy_path_abspath (image_filepath im) (Some l)))
                  | None => ret path0
                  end ;;
          e <- host (query (os_path_exists path)) ;;
          if negb (bool_decide (path = "")) && e && negb (self_contained s)
          then
            r <- host (query (os_path_relpath path (dir s))) ;;
            match r with
            | Some p =>
                update_self (set_images (<[image_name im := p]>)) ;;;
                ret p
            | None =>
                update_self (set_images (<[image_name im := path]>)) ;;;
                ret path
            end
          else
            let path := image_name im +:+ ext in
            host (_save_image_as s im path (image_file_format im)) ;;;
            update_self (set_images (<[image_name im := path]>)) ;;;
            ret path
      | None =>
          let path := image_name im +:+ ".png" in
          host (_save_image_as s im path "PNG") ;;;
          update_self (set_images (<[image_name im := path]>)) ;;;
          ret path
      end
  end.

(** [add_material(m)]. *)
Definition add_material (m : Material) : M state dict :=
  s <- self ;;
  match mats s !! material_name m with
  | Some obj => ret obj
  | None =>
      r <- W_PT_material_to_scene_data m ;;
      let obj := fst r in
      let mat := snd r in
      match mat with
      | Some d =>
          if truthy mat
          then update_self (set_scene (set_bsdfs (fun l => l ++ [d])))
          else ret tt
      | None => ret tt
      end ;;;
      update_self (set_mats (<[material_name m := obj]>)) ;;;
      ret obj
  end.

(** [add_mesh(scene, o, name)]. *)
Definition add_mesh (sc : Scene) (o : Object) (name : option string)
  : M state string :=
  let name := match name with None => object_name o | Some n => n end in
  let outname := name +:+ ".wo3" in
  s <- self ;;
  let fulloutname := path s outname in
  _ <- host (write_object_mesh sc o fulloutname) ;;
  ret outname.

(** The record [add_object] has built when it reaches the material: its
    own four fields, then the flattened world transform. *)
Definition object_record (o : Object) (file : string) : dict :=
  <["transform" := JList (extend_rows [] (matrix_world o))]>
    (<["name" := JStr (object_name o)]>
       (<["type" := JStr "mesh"]>
          (<["smooth" := JBool true]>
             (<["file" := JStr file]> ∅)))).

(** The test [len(o.material_slots) > 0 and o.material_slots[0].material]:
    the material of slot 0, if there is a slot 0 and it is filled. *)
Definition first_material (o : Object) : option Material :=
  match material_slots o with
  | slot :: _ => slot_material slot
  | [] => None
  end.

(** [add_object(scene, o)]. *)
Definition add_object (sc : Scene) (o : Object) : M state unit :=
  if negb (bool_decide (object_type o ∈ geometry_types)) then ret tt
  else
    file <- add_mesh sc o None ;;
    let dat := object_record o file in
    dat <- match first_material o with
           | Some m =>
               obj <- add_material m ;;
               ret (dict_update dat obj)
           | None =>
               s <- self ;;
               ret (<["bsdf" := JStr (default_mat s)]> dat)
           end ;;
    update_self (set_scene (set_primitives (fun l => l ++ [dat]))).

(** [add_all(scene)]. *)
Definition add_all (sc : Scene) : M state unit :=
  d <- W_PT_renderer_to_scene_data sc ;;
  update_self (set_scene (set_renderer (fun r => dict_update r d))) ;;;
  d <- W_PT_integrator_to_scene_data sc ;;
  update_self (set_scene (set_integrator (fun i => dict_update i d))) ;;;
  match scene_world sc with
  | Some w => add_world w
  | None => ret tt
  end ;;;
  add_camera sc (scene_camera sc) ;;;
  for_each (scene_objects sc) (add_object sc).

(** A session that is bound to a local variable of its caller, as [s] is
    in [execute].  When the caller returns, the last reference to the
    session goes and the interpreter (CPython counts references)
    finalises it at once with [__del__], ignoring what [__del__] raises.
    When the caller is left by an exception, the traceback of the
    exception keeps the frame of the caller and with it the session: the
    session has not been finalised when the exception reaches the caller
    of the caller. *)
Definition with_session {A} (s : TungstenScene) (m : M state A) : M env A :=
  fun w =>
    match m (s, w) with
    | (Ok a, (s', w')) => (Ok a, snd (__del__ s' w'))
    | (Raise e, (s', w')) => (Raise e, w')
    end.
End Session.

(** ** The export operator: [class W_OT_export] *)

(** The properties of the operator. *)
Record W_OT_export : Type := mkExport {
  filepath : string;
  export_self_contained : bool;
  zip : bool;
  compress : bool
}.

(** What [execute] hands back to the host: the status it returns and the
    messages it passed to [self.report]. *)
Record Outcome : Type := mkOutcome {
  status : string;
  reports : list (string * string)
}.

Section Operator.
Context {HH : Host} {HC : Converters}.

(** The test [execute] starts with: the message of the warning when the
    target exists and is of the wrong kind. *)
Definition path_conflict (op : W_OT_export) (w : env) : option string :=
  let path := filepath op in
  if os_path_exists path w then
    if zip op && negb (os_path_isfile path w)
    then Some "Please select a file, not a directory."
    else if negb (zip op) && negb (os_path_isdir path w)
    then Some "Please select a directory, not a file."
    else None
  else None.

(** [execute(context)], on the scene of the context. *)
Definition execute (op : W_OT_export) (sc : Scene) : M env Outcome :=
  let path := filepath op in
  conflict <- query (path_conflict op) ;;
  match conflict with
  | Some msg => ret (mkOutcome "CANCELLED" [("WARNING", msg)])
  | None =>
      (if zip op then
         s <- __init__ true (export_self_contained op) None ;;
         with_session s
           (add_all sc ;;;
            save ;;;
            s <- self ;;
            host (to_zip s path (compress op)))
       else
         s <- __init__ false (export_self_contained op) (Some path) ;;
         with_session s
           (add_all sc ;;;
            save)) ;;;
      ret (mkOutcome "FINISHED" [])
  end.
End Operator.

(** ** The policies, as the specification words them *)

(** What the first resolution of a material appends to [bsdfs]: the full
    record, when the converter returned one (one that passes the test
    [if mat:], which an empty record does not). *)
Definition full_record (mat : option dict) : list dict :=
  match mat with
  | Some d => if truthy mat then [d] else []
  | None => []
  end.

(** How an image that is not cached yet is resolved: by a reference to its
    source file, or by a file written into the working directory under the
    name [dest], in the encoding [fmt]. *)
Inductive image_decision : Type :=
  | Reference (p : string)
  | Materialize (dest fmt : string).

Section Policy.
Context {HH : Host}.

(** The source path of an image, resolved against its library if it has
    one. *)
Definition source_path (im : Image) (w : env) : string :=
  bpy_path_abspath (image_filepath im) (image_library im) w.

(** The decision of section 4.3 of the specification, steps 2 and 3. *)
Definition image_policy (s : TungstenScene) (im : Image) (w : env)
  : image_decision :=
  match IMAGE_FORMATS !! image_file_format im with
  | Some ext =>
      if os_path_exists (source_path im w) w && negb (self_contained s)
      then Reference (match os_path_relpath (source_path im w) (dir s) w with
                      | Some p => p
                      | None => source_path im w
                      end)
      else Materialize (image_name im +:+ ext) (image_file_format im)
  | None => Materialize (image_name im +:+ ".png") "PNG"
  end.

(** Carrying a decision out: a reference touches no file; a file that
    cannot be written leaves the session as it was. *)
Definition image_outcome (s : TungstenScene) (im : Image) (w : env)
  : result string * state :=
  match image_policy s im w with
  | Reference p => (Ok p, (set_images (<[image_name im := p]>) s, w))
  | Materialize dest fmt =>
      match _save_image_as s im dest fmt w with
      | (Ok _, w') => (Ok dest, (set_images (<[image_name im := dest]>) s, w'))
      | (Raise e, w') => (Raise e, (s, w'))
      end
  end.
End Policy.

(** The record appended last to [primitives]. *)
Definition last_primitive (s : TungstenScene) : option dict :=
  last (primitives (scene s)).

(** ** Histories of a session *)

(** The methods a client of the session may call. *)
Inductive operation : Type :=
  | op_add_all (sc : Scene)
  | op_add_world (w : World)
  | op_add_camera (sc : Scene) (cam : Object)
  | op_add_image (im : Image)
  | op_add_material (m : Material)
  | op_add_mesh (sc : Scene) (o : Object) (name : option string)
  | op_add_object (sc : Scene) (o : Object)
  | op_save
  | op_to_zip (outpath : string) (compress : bool).

Section Histories.
Context {HH : Host} {HC : Converters}.

(** Performing an operation, for its effect. *)
Definition perform (op : operation) : M state unit :=
  match op with
  | op_add_all sc => add_all sc
  | op_add_world w => add_world w
  | op_add_camera sc cam => add_camera sc cam
  | op_add_image im => _ <- add_image im ;; ret tt
  | op_add_material m => _ <- add_material m ;; ret tt
  | op_add_mesh sc o name => _ <- add_mesh sc o name ;; ret tt
  | op_add_object sc o => add_object sc o
  | op_save => save
  | op_to_zip outpath compress =>
      s <- self ;; host (to_zip s outpath compress)
  end.

(** [reachable st st']: some sequence of operations, each one returning or
    raising, leads from [st] to [st']. *)
Inductive reachable : state -> state -> Prop :=
  | reachable_refl st : reachable st st
  | reachable_step st op st' :
      reachable (snd (perform op st)) st' -> reachable st st'.

(** A computation keeps a property [P] of the session: [P] holds of the
    session it leaves behind, by return or by exception, if it held of
    the session it started from. *)
Definition preserves {A} (P : TungstenScene -> Prop) (m : M state A) : Prop :=
  forall st, P (fst st) -> P (fst (snd (m st))).

(** A computation changes, of the session, the image cache at most. *)
Definition changes_image_cache_only {A} (m : M state A) : Prop :=
  forall st, exists cache,
    fst (snd (m st)) = set_images (fun _ => cache) (fst st).

(** Modelled from the spec: what the settings converters, which are not in
    [scene.py], do to the session they are given.  Sections 6 and 9 of the
    specification: a converter returns a mapping; it is impure, and its
    side effects go through the asset materializer (the export of images,
    [add_image]).  Of the session it thus changes the image cache at most;
    what it does to the host, and what it returns, is not constrained. *)
Record converters_contract : Prop := {
  renderer_contract :
    forall sc, changes_image_cache_only (W_PT_renderer_to_scene_data sc);
  integrator_contract :
    forall sc, changes_image_cache_only (W_PT_integrator_to_scene_data sc);
  world_contract :
    forall w, changes_image_cache_only (W_PT_world_to_scene_data w);
  camera_contract :
    forall cam, changes_image_cache_only (W_PT_camera_to_scene_data cam);
  material_contract :
    forall m, changes_image_cache_only (W_PT_material_to_scene_data m)
}.

(** The converters keep a property [P] of the session in what they write
    to it. *)
Record converters_preserve (P : TungstenScene -> Prop) : Prop := {
  renderer_preserves : forall sc, preserves P (W_PT_renderer_to_scene_data sc);
  integrator_preserves : forall sc, preserves P (W_PT_integrator_to_scene_data sc);
  world_preserves : forall w, preserves P (W_PT_world_to_scene_data w);
  camera_preserves : forall cam, preserves P (W_PT_camera_to_scene_data cam);
  material_preserves : forall m, preserves P (W_PT_material_to_scene_data m)
}.
End Histories.

(** A property of the session that the writes of the methods keep: it does
    not look at [primitives], [camera], [integrator], [renderer] and
    [images], it survives an append to [bsdfs], and it survives the binding
    in [mats] of a name that was free in a session having the property. *)
Record stable_under_writes (P : TungstenScene -> Prop) : Prop := {
  stable_primitives : forall s f, P s -> P (set_scene (set_primitives f) s);
  stable_camera : forall s f, P s -> P (set_scene (set_camera f) s);
  stable_integrator : forall s f, P s -> P (set_scene (set_integrator f) s);
  stable_renderer : forall s f, P s -> P (set_scene (set_renderer f) s);
  stable_images : forall s f, P s -> P (set_images f s);
  stable_bsdfs_append :
    forall s d, P s -> P (set_scene (set_bsdfs (fun l => l ++ [d])) s);
  stable_mats_insert :
    forall s s' k obj,
      mats s !! k = None -> P s -> P s' -> P (set_mats (<[k := obj]>) s')
}.

(** The invariant of the default material: it is the first entry of
    [bsdfs], under the name the session keeps in [default_mat]. *)
Definition default_material_first (s : TungstenScene) : Prop :=
  bsdfs (scene s) !! 0%nat = Some (default_bsdf "__default_mat")
  /\ default_mat s = "__default_mat".

(** The session works in the directory [d] and its [clean_on_del] is [c]. *)
Definition owns_directory (c : bool) (d : string) (s : TungstenScene) : Prop :=
  clean_on_del s = c /\ dir s = d.

(** The material cache binds [name] to [frag]. *)
Definition cached_material (name : string) (frag : dict) (s : TungstenScene) : Prop :=
  mats s !! name = Some frag.

(** ** The read-only properties of the session *)

(** [d[key]] on a dictionary. *)
Definition getitem (d : dict) (key : string) : result json :=
  match d !! key with
  | Some v => Ok v
  | None => Raise "KeyError"
  end.

(** [v[i]] for a natural number [i]: an element of a list, a character of
    a string; a dictionary with string keys has no key [i], and the other
    values cannot be subscripted. *)
Definition subscript (v : json) (i : nat) : result json :=
  match v with
  | JList l =>
      match l !! i with
      | Some x => Ok x
      | None => Raise "IndexError"
      end
  | JStr s =>
      match String.get i s with
      | Some c => Ok (JStr (String c EmptyString))
      | None => Raise "IndexError"
      end
  | JDict _ => Raise "KeyError"
  | JNull | JBool _ | JInt _ | JFloat _ => Raise "TypeError"
  end.

Section Readers.
Context {HH : Host}.

(** The property [outputfile]: [os.path.join] accepts a string only. *)
Definition outputfile (s : TungstenScene) : result string :=
  match getitem (renderer (scene s)) "output_file" with
  | Ok (JStr f) => Ok (path s f)
  | Ok _ => Raise "TypeError"
  | Raise e => Raise e
  end.

(** The property [width]. *)
Definition width (s : TungstenScene) : result json :=
  match getitem (camera (scene s)) "resolution" with
  | Ok v => subscript v 0
  | Raise e => Raise e
  end.

(** The property [height]. *)
Definition height (s : TungstenScene) : result json :=
  match getitem (camera (scene s)) "resolution" with
  | Ok v => subscript v 1
  | Raise e => Raise e
  end.
End Readers.

(** ** How a session grows *)

(** From [s] to [s'] the session is the same session: its directory, its
    flags, its manifest path and its default material name are the same,
    [bsdfs] was appended to at most, and every cached material is still
    cached. *)
Record keeps_identity (s s' : TungstenScene) : Prop := {
  same_dir : dir s' = dir s;
  same_clean_on_del : clean_on_del s' = clean_on_del s;
  same_self_contained : self_contained s' = self_contained s;
  same_scenefile : scenefile s' = scenefile s;
  same_default_mat : default_mat s' = default_mat s;
  bsdfs_extended : bsdfs (scene s) `prefix_of` bsdfs (scene s');
  mats_extended : mats s ⊆ mats s'
}.

(** From [s] to [s'] the document was appended to at most: moreover
    [media], [camera], [integrator] and [renderer] are the same, and
    [primitives] was appended to at most. *)
Record extends (s s' : TungstenScene) : Prop := {
  extends_identity : keeps_identity s s';
  same_media : media (scene s') = media (scene s);
  same_camera : camera (scene s') = camera (scene s);
  same_integrator : integrator (scene s') = integrator (scene s);
  same_renderer : renderer (scene s') = renderer (scene s);
  primitives_extended : primitives (scene s) `prefix_of` primitives (scene s')
}.

(** From [s] to [s'] the session has grown: it is the same session,
    [media] is the same, [primitives] was appended to at most, and every
    key of [integrator] and of [renderer] is still bound, to its old value
    or to a new one.  Nothing is said of [camera], which [add_camera]
    replaces. *)
Record grows (s s' : TungstenScene) : Prop := {
  grows_identity : keeps_identity s s';
  grows_media : media (scene s') = media (scene s);
  grows_primitives : primitives (scene s) `prefix_of` primitives (scene s');
  grows_integrator : dom (integrator (scene s)) ⊆ dom (integrator (scene s'));
  grows_renderer : dom (renderer (scene s)) ⊆ dom (renderer (scene s'))
}.

Section Advances.
Context {HH : Host}.

(** Whatever state a computation starts from, the session it leaves, by
    return or by exception, is related by [R] to the one it found. *)
Definition advances {A} (R : TungstenScene -> TungstenScene -> Prop)
    (m : M state A) : Prop :=
  forall st, R (fst st) (fst (snd (m st))).

(** The record [add_object] appends for an object whose material, if it has
    one, is cached under the fragment [frag]. *)
Definition cached_record (s : TungstenScene) (frag : dict) (o : Object) : dict :=
  let dat := object_record o (object_name o +:+ ".wo3") in
  match first_material o with
  | Some _ => dict_update dat frag
  | None => <["bsdf" := JStr (default_mat s)]> dat
  end.

(** The objects of a list that carry geometry. *)
Definition geometry_objects (os : list Object) : list Object :=
  filter (fun o => object_type o ∈ geometry_types) os.
End Advances.

(** ** The entries of the archive *)

Section Archive.
Context {HH : Host}.

(** The entries [to_zip] writes for a triple [(root, dirs, files)] of the
    walk, as pairs of a file name and an archive name: the directory
    itself unless it is the top of the tree, then its regular files. *)
Definition triple_entries (root relroot : string) (files : list string)
    (w : env) : list (string * string) :=
  (if bool_decide (relroot = ".") then [] else [(root, relroot)])
  ++ map (fun file => (os_path_join root file, os_path_join relroot file))
         (filter (fun file => os_path_isfile (os_path_join root file) w = true)
                 files).

(** The entries of a whole walk, up to the first directory that cannot be
    made relative to [top], and whether there is such a directory. *)
Fixpoint walk_entries (top : string)
    (walk : list (string * list string * list string)) (w : env)
  : list (string * string) * bool :=
  match walk with
  | [] => ([], false)
  | (root, dirs, files) :: rest =>
      match os_path_relpath root top w with
      | None => ([], true)
      | Some relroot =>
          let (entries, failed) := walk_entries top rest w in
          (triple_entries root relroot files w ++ entries, failed)
      end
  end.

(** Writing a list of entries to the archive, in order. *)
Definition write_entries (outpath : string) (entries : list (string * string))
  : M env unit :=
  for_each entries (fun '(filename, arcname) =>
    zipfile_write outpath filename arcname).

(** The host answers [os.path.isfile] and [os.path.relpath] in [w'] as it
    does in [w]. *)
Definition same_paths (w w' : env) : Prop :=
  (forall p, os_path_isfile p w' = os_path_isfile p w)
  /\ (forall p start, os_path_relpath p start w' = os_path_relpath p start w).
End Archive.

(** ** A small host and small converters

    An implementation of the two interfaces on which the session can be
    run: a file system that maps a path to a description of what is stored
    there, and converters that read only the name of the entity. *)

Module Example.

(** A path is bound to ["dir"] or to a description of a file. *)
Abbreviation files := (gmap string string).

Definition exists_ (p : string) (w : files) : bool :=
  negb (bool_decide (p = "")) && bool_decide (is_Some (w !! p)).

Definition isdir (p : string) (w : files) : bool :=
  exists_ p w && bool_decide (w !! p = Some "dir").

Definition isfile (p : string) (w : files) : bool :=
  exists_ p w && negb (isdir p w).

Definition join (a b : string) : string := a +:+ "/" +:+ b.

(** Paths on the drive ["D:"] cannot be made relative. *)
Definition relpath (p start : string) (w : files) : option string :=
  if String.prefix "D:" p then None else Some ("../.." +:+ p).

Definition write (p content : string) : M files unit :=
  modify (<[p := content]>).

(** Saving the image named ["broken"] fails. *)
Definition save_image (im : Image) (p fmt : string) : M files unit :=
  if bool_decide (image_name im = "broken") then raise "RuntimeError"
  else write p ("image " +:+ fmt).

Definition rmtree (p : string) : M files unit :=
  modify (filter (fun kv => String.prefix p (fst kv) = false)).

#[global] Instance host : Host := {|
  env := files;
  os_path_exists := exists_;
  os_path_exists_empty := fun w => eq_refl;
  os_path_isfile := isfile;
  os_path_isdir := isdir;
  os_path_isfile_exists := fun p w Hfile => proj1 (andb_prop _ _ Hfile);
  os_path_isdir_exists := fun p w Hdir => proj1 (andb_prop _ _ Hdir);
  os_path_isdir_not_isfile := fun p w Hdir =>
    eq_ind_r (fun b : bool => exists_ p w && negb b = false)
             (andb_false_r (exists_ p w) : exists_ p w && negb true = false)
             Hdir;
  os_path_join := join;
  os_path_relpath := relpath;
  os_mkdir := fun p => write p "dir";
  tempfile_mkdtemp := fun suffix =>
    write ("/tmp/tmp" +:+ suffix) "dir" ;;; ret ("/tmp/tmp" +:+ suffix);
  shutil_rmtree := rmtree;
  os_walk := fun top w => [(top, [], ["scene.json"])];
  zipfile_open := fun outpath flags => write outpath "zip";
  zipfile_write := fun outpath filename arcname =>
    modify (alter (fun c => c +:+ " " +:+ arcname) outpath);
  zipfile_close := fun outpath => ret tt;
  json_dump := fun p doc => write p "json";
  bpy_path_abspath := fun p lib w =>
    match lib with
    | Some l => library_filepath l +:+ p
    | None => p
    end;
  image_save := fun im p => save_image im p (image_file_format im);
  image_save_render := save_image;
  write_object_mesh := fun sc o p => write p "mesh" ;;; ret (8%Z, 12%Z)
|}.

(** The material converter: a reference by name and a lambert record
    under that name.  The material named ["broken"] cannot be
    converted; the one named ["textured"] exports an image first. *)
Definition texture : Image :=
  mkImage "wood" "TIFF" "//wood.tif" None "FILE".

Definition convert_material (m : Material) : M state (dict * option dict) :=
  if bool_decide (material_name m = "broken") then raise "RuntimeError"
  else
    (if bool_decide (material_name m = "textured")
     then _ <- add_image texture ;; ret tt
     else ret tt) ;;;
    ret (<["bsdf" := JStr (material_name m)]> ∅,
         Some (<["name" := JStr (material_name m)]>
                 (<["type" := JStr "lambert"]> ∅))).

#[global] Instance converters : Converters := {|
  W_PT_renderer_to_scene_data := fun sc =>
    ret (<["output_file" := JStr "render.png"]> (<["spp" := JInt 32]> ∅));
  W_PT_integrator_to_scene_data := fun sc =>
    ret (<["type" := JStr "path_tracer"]> ∅);
  W_PT_world_to_scene_data := fun w =>
    ret (<["type" := JStr "infinite_sphere"]> ∅);
  W_PT_camera_to_scene_data := fun cam =>
    ret (<["type" := JStr "pinhole"]> ∅);
  W_PT_material_to_scene_data := convert_material
|}.

(** Converters whose output carries a ['transform'] of its own. *)
Definition with_transform : Converters := {|
  W_PT_renderer_to_scene_data := fun sc => ret ∅;
  W_PT_integrator_to_scene_data := fun sc => ret ∅;
  W_PT_world_to_scene_data := fun w => ret ∅;
  W_PT_camera_to_scene_data := fun cam =>
    ret (<["transform" := JList []]> ∅);
  W_PT_material_to_scene_data := fun m =>
    ret (<["bsdf" := JStr (material_name m)]>
           (<["transform" := JList []]> ∅), None)
|}.

Definition identity : Matrix :=
  mkMatrix (mkVector4 1 0 0 0) (mkVector4 0 1 0 0)
           (mkVector4 0 0 1 0) (mkVector4 0 0 0 1).

(** A translation by (2, 3, 5). *)
Definition translation : Matrix :=
  mkMatrix (mkVector4 1 0 0 (Q2Qc 2)) (mkVector4 0 1 0 (Q2Qc 3))
           (mkVector4 0 0 1 (Q2Qc 5)) (mkVector4 0 0 0 1).

Definition red : Material := mkMaterial "red" 1.
Definition broken : Material := mkMaterial "broken" 2.

Definition cube : Object :=
  mkObject "Cube" "MESH" translation [mkMaterialSlot (Some red)].
Definition plane : Object :=
  mkObject "Plane" "MESH" identity [].
Definition lamp : Object :=
  mkObject "Lamp" "LAMP" identity [].
Definition eye : Object :=
  mkObject "Camera" "CAMERA" translation [].

Definition stage : Scene :=
  mkScene (Some (mkWorld "World")) eye [cube; lamp; plane; eye]
          (mkRenderSettings 1920 1080 50).

(** The same scene, rendered at 70% of 720 by 480. *)
Definition preview : Scene :=
  mkScene (Some (mkWorld "World")) eye [cube; lamp; plane; eye]
          (mkRenderSettings 720 480 70).

(** A file system with one directory and one image file. *)
Definition disk : files :=
  <["/out" := "dir"]> (<["/tex/wood.png" := "image PNG"]> ∅).

(** The session a constructor call returns, with the file system it
    leaves. *)
Definition constructed (r : result TungstenScene * files) : state :=
  match r with
  | (Ok s, w) => (s, w)
  | (Raise _, w) => (mkTungstenScene "" false false
                       (mkDocument [] [] [] ∅ ∅ ∅) ∅ ∅ "" "", w)
  end.

(** A fresh session over a temporary directory, and one over the
    directory ["/out"] that is to stay. *)
Definition fresh : state :=
  constructed (__init__ true false None disk).

Definition persistent : state :=
  constructed (__init__ false false (Some "/out") disk).
End Example.

(** ** A host whose mesh writer can fail *)

Module Faulty.

(** The host of the example, but the mesh of the object named ["Broken"]
    cannot be written. *)
Definition host : Host := {|
  env := Example.files;
  os_path_exists := Example.exists_;
  os_path_exists_empty := os_path_exists_empty (Host := Example.host);
  os_path_isfile := Example.isfile;
  os_path_isdir := Example.isdir;
  os_path_isfile_exists := os_path_isfile_exists (Host := Example.host);
  os_path_isdir_exists := os_path_isdir_exists (Host := Example.host);
  os_path_isdir_not_isfile := os_path_isdir_not_isfile (Host := Example.host);
  os_path_join := Example.join;
  os_path_relpath := Example.relpath;
  os_mkdir := os_mkdir (Host := Example.host);
  tempfile_mkdtemp := tempfile_mkdtemp (Host := Example.host);
  shutil_rmtree := Example.rmtree;
  os_walk := os_walk (Host := Example.host);
  zipfile_open := zipfile_open (Host := Example.host);
  zipfile_write := zipfile_write (Host := Example.host);
  zipfile_close := zipfile_close (Host := Example.host);
  json_dump := json_dump (Host := Example.host);
  bpy_path_abspath := bpy_path_abspath (Host := Example.host);
  image_save := image_save (Host := Example.host);
  image_save_render := Example.save_image;
  write_object_mesh := fun sc o p =>
    if bool_decide (object_name o = "Broken") then raise "IOError"
    else write_object_mesh (Host := Example.host) sc o p
|}.

(** Converters that return one field each. *)
Definition converters : Converters (HH := host) := {|
  W_PT_renderer_to_scene_data := fun sc => ret (<["spp" := JInt 16]> ∅);
  W_PT_integrator_to_scene_data := fun sc => ret (<["max_bounces" := JInt 8]> ∅);
  W_PT_world_to_scene_data := fun w => ret (<["type" := JStr "skydome"]> ∅);
  W_PT_camera_to_scene_data := fun cam => ret (<["fov" := JInt 60]> ∅);
  W_PT_material_to_scene_data := fun m =>
    ret (<["bsdf" := JStr (material_name m)]> ∅, None)
|}.

Definition rock : Object :=
  mkObject "Broken" "MESH" Example.identity
    [mkMaterialSlot (Some Example.red)].
End Faulty.

(** ** A host that records the entries of its archives *)

Module Tree.

(** The file system of the example and, beside it, the entries written to
    archives: the archive, the file name and the archive name of each. *)
Definition world : Type := Example.files * list (string * string * string).

Definition on_files {A} (m : M Example.files A) : M world A :=
  fun w =>
    match m (fst w) with
    | (r, fs) => (r, (fs, snd w))
    end.

(** [start] itself is ["."], a path below [start] loses [start] and the
    separator, and no other path can be made relative. *)
Definition relpath (p start : string) : option string :=
  if bool_decide (p = start) then Some "."
  else if String.prefix (start +:+ "/") p
       then Some (String.substring (String.length start + 1)
                    (String.length p - (String.length start + 1)) p)
       else None.

(** Every directory is walked as a working directory with two files, a
    name that is not a regular file, and one sub-directory with a file. *)
Definition walk (top : string) : list (string * list string * list string) :=
  [(top, ["textures"], ["scene.json"; "Cube.wo3"; "dangling"]);
   (Example.join top "textures", [], ["wood.png"])].

Definition host : Host := {|
  env := world;
  os_path_exists := fun p w => Example.exists_ p (fst w);
  os_path_exists_empty := fun w => eq_refl;
  os_path_isfile := fun p w => Example.isfile p (fst w);
  os_path_isdir := fun p w => Example.isdir p (fst w);
  os_path_isfile_exists := fun p w =>
    os_path_isfile_exists (Host := Example.host) p (fst w);
  os_path_isdir_exists := fun p w =>
    os_path_isdir_exists (Host := Example.host) p (fst w);
  os_path_isdir_not_isfile := fun p w =>
    os_path_isdir_not_isfile (Host := Example.host) p (fst w);
  os_path_join := Example.join;
  os_path_relpath := fun p start w => relpath p start;
  os_mkdir := fun p => on_files (os_mkdir (Host := Example.host) p);
  tempfile_mkdtemp := fun suffix =>
    on_files (tempfile_mkdtemp (Host := Example.host) suffix);
  shutil_rmtree := fun p => on_files (Example.rmtree p);
  os_walk := fun top w => walk top;
  zipfile_open := fun outpath flags => on_files (Example.write outpath "zip");
  zipfile_write := fun outpath filename arcname =>
    modify (fun w => (fst w, snd w ++ [(outpath, filename, arcname)]));
  zipfile_close := fun outpath => ret tt;
  json_dump := fun p doc => on_files (Example.write p "json");
  bpy_path_abspath := fun p lib w =>
    bpy_path_abspath (Host := Example.host) p lib (fst w);
  image_save := fun im p => on_files (image_save (Host := Example.host) im p);
  image_save_render := fun im p fmt => on_files (Example.save_image im p fmt);
  write_object_mesh := fun sc o p =>
    on_files (write_object_mesh (Host := Example.host) sc o p)
|}.

(** A working directory after an export. *)
Definition disk : world :=
  (<["/tmp/tmpw" := "dir"]>
     (<["/tmp/tmpw/scene.json" := "json"]>
        (<["/tmp/tmpw/Cube.wo3" := "mesh"]>
           (<["/tmp/tmpw/textures" := "dir"]>
              (<["/tmp/tmpw/textures/wood.png" := "image PNG"]> ∅)))),
   []).
End Tree.

(** * Properties of the session *)

(** ** Running computations *)

Section Running.
Context {S A B : Type}.

Lemma bind_ok (m : M S A) (k : A -> M S B) s a s' :
  m s = (Ok a, s') -> bind m k s = k a s'.
Proof. unfold bind. intros ->. reflexivity. Qed.

Lemma bind_raise (m : M S A) (k : A -> M S B) s e s' :
  m s = (Raise e, s') -> bind m k s = (Raise e, s').
Proof. unfold bind. intros ->. reflexivity. Qed.
End Running.

(** ** Transforms *)

Lemma extend_rows_row_major (m : Matrix) : extend_rows [] m = row_major m.
Proof. reflexivity. Qed.

Lemma row_major_length (m : Matrix) : length (row_major m) = 16%nat.
Proof. reflexivity. Qed.

(** The two flips negate the first and the third column. *)
Lemma camera_transform_negates (t : Matrix) :
  camera_transform t =
  mkMatrix (negate_xz (row0 t)) (negate_xz (row1 t))
           (negate_xz (row2 t)) (negate_xz (row3 t)).
Proof.
  destruct t as [[a0 b0 c0 d0] [a1 b1 c1 d1] [a2 b2 c2 d2] [a3 b3 c3 d3]].
  unfold camera_transform, Matrix_mul, row_mul, dot4, col, Matrix_Scale, negate_xz.
  simpl. f_equal; f_equal; ring.
Qed.

(** ** Dictionaries *)

Lemma dict_update_bound (d1 d2 : dict) k v :
  d2 !! k = Some v -> dict_update d1 d2 !! k = Some v.
Proof. intros Hk. unfold dict_update. apply lookup_union_Some_l. exact Hk. Qed.

Lemma dict_update_free (d1 d2 : dict) k :
  d2 !! k = None -> dict_update d1 d2 !! k = d1 !! k.
Proof. intros Hk. unfold dict_update. apply lookup_union_r. exact Hk. Qed.

(** ** Objects *)

Section Objects.
Context {HH : Host} {HC : Converters}.

Lemma add_object_with_material sc o m st file st1 frag st2 :
  object_type o ∈ geometry_types ->
  add_mesh sc o None st = (Ok file, st1) ->
  first_material o = Some m ->
  add_material m st1 = (Ok frag, st2) ->
  add_object sc o st =
  (Ok tt,
   (set_scene (set_primitives
                 (fun l => l ++ [dict_update (object_record o file) frag]))
              (fst st2),
    snd st2)).
Proof.
  intros Hty Hmesh Hm Hmat. unfold add_object.
  rewrite bool_decide_eq_true_2 by exact Hty. simpl.
  rewrite (bind_ok _ _ _ _ _ Hmesh), Hm.
  rewrite (bind_ok _ (fun dat => update_self _) st1
             (dict_update (object_record o file) frag) st2).
  - reflexivity.
  - rewrite (bind_ok _ _ _ _ _ Hmat). reflexivity.
Qed.

Lemma add_object_without_material sc o st file st1 :
  object_type o ∈ geometry_types ->
  add_mesh sc o None st = (Ok file, st1) ->
  first_material o = None ->
  add_object sc o st =
  (Ok tt,
   (set_scene (set_primitives
                 (fun l => l ++ [<["bsdf" := JStr (default_mat (fst st1))]>
                                   (object_record o file)]))
              (fst st1),
    snd st1)).
Proof.
  intros Hty Hmesh Hm. unfold add_object.
  rewrite bool_decide_eq_true_2 by exact Hty. simpl.
  rewrite (bind_ok _ _ _ _ _ Hmesh), Hm. reflexivity.
Qed.
End Objects.

(** ** The identity caches: one call *)

Section Caches.
Context {HH : Host} {HC : Converters}.

Lemma add_material_cached m (st : state) frag :
  mats (fst st) !! material_name m = Some frag ->
  add_material m st = (Ok frag, st).
Proof.
  intros Hhit. unfold add_material. unfold bind at 1. unfold self at 1.
  rewrite Hhit. reflexivity.
Qed.

Lemma add_material_converted m (st : state) obj mat st1 :
  mats (fst st) !! material_name m = None ->
  W_PT_material_to_scene_data m st = (Ok (obj, mat), st1) ->
  add_material m st =
  (Ok obj,
   (set_mats (<[material_name m := obj]>)
      (set_scene (set_bsdfs (fun l => l ++ full_record mat)) (fst st1)),
    snd st1)).
Proof.
  intros Hfree Hconv. unfold add_material. unfold bind at 1. unfold self at 1.
  rewrite Hfree, (bind_ok _ _ _ _ _ Hconv). simpl.
  destruct st1 as [[d c sc [me bs pr ca ig re] ma im sf dm] w1].
  destruct mat as [rec |]; simpl; [destruct (negb (size rec =? 0)%nat) |];
    unfold bind, update_self, ret, set_mats, set_scene, set_bsdfs; simpl;
    rewrite ?app_nil_r; reflexivity.
Qed.

Lemma add_material_failed m (st : state) e st1 :
  mats (fst st) !! material_name m = None ->
  W_PT_material_to_scene_data m st = (Raise e, st1) ->
  add_material m st = (Raise e, st1).
Proof.
  intros Hfree Hconv. unfold add_material. unfold bind at 1. unfold self at 1.
  rewrite Hfree. apply bind_raise. exact Hconv.
Qed.

Lemma add_image_cached im (st : state) p :
  images (fst st) !! image_name im = Some p ->
  add_image im st = (Ok p, st).
Proof.
  intros Hhit. unfold add_image. unfold bind at 1. unfold self at 1.
  rewrite Hhit. reflexivity.
Qed.

(** An image that is not cached is resolved as the policy prescribes. *)
Lemma add_image_uncached im s w :
  images s !! image_name im = None ->
  add_image im (s, w) = image_outcome s im w.
Proof.
  intros Hfree. unfold add_image, image_outcome, image_policy, source_path.
  unfold bind at 1. unfold self at 1. simpl. rewrite Hfree.
  destruct (IMAGE_FORMATS !! image_file_format im) as [ext |].
  - assert (Hpath : forall (k : string -> M state string),
               (p <- match image_library im with
                     | Some l => host (query (bpy_path_abspath (image_filepath im) (Some l)))
                     | None => ret (bpy_path_abspath (image_filepath im) None w)
                     end ;; k p) (s, w)
               = k (bpy_path_abspath (image_filepath im) (image_library im) w) (s, w)).
    { intros k. destruct (image_library im); reflexivity. }
    unfold bind at 1. unfold host at 1, query at 1. simpl.
    rewrite Hpath. clear Hpath.
    set (src := bpy_path_abspath (image_filepath im) (image_library im) w).
    unfold bind at 1. unfold host at 1, query at 1. simpl.
    assert (Hne : negb (bool_decide (src = "")) && os_path_exists src w
                  = os_path_exists src w).
    { destruct (bool_decide_reflect (src = "")) as [-> | _]; simpl.
      - symmetry. apply os_path_exists_empty.
      - reflexivity. }
    rewrite Hne.
    destruct (os_path_exists src w && negb (self_contained s)).
    + unfold bind at 1. unfold host at 1, query at 1. simpl.
      destruct (os_path_relpath src (dir s) w); reflexivity.
    + unfold bind at 1. unfold host at 1. simpl.
      destruct (_save_image_as s im (image_name im +:+ ext) (image_file_format im) w)
        as [[[] | e] w']; reflexivity.
  - unfold bind at 1. unfold host at 1. simpl.
    destruct (_save_image_as s im (image_name im +:+ ".png") "PNG" w)
      as [[[] | e] w']; reflexivity.
Qed.
End Caches.

(** ** Properties that every operation keeps *)

Section Preservation.
Context {HH : Host} {HC : Converters}.
Variable P : TungstenScene -> Prop.
Hypothesis P_stable : stable_under_writes P.

Lemma preserves_ret {A} (a : A) : preserves P (ret a).
Proof. intros st HP. exact HP. Qed.

Lemma preserves_raise {A} (e : exn) : preserves P (raise (A := A) e).
Proof. intros st HP. exact HP. Qed.

Lemma preserves_bind {A B} (m : M state A) (k : A -> M state B) :
  preserves P m -> (forall a, preserves P (k a)) -> preserves P (bind m k).
Proof.
  intros Hm Hk st HP. specialize (Hm st HP). unfold bind.
  destruct (m st) as [[a | e] st1]; simpl in *.
  - apply Hk. exact Hm.
  - exact Hm.
Qed.

Lemma preserves_self : preserves P self.
Proof. intros st HP. exact HP. Qed.

Lemma preserves_host {A} (m : M env A) : preserves P (host m).
Proof.
  intros st HP. unfold host. destruct (m (snd st)) as [r w']. exact HP.
Qed.

Lemma preserves_update_self (f : TungstenScene -> TungstenScene) :
  (forall s, P s -> P (f s)) -> preserves P (update_self f).
Proof. intros Hf st HP. apply Hf. exact HP. Qed.

Lemma preserves_for_each {A} (xs : list A) (body : A -> M state unit) :
  (forall x, preserves P (body x)) -> preserves P (for_each xs body).
Proof.
  intros Hbody. induction xs as [| x xs IH]; simpl.
  - apply preserves_ret.
  - apply preserves_bind; [apply Hbody | intros _; exact IH].
Qed.

Lemma add_image_preserves im : preserves P (add_image im).
Proof.
  unfold add_image. apply preserves_bind; [apply preserves_self |].
  intros s. destruct (images s !! image_name im); [apply preserves_ret |].
  assert (Hsave : forall dest fmt,
             preserves P (host (_save_image_as s im dest fmt) ;;;
                          update_self (set_images (<[image_name im := dest]>)) ;;;
                          ret dest)).
  { intros dest fmt. apply preserves_bind; [apply preserves_host |]. intros _.
    apply preserves_bind; [| intros _; apply preserves_ret].
    apply preserves_update_self. intros s'. apply (stable_images P P_stable). }
  destruct (IMAGE_FORMATS !! image_file_format im); [| apply Hsave].
  apply preserves_bind; [apply preserves_host |]. intros path0.
  apply preserves_bind.
  { destruct (image_library im); [apply preserves_host | apply preserves_ret]. }
  intros p. apply preserves_bind; [apply preserves_host |]. intros e.
  destruct (negb (bool_decide (p = "")) && e && negb (self_contained s));
    [| apply Hsave].
  apply preserves_bind; [apply preserves_host |].
  intros [rel |];
    (apply preserves_bind; [| intros _; apply preserves_ret]);
    apply preserves_update_self; intros s'; apply (stable_images P P_stable).
Qed.

Lemma add_mesh_preserves sc o name : preserves P (add_mesh sc o name).
Proof.
  unfold add_mesh. apply preserves_bind; [apply preserves_self |]. intros s.
  apply preserves_bind; [apply preserves_host | intros _; apply preserves_ret].
Qed.

Lemma save_preserves : preserves P save.
Proof.
  unfold save. apply preserves_bind; [apply preserves_self |]. intros s.
  apply preserves_host.
Qed.

Hypothesis P_rely : converters_preserve P.

Lemma add_material_preserves m : preserves P (add_material m).
Proof.
  intros st HP. unfold add_material. unfold bind at 1. unfold self at 1.
  destruct (mats (fst st) !! material_name m) eqn:Hfree; [exact HP |].
  pose proof (material_preserves P P_rely m st HP) as HP1.
  unfold bind at 1.
  destruct (W_PT_material_to_scene_data m st) as [[[obj mat] | e] st1];
    simpl in *; [| exact HP1].
  destruct mat as [d |]; simpl; [destruct (negb (size d =? 0)%nat) |];
    unfold bind, update_self, ret; simpl;
    apply (stable_mats_insert P P_stable (fst st) _ _ _ Hfree HP);
    try exact HP1.
  apply (stable_bsdfs_append P P_stable). exact HP1.
Qed.

Lemma add_world_preserves w : preserves P (add_world w).
Proof.
  unfold add_world.
  apply preserves_bind; [apply (world_preserves P P_rely) |]. intros p.
  apply preserves_update_self. intros s. apply (stable_primitives P P_stable).
Qed.

Lemma add_camera_preserves sc cam : preserves P (add_camera sc cam).
Proof.
  unfold add_camera. apply preserves_bind.
  { apply preserves_update_self. intros s. apply (stable_camera P P_stable). }
  intros _. apply preserves_bind; [apply (camera_preserves P P_rely) |]. intros d.
  apply preserves_update_self. intros s. apply (stable_camera P P_stable).
Qed.

Lemma add_object_preserves sc o : preserves P (add_object sc o).
Proof.
  unfold add_object.
  destruct (negb (bool_decide (object_type o ∈ geometry_types)));
    [apply preserves_ret |].
  apply preserves_bind; [apply add_mesh_preserves |]. intros file.
  apply preserves_bind.
  - destruct (first_material o) as [m |].
    + apply preserves_bind; [apply add_material_preserves |].
      intros obj. apply preserves_ret.
    + apply preserves_bind; [apply preserves_self |].
      intros s. apply preserves_ret.
  - intros dat. apply preserves_update_self. intros s.
    apply (stable_primitives P P_stable).
Qed.

Lemma add_all_preserves sc : preserves P (add_all sc).
Proof.
  unfold add_all.
  apply preserves_bind; [apply (renderer_preserves P P_rely) |]. intros d1.
  apply preserves_bind.
  { apply preserves_update_self. intros s. apply (stable_renderer P P_stable). }
  intros _.
  apply preserves_bind; [apply (integrator_preserves P P_rely) |]. intros d2.
  apply preserves_bind.
  { apply preserves_update_self. intros s. apply (stable_integrator P P_stable). }
  intros _. apply preserves_bind.
  { destruct (scene_world sc); [apply add_world_preserves | apply preserves_ret]. }
  intros _. apply preserves_bind; [apply add_camera_preserves |]. intros _.
  apply preserves_for_each. intros o. apply add_object_preserves.
Qed.

Lemma perform_preserves op : preserves P (perform op).
Proof.
  destruct op; simpl.
  - apply add_all_preserves.
  - apply add_world_preserves.
  - apply add_camera_preserves.
  - apply preserves_bind; [apply add_image_preserves | intros; apply preserves_ret].
  - apply preserves_bind; [apply add_material_preserves | intros; apply preserves_ret].
  - apply preserves_bind; [apply add_mesh_preserves | intros; apply preserves_ret].
  - apply add_object_preserves.
  - apply save_preserves.
  - apply preserves_bind; [apply preserves_self | intros; apply preserves_host].
Qed.

Lemma reachable_preserves st st' :
  reachable st st' -> P (fst st) -> P (fst st').
Proof.
  induction 1 as [st | st op st' _ IH]; intros HP; [exact HP |].
  apply IH. apply perform_preserves. exact HP.
Qed.
End Preservation.

(** The two properties of interest are stable under the writes. *)

Lemma default_material_first_stable : stable_under_writes default_material_first.
Proof.
  split; try (intros s f Hs; exact Hs).
  - intros s d [Hz Hn]. split; [| exact Hn]. simpl.
    apply lookup_app_l_Some. exact Hz.
  - intros s s' k obj _ _ Hs'. exact Hs'.
Qed.


Lemma cached_material_stable name frag :
  stable_under_writes (cached_material name frag).
Proof.
  split; try (intros s f Hs; exact Hs).
  intros s s' k obj Hfree Hs Hs'. unfold cached_material in *. simpl.
  rewrite lookup_insert_ne; [exact Hs' |].
  intros ->. rewrite Hfree in Hs. discriminate.
Qed.

(** ** The contract of the converters *)

Section Contract.
Context {HH : Host} {HC : Converters}.

Lemma changes_image_cache_only_run {A} (m : M state A) st r st' :
  changes_image_cache_only m ->
  m st = (r, st') ->
  exists cache, fst st' = set_images (fun _ => cache) (fst st).
Proof.
  intros Hm Hrun. destruct (Hm st) as [cache Hcache].
  exists cache. rewrite Hrun in Hcache. exact Hcache.
Qed.

Lemma changes_image_cache_only_preserves {A} (m : M state A) P :
  stable_under_writes P -> changes_image_cache_only m -> preserves P m.
Proof.
  intros HP Hm st Hst. destruct (Hm st) as [cache ->].
  apply (stable_images P HP). exact Hst.
Qed.

Lemma changes_image_cache_only_ret {A} (a : A) :
  changes_image_cache_only (ret a).
Proof. intros [s w]. exists (images s). by destruct s. Qed.

Lemma changes_image_cache_only_raise {A} (e : exn) :
  changes_image_cache_only (raise (A := A) e).
Proof. intros [s w]. exists (images s). by destruct s. Qed.

Lemma changes_image_cache_only_bind {A B} (m : M state A) (k : A -> M state B) :
  changes_image_cache_only m ->
  (forall a, changes_image_cache_only (k a)) ->
  changes_image_cache_only (bind m k).
Proof.
  intros Hm Hk st. destruct (Hm st) as [c1 H1]. unfold bind.
  destruct (m st) as [[a | e] st1]; simpl in *.
  - destruct (Hk a st1) as [c2 H2]. exists c2. rewrite H2, H1. reflexivity.
  - exists c1. exact H1.
Qed.

(** Under the contract, the converters keep every property that the
    writes of the methods keep. *)
Lemma contract_preserves P :
  stable_under_writes P -> converters_contract -> converters_preserve P.
Proof.
  intros HP [Hr Hi Hw Hc Hm].
  split; intros x; apply changes_image_cache_only_preserves; auto.
Qed.

Lemma add_image_changes_image_cache_only im :
  changes_image_cache_only (add_image im).
Proof.
  intros [s w]. simpl.
  destruct (images s !! image_name im) as [p |] eqn:Hcache.
  - rewrite (add_image_cached im (s, w) p Hcache). simpl.
    exists (images s). by destruct s.
  - rewrite (add_image_uncached im s w Hcache). unfold image_outcome.
    destruct (image_policy s im w) as [p | dest fmt]; simpl.
    + eexists. reflexivity.
    + destruct (_save_image_as s im dest fmt w) as [[[] | e] w']; simpl.
      * eexists. reflexivity.
      * exists (images s). by destruct s.
Qed.
End Contract.

(** The converters of the example write to the session through
    [add_image] only. *)
Lemma example_converters_contract :
  converters_contract (HC := Example.converters).
Proof.
  split;
    try (intros x; exact (changes_image_cache_only_ret (HH := Example.host) _)).
  intros m. simpl. unfold Example.convert_material.
  destruct (bool_decide (material_name m = "broken"));
    [exact (changes_image_cache_only_raise (HH := Example.host) _) |].
  apply (changes_image_cache_only_bind (HH := Example.host));
    [| intros _; exact (changes_image_cache_only_ret (HH := Example.host) _)].
  destruct (bool_decide (material_name m = "textured"));
    [| exact (changes_image_cache_only_ret (HH := Example.host) _)].
  apply (changes_image_cache_only_bind (HH := Example.host));
    [| intros _; exact (changes_image_cache_only_ret (HH := Example.host) _)].
  apply (add_image_changes_image_cache_only (HH := Example.host)).
Qed.

(** ** Type filtering, material merge and transforms *)

(** C6. An object whose type is outside MESH, CURVE, SURFACE, META and FONT
    leaves everything as it was: [add_object] returns at once, the session
    (document, caches) and the host (no mesh file) are unchanged. *)
Theorem non_geometry_object_has_no_effect {HH : Host} {HC : Converters}
    sc o (st : state) :
  object_type o ∉ geometry_types ->
  add_object sc o st = (Ok tt, st).
Proof.
  intros Hty. unfold add_object.
  rewrite bool_decide_eq_false_2 by exact Hty.
  reflexivity.
Qed.

Lemma non_geometry_object_has_no_effect_witness :
  (object_type Example.lamp ∉ geometry_types)
  /\ add_object Example.stage Example.lamp Example.fresh = (Ok tt, Example.fresh).
Proof.
  assert (Hty : object_type Example.lamp ∉ geometry_types)
    by (apply (bool_decide_unpack _); vm_compute; exact I).
  split; [exact Hty |].
  apply (non_geometry_object_has_no_effect Example.stage Example.lamp Example.fresh Hty).
Defined.

(** C10. In [add_object] the reference fragment of the material is merged
    into the record after the record's own fields (name, type, smooth, file,
    transform) are set: a key of the fragment takes the fragment's value,
    whatever the record held, and a key that the fragment does not bind
    keeps the value of the record. *)
Theorem fragment_merged_over_object_fields {HH : Host} {HC : Converters}
    sc o m (st : state) file st1 frag st2 :
  object_type o ∈ geometry_types ->
  add_mesh sc o None st = (Ok file, st1) ->
  first_material o = Some m ->
  add_material m st1 = (Ok frag, st2) ->
  exists dat : dict,
    add_object sc o st =
      (Ok tt, (set_scene (set_primitives (fun l => l ++ [dat])) (fst st2), snd st2))
    /\ (forall k v, frag !! k = Some v -> dat !! k = Some v)
    /\ (forall k, frag !! k = None -> dat !! k = object_record o file !! k)
    /\ object_record o file !! "name" = Some (JStr (object_name o))
    /\ object_record o file !! "type" = Some (JStr "mesh")
    /\ object_record o file !! "smooth" = Some (JBool true)
    /\ object_record o file !! "file" = Some (JStr file)
    /\ object_record o file !! "transform"
       = Some (JList (row_major (matrix_world o))).
Proof.
  intros Hty Hmesh Hm Hmat.
  exists (dict_update (object_record o file) frag).
  split; [exact (add_object_with_material sc o m st file st1 frag st2 Hty Hmesh Hm Hmat) |].
  split; [intros k v; apply dict_update_bound |].
  split; [intros k; apply dict_update_free |].
  unfold object_record. repeat split; by simplify_map_eq.
Qed.

Lemma fragment_merged_over_object_fields_witness :
  let st1 := snd (add_mesh Example.stage Example.cube None Example.fresh) in
  let frag : dict := <["bsdf" := JStr "red"]> ∅ in
  let st2 := snd (add_material Example.red st1) in
  (object_type Example.cube ∈ geometry_types)
  /\ add_mesh Example.stage Example.cube None Example.fresh = (Ok "Cube.wo3", st1)
  /\ first_material Example.cube = Some Example.red
  /\ add_material Example.red st1 = (Ok frag, st2)
  /\ exists dat : dict,
       add_object Example.stage Example.cube Example.fresh =
         (Ok tt, (set_scene (set_primitives (fun l => l ++ [dat])) (fst st2), snd st2))
       /\ (forall k v, frag !! k = Some v -> dat !! k = Some v)
       /\ (forall k, frag !! k = None ->
           dat !! k = object_record Example.cube "Cube.wo3" !! k)
       /\ object_record Example.cube "Cube.wo3" !! "name" = Some (JStr "Cube")
       /\ object_record Example.cube "Cube.wo3" !! "type" = Some (JStr "mesh")
       /\ object_record Example.cube "Cube.wo3" !! "smooth" = Some (JBool true)
       /\ object_record Example.cube "Cube.wo3" !! "file" = Some (JStr "Cube.wo3")
       /\ object_record Example.cube "Cube.wo3" !! "transform"
          = Some (JList (row_major (matrix_world Example.cube))).
Proof.
  intros st1 frag st2.
  assert (Hty : object_type Example.cube ∈ geometry_types)
    by (apply (bool_decide_unpack _); vm_compute; exact I).
  assert (Hmesh : add_mesh Example.stage Example.cube None Example.fresh
                  = (Ok "Cube.wo3", st1)) by reflexivity.
  assert (Hmat : add_material Example.red st1 = (Ok frag, st2)) by reflexivity.
  split; [exact Hty |]. split; [exact Hmesh |]. split; [reflexivity |].
  split; [exact Hmat |].
  exact (fragment_merged_over_object_fields
           Example.stage Example.cube Example.red Example.fresh
           "Cube.wo3" st1 frag st2 Hty Hmesh eq_refl Hmat).
Defined.

(** C3, the claim as stated fails for the records the two methods leave:
    the fields merged in after ['transform'] is set, from the camera
    converter and from the reference fragment of the material, replace it
    when they carry a ['transform'] of their own, and converters that keep
    to their contract may return one.  With such converters the camera
    and the object of the example are serialised with an empty
    transform. *)
Lemma merged_transform_takes_precedence :
  let after_camera :=
    snd (add_camera (HC := Example.with_transform)
           Example.stage Example.eye Example.fresh) in
  let after_object :=
    snd (add_object (HC := Example.with_transform)
           Example.stage Example.cube Example.fresh) in
  converters_contract (HC := Example.with_transform)
  /\ fst (add_camera (HC := Example.with_transform)
            Example.stage Example.eye Example.fresh) = Ok tt
  /\ camera (scene (fst after_camera)) !! "transform" = Some (JList [])
  /\ fst (add_object (HC := Example.with_transform)
            Example.stage Example.cube Example.fresh) = Ok tt
  /\ exists dat : dict,
       last_primitive (fst after_object) = Some dat
       /\ dat !! "transform" = Some (JList []).
Proof.
  intros after_camera after_object.
  split; [split; intros x st; exists (images (fst st)); by destruct st as [[] ?] |].
  split; [reflexivity |]. split; [reflexivity |]. split; [reflexivity |].
  exists (dict_update (object_record Example.cube "Cube.wo3")
            (<["bsdf" := JStr "red"]> (<["transform" := JList []]> ∅))).
  split; reflexivity.
Qed.

(** C3, amended.  For a camera with world transform T, the record
    [add_camera] leaves carries under ['transform'] the sixteen scalars, row
    after row, of T multiplied on the right by the flip of Z and then by
    the flip of X, that is of T with its first and third columns negated,
    provided the camera converter returns no ['transform'] of its own.
    For an object with geometry and world transform T, the primitive
    [add_object] appends carries the sixteen scalars of T itself, row
    after row, provided the reference fragment of its material, if it has
    one, has no ['transform'] of its own.  (The converters are assumed to
    keep to their contract.) *)
Theorem serialized_transforms {HH : Host} {HC : Converters} (sc : Scene) :
  let flat (m : Matrix) : json :=
    JList [JFloat (vx (row0 m)); JFloat (vy (row0 m));
           JFloat (vz (row0 m)); JFloat (vw (row0 m));
           JFloat (vx (row1 m)); JFloat (vy (row1 m));
           JFloat (vz (row1 m)); JFloat (vw (row1 m));
           JFloat (vx (row2 m)); JFloat (vy (row2 m));
           JFloat (vz (row2 m)); JFloat (vw (row2 m));
           JFloat (vx (row3 m)); JFloat (vy (row3 m));
           JFloat (vz (row3 m)); JFloat (vw (row3 m))] in
  let flips (t : Matrix) : Matrix :=
    Matrix_mul (Matrix_mul t (Matrix_Scale (-1) (0, 0, 1)%Qc))
               (Matrix_Scale (-1) (1, 0, 0)%Qc) in
  (forall t,
      flips t =
      mkMatrix
        (mkVector4 (- vx (row0 t)) (vy (row0 t)) (- vz (row0 t)) (vw (row0 t)))
        (mkVector4 (- vx (row1 t)) (vy (row1 t)) (- vz (row1 t)) (vw (row1 t)))
        (mkVector4 (- vx (row2 t)) (vy (row2 t)) (- vz (row2 t)) (vw (row2 t)))
        (mkVector4 (- vx (row3 t)) (vy (row3 t)) (- vz (row3 t)) (vw (row3 t))))%Qc
  /\ (forall cam (st : state) d st',
        converters_contract ->
        W_PT_camera_to_scene_data cam
          (set_scene (set_camera (fun _ => camera_record sc cam)) (fst st), snd st)
          = (Ok d, st') ->
        d !! "transform" = None ->
        fst (add_camera sc cam st) = Ok tt
        /\ camera (scene (fst (snd (add_camera sc cam st)))) !! "transform"
           = Some (flat (flips (matrix_world cam))))
  /\ (forall o (st : state) file st1,
        object_type o ∈ geometry_types ->
        add_mesh sc o None st = (Ok file, st1) ->
        (first_material o = None ->
         fst (add_object sc o st) = Ok tt
         /\ exists dat : dict,
              last_primitive (fst (snd (add_object sc o st))) = Some dat
              /\ dat !! "transform" = Some (flat (matrix_world o)))
        /\ (forall m frag st2,
              first_material o = Some m ->
              add_material m st1 = (Ok frag, st2) ->
              frag !! "transform" = None ->
              fst (add_object sc o st) = Ok tt
              /\ exists dat : dict,
                   last_primitive (fst (snd (add_object sc o st))) = Some dat
                   /\ dat !! "transform" = Some (flat (matrix_world o)))).
Proof.
  intros flat flips.
  assert (Hobject : forall o file,
             object_record o file !! "transform" = Some (flat (matrix_world o))).
  { intros o file. unfold object_record. by rewrite lookup_insert_eq. }
  split; [| split].
  - intros t. exact (camera_transform_negates t).
  - intros cam st d st' Hcontract Hconv Hd.
    assert (Hcam : camera (scene (fst st')) = camera_record sc cam).
    { destruct (changes_image_cache_only_run _ _ _ _
                  (camera_contract Hcontract cam) Hconv) as [cache ->].
      reflexivity. }
    assert (Hrun : add_camera sc cam st =
                   (Ok tt, (set_scene (set_camera (fun c => dict_update c d)) (fst st'),
                            snd st'))).
    { unfold add_camera. unfold bind at 1. unfold update_self at 1. simpl.
      rewrite (bind_ok _ _ _ _ _ Hconv). reflexivity. }
    rewrite Hrun. simpl. split; [reflexivity |].
    rewrite dict_update_free by exact Hd. rewrite Hcam.
    unfold camera_record. by rewrite lookup_insert_eq.
  - intros o st file st1 Hty Hmesh. split.
    + intros Hm.
      rewrite (add_object_without_material sc o st file st1 Hty Hmesh Hm). simpl.
      split; [reflexivity |]. eexists. unfold last_primitive. simpl.
      split; [apply last_snoc |].
      rewrite lookup_insert_ne by discriminate. apply Hobject.
    + intros m frag st2 Hm Hmat Hfrag.
      rewrite (add_object_with_material sc o m st file st1 frag st2 Hty Hmesh Hm Hmat).
      simpl. split; [reflexivity |]. eexists. unfold last_primitive. simpl.
      split; [apply last_snoc |].
      rewrite dict_update_free by exact Hfrag. apply Hobject.
Qed.

Lemma serialized_transforms_witness :
  let d : dict := <["type" := JStr "pinhole"]> ∅ in
  let frag : dict := <["bsdf" := JStr "red"]> ∅ in
  let st1 := snd (add_mesh Example.stage Example.cube None Example.fresh) in
  let two := Q2Qc 2 in
  let three := Q2Qc 3 in
  let five := Q2Qc 5 in
  converters_contract (HC := Example.converters)
  /\ matrix_world Example.eye
     = mkMatrix (mkVector4 1 0 0 two) (mkVector4 0 1 0 three)
                (mkVector4 0 0 1 five) (mkVector4 0 0 0 1)
  /\ matrix_world Example.cube = matrix_world Example.eye
  /\ d !! "transform" = None
  /\ frag !! "transform" = None
  /\ add_material Example.red st1 = (Ok frag, snd (add_material Example.red st1))
  /\ camera (scene (fst (snd (add_camera Example.stage Example.eye Example.fresh))))
       !! "transform"
     = Some (JList [JFloat (-1); JFloat 0; JFloat 0; JFloat two;
                    JFloat 0; JFloat 1; JFloat 0; JFloat three;
                    JFloat 0; JFloat 0; JFloat (-1); JFloat five;
                    JFloat 0; JFloat 0; JFloat 0; JFloat 1])
  /\ (exists dat : dict,
        last_primitive (fst (snd (add_object Example.stage Example.plane Example.fresh)))
          = Some dat
        /\ dat !! "transform"
           = Some (JList [JFloat 1; JFloat 0; JFloat 0; JFloat 0;
                          JFloat 0; JFloat 1; JFloat 0; JFloat 0;
                          JFloat 0; JFloat 0; JFloat 1; JFloat 0;
                          JFloat 0; JFloat 0; JFloat 0; JFloat 1]))
  /\ (exists dat : dict,
        last_primitive (fst (snd (add_object Example.stage Example.cube Example.fresh)))
          = Some dat
        /\ dat !! "transform"
           = Some (JList [JFloat 1; JFloat 0; JFloat 0; JFloat two;
                          JFloat 0; JFloat 1; JFloat 0; JFloat three;
                          JFloat 0; JFloat 0; JFloat 1; JFloat five;
                          JFloat 0; JFloat 0; JFloat 0; JFloat 1])).
Proof.
  intros d frag st1 two three five.
  destruct (serialized_transforms Example.stage) as (Hflip & Hcam & Hobj).
  assert (Hty : forall name t slots,
             object_type (mkObject name "MESH" t slots) ∈ geometry_types)
    by (intros; apply (bool_decide_unpack _); vm_compute; exact I).
  assert (Hmat : add_material Example.red st1
                 = (Ok frag, snd (add_material Example.red st1))) by reflexivity.
  split; [exact example_converters_contract |].
  split; [reflexivity |]. split; [reflexivity |].
  split; [reflexivity |]. split; [reflexivity |]. split; [exact Hmat |]. split.
  - destruct (Hcam Example.eye Example.fresh d _ example_converters_contract
                eq_refl eq_refl) as [_ Hfinal].
    rewrite Hfinal, Hflip. reflexivity.
  - split.
    + destruct (Hobj Example.plane Example.fresh _ _ (Hty _ _ _) eq_refl) as [Hnone _].
      exact (proj2 (Hnone eq_refl)).
    + destruct (Hobj Example.cube Example.fresh _ _ (Hty _ _ _) eq_refl) as [_ Hsome].
      exact (proj2 (Hsome Example.red frag _ eq_refl Hmat eq_refl)).
Defined.

(** ** The default material *)

Lemma init_default_material_first {HH : Host} c sc path w s w' :
  __init__ c sc path w = (Ok s, w') -> default_material_first s.
Proof.
  unfold __init__. unfold bind at 1.
  match goal with
  | |- context [match ?x with (_, _) => _ end] => destruct x as [[d | e] w1]
  end; [| discriminate].
  unfold ret. intros [= <- _]. split; reflexivity.
Qed.

Lemma add_mesh_session {HH : Host} sc o name (st : state) r st1 :
  add_mesh sc o name st = (r, st1) -> fst st1 = fst st.
Proof.
  unfold add_mesh, bind, self, host. simpl.
  destruct (write_object_mesh sc o _ (snd st)) as [[counts | e] w1];
    intros [= _ <-]; reflexivity.
Qed.

(** C2. The first entry of [bsdfs] is the default material, with the fields
    name ['__default_mat'], type ['lambert'] and albedo 0.8: the
    constructor establishes it, and every operation of the session keeps
    it, the converters being assumed to keep to their contract.  An object
    without a material slot, or with an empty slot 0, is appended to
    [primitives] with ['bsdf'] bound to the name of that default
    material. *)
Theorem default_material_always_first {HH : Host} {HC : Converters} :
  (forall c sc path w s w',
      __init__ c sc path w = (Ok s, w') ->
      default_material_first s)
  /\ (converters_contract ->
      forall op (st : state),
        default_material_first (fst st) ->
        default_material_first (fst (snd (perform op st))))
  /\ (forall s, default_material_first s ->
      exists d0 : dict,
        bsdfs (scene s) !! 0%nat = Some d0
        /\ d0 !! "name" = Some (JStr "__default_mat")
        /\ d0 !! "type" = Some (JStr "lambert")
        /\ d0 !! "albedo" = Some (JFloat (Q2Qc (8 # 10))))
  /\ (forall sc o (st : state) file st1,
        default_material_first (fst st) ->
        object_type o ∈ geometry_types ->
        (material_slots o = []
         \/ exists rest, material_slots o = mkMaterialSlot None :: rest) ->
        add_mesh sc o None st = (Ok file, st1) ->
        fst (add_object sc o st) = Ok tt
        /\ default_material_first (fst (snd (add_object sc o st)))
        /\ exists dat : dict,
             last_primitive (fst (snd (add_object sc o st))) = Some dat
             /\ dat !! "bsdf" = Some (JStr "__default_mat")).
Proof.
  split; [intros c sc path w s w'; apply init_default_material_first |].
  split.
  { intros Hcontract op st. apply perform_preserves.
    - exact default_material_first_stable.
    - exact (contract_preserves _ default_material_first_stable Hcontract). }
  split.
  { intros s [Hz _]. exists (default_bsdf "__default_mat").
    split; [exact Hz |]. unfold default_bsdf. repeat split; by simplify_map_eq. }
  intros sc o st file st1 [Hz Hn] Hty Hslots Hmesh.
  assert (Hm : first_material o = None).
  { unfold first_material. destruct Hslots as [-> | [rest ->]]; reflexivity. }
  rewrite (add_object_without_material sc o st file st1 Hty Hmesh Hm). simpl.
  rewrite (add_mesh_session sc o None st _ st1 Hmesh).
  split; [reflexivity |]. split; [split; [exact Hz | exact Hn] |].
  eexists. unfold last_primitive. simpl. split; [apply last_snoc |].
  rewrite Hn. by rewrite lookup_insert_eq.
Qed.

Lemma default_material_always_first_witness :
  let st1 := snd (add_mesh Example.stage Example.plane None Example.fresh) in
  converters_contract (HC := Example.converters)
  /\ default_material_first (fst Example.fresh)
  /\ (object_type Example.plane ∈ geometry_types)
  /\ material_slots Example.plane = []
  /\ add_mesh Example.stage Example.plane None Example.fresh = (Ok "Plane.wo3", st1)
  /\ default_material_first
       (fst (snd (perform (op_add_all Example.stage) Example.fresh)))
  /\ exists dat : dict,
       last_primitive (fst (snd (add_object Example.stage Example.plane Example.fresh)))
         = Some dat
       /\ dat !! "bsdf" = Some (JStr "__default_mat").
Proof.
  intros st1.
  destruct (default_material_always_first
              (HH := Example.host) (HC := Example.converters))
    as (Hinit & Hkeep & _ & Hfallback).
  pose proof example_converters_contract as Hrely.
  assert (Hfresh : default_material_first (fst Example.fresh))
    by exact (Hinit true false None Example.disk _ _ eq_refl).
  assert (Hty : object_type Example.plane ∈ geometry_types)
    by (apply (bool_decide_unpack _); vm_compute; exact I).
  assert (Hmesh : add_mesh Example.stage Example.plane None Example.fresh
                  = (Ok "Plane.wo3", st1)) by reflexivity.
  split; [exact Hrely |]. split; [exact Hfresh |]. split; [exact Hty |].
  split; [reflexivity |]. split; [exact Hmesh |].
  split; [exact (Hkeep Hrely (op_add_all Example.stage) Example.fresh Hfresh) |].
  exact (proj2 (proj2 (Hfallback Example.stage Example.plane Example.fresh
                         "Plane.wo3" st1 Hfresh Hty (or_introl eq_refl) Hmesh))).
Defined.

(** ** The identity caches: at most once, and failures *)

(** C1. A material is converted, and its record appended to [bsdfs], at
    most once per session and per name.  A name that is cached is answered
    from the cache and nothing changes, in the session or in the host (no
    append, no conversion).  The first call for a name runs the converter,
    appends the full record if the converter returned one, and binds the
    name to the reference fragment; after it, whatever operations follow,
    every call for that name is answered from the cache (the converters
    being assumed to keep to their contract).  The image cache answers a
    cached name in the same way: nothing is written. *)
Theorem material_converted_at_most_once {HH : Host} {HC : Converters} :
  (forall m (st : state) frag,
      mats (fst st) !! material_name m = Some frag ->
      add_material m st = (Ok frag, st))
  /\ (forall m (st : state) obj mat st1,
        mats (fst st) !! material_name m = None ->
        W_PT_material_to_scene_data m st = (Ok (obj, mat), st1) ->
        let st2 : state :=
          (set_mats (<[material_name m := obj]>)
             (set_scene (set_bsdfs (fun l => l ++ full_record mat)) (fst st1)),
           snd st1) in
        add_material m st = (Ok obj, st2)
        /\ bsdfs (scene (fst st2)) = bsdfs (scene (fst st1)) ++ full_record mat
        /\ mats (fst st2) !! material_name m = Some obj
        /\ (converters_contract ->
            forall st3 m',
              reachable st2 st3 ->
              material_name m' = material_name m ->
              add_material m' st3 = (Ok obj, st3)))
  /\ (forall im (st : state) p,
        images (fst st) !! image_name im = Some p ->
        add_image im st = (Ok p, st)).
Proof.
  split; [exact add_material_cached |]. split; [| exact add_image_cached].
  intros m st obj mat st1 Hfree Hconv st2.
  split; [exact (add_material_converted m st obj mat st1 Hfree Hconv) |].
  split; [reflexivity |].
  assert (Hbound : cached_material (material_name m) obj (fst st2))
    by (unfold cached_material; simpl; apply lookup_insert_eq).
  split; [exact Hbound |].
  intros Hcontract st3 m' Hreach Hname.
  apply add_material_cached. rewrite Hname.
  exact (reachable_preserves _ (cached_material_stable _ _)
           (contract_preserves _ (cached_material_stable _ _) Hcontract)
           st2 st3 Hreach Hbound).
Qed.

Lemma material_converted_at_most_once_witness :
  let frag : dict := <["bsdf" := JStr "red"]> ∅ in
  let record : dict := <["name" := JStr "red"]> (<["type" := JStr "lambert"]> ∅) in
  let st2 := snd (add_material Example.red Example.fresh) in
  let st3 := snd (perform (op_add_all Example.stage) st2) in
  let st4 := snd (add_image Example.texture Example.fresh) in
  mats (fst Example.fresh) !! "red" = None
  /\ W_PT_material_to_scene_data Example.red Example.fresh
     = (Ok (frag, Some record), Example.fresh)
  /\ converters_contract (HC := Example.converters)
  /\ reachable st2 st3
  /\ images (fst st4) !! "wood" = Some "wood.png"
  /\ add_material Example.red Example.fresh = (Ok frag, st2)
  /\ bsdfs (scene (fst st2)) = bsdfs (scene (fst Example.fresh)) ++ [record]
  /\ add_material (mkMaterial "red" 7) st3 = (Ok frag, st3)
  /\ add_image Example.texture st4 = (Ok "wood.png", st4).
Proof.
  intros frag record st2 st3 st4.
  destruct (material_converted_at_most_once
              (HH := Example.host) (HC := Example.converters))
    as (_ & Hfirst & Himage).
  assert (Hfree : mats (fst Example.fresh) !! "red" = None) by reflexivity.
  assert (Hconv : W_PT_material_to_scene_data Example.red Example.fresh
                  = (Ok (frag, Some record), Example.fresh)) by reflexivity.
  pose proof example_converters_contract as Hrely.
  assert (Hreach : reachable st2 st3)
    by exact (reachable_step st2 (op_add_all Example.stage) st3
                (reachable_refl st3)).
  assert (Hwood : images (fst st4) !! "wood" = Some "wood.png") by reflexivity.
  destruct (Hfirst Example.red Example.fresh frag (Some record) Example.fresh
              Hfree Hconv) as (Hrun & Hbsdfs & _ & Hlater).
  split; [exact Hfree |]. split; [exact Hconv |]. split; [exact Hrely |].
  split; [exact Hreach |]. split; [exact Hwood |].
  split; [exact Hrun |]. split; [exact Hbsdfs |].
  split.
  - refine (Hlater Hrely st3 (mkMaterial "red" 7) _ eq_refl). exact Hreach.
  - exact (Himage Example.texture st4 "wood.png" Hwood).
Defined.

(** C9. A conversion that fails is not recorded.  When the material
    converter raises, [add_material] raises with the session exactly as the
    converter left it: the cache has no entry for the name (the converters
    being assumed to keep to their contract), and a later call for the
    name runs the converter again and follows its outcome.  When
    [add_image] raises, which only the save of the image can cause, the
    session is unchanged, the cache has no entry for the name, and a later
    call resolves the image anew. *)
Theorem failed_conversion_is_not_cached {HH : Host} {HC : Converters} :
  (forall m (st : state) e st1,
      converters_contract ->
      mats (fst st) !! material_name m = None ->
      W_PT_material_to_scene_data m st = (Raise e, st1) ->
      add_material m st = (Raise e, st1)
      /\ mats (fst (snd (add_material m st))) !! material_name m = None
      /\ (forall e' st2,
            W_PT_material_to_scene_data m st1 = (Raise e', st2) ->
            add_material m st1 = (Raise e', st2))
      /\ (forall obj mat st2,
            W_PT_material_to_scene_data m st1 = (Ok (obj, mat), st2) ->
            fst (add_material m st1) = Ok obj
            /\ mats (fst (snd (add_material m st1))) !! material_name m
               = Some obj))
  /\ (forall im s w e st1,
        images s !! image_name im = None ->
        add_image im (s, w) = (Raise e, st1) ->
        (exists dest fmt,
            image_policy s im w = Materialize dest fmt
            /\ _save_image_as s im dest fmt w = (Raise e, snd st1))
        /\ fst st1 = s
        /\ images (fst st1) !! image_name im = None
        /\ add_image im st1 = image_outcome s im (snd st1)).
Proof.
  split.
  - intros m st e st1 Hcontract Hfree Hconv.
    assert (Hfree1 : mats (fst st1) !! material_name m = None).
    { destruct (changes_image_cache_only_run _ _ _ _
                  (material_contract Hcontract m) Hconv) as [cache ->].
      exact Hfree. }
    rewrite (add_material_failed m st e st1 Hfree Hconv). simpl.
    split; [reflexivity |]. split; [exact Hfree1 |]. split.
    + intros e' st2. apply add_material_failed. exact Hfree1.
    + intros obj mat st2 Hconv1.
      rewrite (add_material_converted m st1 obj mat st2 Hfree1 Hconv1). simpl.
      split; [reflexivity | apply lookup_insert_eq].
  - intros im s w e st1 Hfree.
    rewrite (add_image_uncached im s w Hfree). unfold image_outcome.
    destruct (image_policy s im w) as [p | dest fmt]; [discriminate |].
    destruct (_save_image_as s im dest fmt w) as [[[] | e0] w1] eqn:Hsave;
      [discriminate |].
    intros [= <- <-]. simpl.
    split; [exists dest, fmt; split; [reflexivity | exact Hsave] |].
    split; [reflexivity |]. split; [exact Hfree |].
    exact (add_image_uncached im s w1 Hfree).
Qed.

Lemma failed_conversion_is_not_cached_witness :
  let bad : Image := mkImage "broken" "TIFF" "//broken.tif" None "FILE" in
  let s := fst Example.fresh in
  let w := snd Example.fresh in
  converters_contract (HC := Example.converters)
  /\ mats s !! "broken" = None
  /\ W_PT_material_to_scene_data Example.broken Example.fresh
     = (Raise "RuntimeError", Example.fresh)
  /\ images s !! "broken" = None
  /\ add_image bad (s, w) = (Raise "RuntimeError", (s, w))
  /\ add_material Example.broken Example.fresh = (Raise "RuntimeError", Example.fresh)
  /\ mats (fst (snd (add_material Example.broken Example.fresh))) !! "broken" = None
  /\ images (fst (snd (add_image bad (s, w)))) !! "broken" = None
  /\ add_image bad (s, w) = image_outcome s bad w.
Proof.
  intros bad s w.
  destruct (failed_conversion_is_not_cached
              (HH := Example.host) (HC := Example.converters))
    as [Hmaterial Himage].
  assert (Hfree : mats s !! "broken" = None) by reflexivity.
  assert (Hconv : W_PT_material_to_scene_data Example.broken Example.fresh
                  = (Raise "RuntimeError", Example.fresh)) by reflexivity.
  assert (Hifree : images s !! "broken" = None) by reflexivity.
  assert (Hsave : add_image bad (s, w) = (Raise "RuntimeError", (s, w)))
    by reflexivity.
  destruct (Hmaterial Example.broken Example.fresh _ _
              example_converters_contract Hfree Hconv)
    as (Hrun & Hnone & _).
  destruct (Himage bad s w _ _ Hifree Hsave) as (_ & _ & Hinone & Hretry).
  split; [exact example_converters_contract |].
  split; [exact Hfree |]. split; [exact Hconv |]. split; [exact Hifree |].
  split; [exact Hsave |]. split; [exact Hrun |]. split; [exact Hnone |].
  split; [exact Hinone | exact Hretry].
Defined.

(** ** Image resolution *)

(** C4. An image that is not cached yet is resolved in this order.  If its
    file format is one of BMP, PNG, JPEG, TARGA, TARGA_RAW and HDR, its
    source path exists and the session is not self-contained, the result
    is the source path relative to the working directory, or the source
    path itself when it cannot be made relative, and no file is written.
    Otherwise a file is written into the working directory and its name is
    the result: [<name><extension of the format>] in the format of the
    image when the format is one of the six, [<name>.png] converted to PNG
    when it is not.  The extensions are [.bmp] for BMP, [.png] for PNG,
    [.jpg] for JPEG, [.tga] for TARGA and for TARGA_RAW, [.hdr] for HDR. *)
Theorem image_resolution_policy {HH : Host} (im : Image) (s : TungstenScene)
    (w : env) :
  images s !! image_name im = None ->
  let src := bpy_path_abspath (image_filepath im) (image_library im) w in
  let written (dest : string) (save : M env unit) : result string * state :=
    match save w with
    | (Ok _, w') => (Ok dest, (set_images (<[image_name im := dest]>) s, w'))
    | (Raise e, w') => (Raise e, (s, w'))
    end in
  dom IMAGE_FORMATS = {["BMP"; "PNG"; "JPEG"; "TARGA"; "TARGA_RAW"; "HDR"]}
  /\ (forall fmt ext,
        IMAGE_FORMATS !! fmt = Some ext <->
        (fmt, ext) ∈ [("BMP", ".bmp"); ("PNG", ".png"); ("JPEG", ".jpg");
                      ("TARGA", ".tga"); ("TARGA_RAW", ".tga"); ("HDR", ".hdr")])
  /\ (forall ext,
        IMAGE_FORMATS !! image_file_format im = Some ext ->
        os_path_exists src w = true ->
        self_contained s = false ->
        let p := match os_path_relpath src (dir s) w with
                 | Some rel => rel
                 | None => src
                 end in
        add_image im (s, w) = (Ok p, (set_images (<[image_name im := p]>) s, w)))
  /\ (forall ext,
        IMAGE_FORMATS !! image_file_format im = Some ext ->
        os_path_exists src w = false \/ self_contained s = true ->
        let dest := image_name im +:+ ext in
        add_image im (s, w) =
        written dest
          (if bool_decide (image_source im = "FILE")
           then image_save im (os_path_join (dir s) dest)
           else image_save_render im (os_path_join (dir s) dest)
                                     (image_file_format im)))
  /\ (IMAGE_FORMATS !! image_file_format im = None ->
      let dest := image_name im +:+ ".png" in
      add_image im (s, w) =
      written dest (image_save_render im (os_path_join (dir s) dest) "PNG")).
Proof.
  intros Hfree src written.
  split; [apply (bool_decide_unpack _); vm_compute; exact I |].
  split.
  { intros fmt ext. unfold IMAGE_FORMATS. split.
    - repeat (rewrite lookup_insert; case_decide;
              [intros [= <-]; subst fmt;
               repeat (first [apply list_elem_of_here | apply list_elem_of_further])
              |]).
      rewrite lookup_empty. discriminate.
    - intros Hin.
      repeat (apply elem_of_cons in Hin as [[= -> ->] | Hin]; [reflexivity |]).
      by apply elem_of_nil in Hin. }
  rewrite (add_image_uncached im s w Hfree).
  unfold image_outcome, image_policy, source_path. fold src.
  split; [| split].
  - intros ext -> -> ->. simpl. reflexivity.
  - intros ext -> Hno.
    assert (Hcond : os_path_exists src w && negb (self_contained s) = false).
    { destruct Hno as [-> | ->]; [reflexivity | apply andb_false_r]. }
    rewrite Hcond. unfold written, _save_image_as, path.
    rewrite (bool_decide_eq_true_2 (image_file_format im = image_file_format im))
      by reflexivity.
    rewrite andb_true_r. reflexivity.
  - intros Hnone. rewrite Hnone. unfold written, _save_image_as, path.
    assert (Hpng : bool_decide (image_file_format im = "PNG") = false).
    { apply bool_decide_eq_false_2. intros Heq.
      rewrite Heq in Hnone. discriminate Hnone. }
    rewrite Hpng, andb_false_r. reflexivity.
Qed.

Lemma image_resolution_policy_witness :
  let s := fst Example.fresh in
  let w := snd Example.fresh in
  let on_disk := mkImage "oak" "PNG" "/tex/wood.png" None "FILE" in
  let generated := mkImage "noise" "JPEG" "" None "GENERATED" in
  let packed := mkImage "sky" "TARGA_RAW" "//sky.tga" None "FILE" in
  images s !! "oak" = None
  /\ images s !! "noise" = None
  /\ images s !! "sky" = None
  /\ images s !! "wood" = None
  /\ IMAGE_FORMATS !! "PNG" = Some ".png"
  /\ IMAGE_FORMATS !! "JPEG" = Some ".jpg"
  /\ IMAGE_FORMATS !! "TARGA_RAW" = Some ".tga"
  /\ IMAGE_FORMATS !! "TIFF" = None
  /\ os_path_exists "/tex/wood.png" w = true
  /\ os_path_exists "" w = false
  /\ os_path_exists "//sky.tga" w = false
  /\ self_contained s = false
  /\ add_image on_disk (s, w)
     = (Ok "../../tex/wood.png",
        (set_images (<["oak" := "../../tex/wood.png"]>) s, w))
  /\ add_image generated (s, w)
     = (Ok "noise.jpg",
        (set_images (<["noise" := "noise.jpg"]>) s,
         <["/tmp/tmpw/noise.jpg" := "image JPEG"]> w))
  /\ add_image packed (s, w)
     = (Ok "sky.tga",
        (set_images (<["sky" := "sky.tga"]>) s,
         <["/tmp/tmpw/sky.tga" := "image TARGA_RAW"]> w))
  /\ add_image Example.texture (s, w)
     = (Ok "wood.png",
        (set_images (<["wood" := "wood.png"]>) s,
         <["/tmp/tmpw/wood.png" := "image PNG"]> w)).
Proof.
  intros s w on_disk generated packed.
  assert (H1 : images s !! "oak" = None) by reflexivity.
  assert (H2 : images s !! "noise" = None) by reflexivity.
  assert (H3 : images s !! "sky" = None) by reflexivity.
  assert (H4 : images s !! "wood" = None) by reflexivity.
  assert (Htiff : IMAGE_FORMATS !! "TIFF" = None) by reflexivity.
  assert (Hthere : os_path_exists "/tex/wood.png" w = true) by reflexivity.
  assert (Hnot : os_path_exists "" w = false) by reflexivity.
  assert (Hgone : os_path_exists "//sky.tga" w = false) by reflexivity.
  assert (Hsc : self_contained s = false) by reflexivity.
  destruct (image_resolution_policy on_disk s w H1) as (_ & Htable & Href & _ & _).
  destruct (image_resolution_policy generated s w H2) as (_ & _ & _ & Hnative & _).
  destruct (image_resolution_policy packed s w H3) as (_ & _ & _ & Hpacked & _).
  destruct (image_resolution_policy Example.texture s w H4)
    as (_ & _ & _ & _ & Hconv).
  assert (Hpng : IMAGE_FORMATS !! "PNG" = Some ".png").
  { apply Htable. apply list_elem_of_further, list_elem_of_here. }
  assert (Hjpeg : IMAGE_FORMATS !! "JPEG" = Some ".jpg").
  { apply Htable. do 2 apply list_elem_of_further. apply list_elem_of_here. }
  assert (Htga : IMAGE_FORMATS !! "TARGA_RAW" = Some ".tga").
  { apply Htable. do 4 apply list_elem_of_further. apply list_elem_of_here. }
  split; [exact H1 |]. split; [exact H2 |]. split; [exact H3 |].
  split; [exact H4 |]. split; [exact Hpng |]. split; [exact Hjpeg |].
  split; [exact Htga |]. split; [exact Htiff |]. split; [exact Hthere |].
  split; [exact Hnot |]. split; [exact Hgone |]. split; [exact Hsc |].
  split; [exact (Href ".png" Hpng Hthere Hsc) |].
  split; [exact (Hnative ".jpg" Hjpeg (or_introl Hnot)) |].
  split; [exact (Hpacked ".tga" Htga (or_introl Hgone)) |].
  exact (Hconv Htiff).
Defined.

(** ** Teardown *)

Lemma owns_directory_stable c d : stable_under_writes (owns_directory c d).
Proof.
  split; try (intros s f Hs; exact Hs).
  intros s s' k obj _ _ Hs'. exact Hs'.
Qed.

Lemma init_owns_directory {HH : Host} c sc path w s w1 :
  __init__ c sc path w = (Ok s, w1) ->
  clean_on_del s = c
  /\ match path with
     | Some p => dir s = p
     | None => tempfile_mkdtemp "w" w = (Ok (dir s), w1)
     end.
Proof.
  unfold __init__, bind, query, ret.
  destruct path as [p |].
  - destruct (os_path_exists p w); simpl.
    + intros [= <- _]. split; reflexivity.
    + destruct (os_mkdir p w) as [[[] | e] w2]; simpl; [| discriminate].
      intros [= <- _]. split; reflexivity.
  - destruct (tempfile_mkdtemp "w" w) as [[d | e] w2]; simpl; [| discriminate].
    intros [= <- <-]. split; reflexivity.
Qed.

(** C5, the claim as stated fails in both directions: a session over a
    directory supplied by the caller, constructed with the default
    [clean_on_del], removes that directory on teardown; a session over a
    temporary directory, constructed with [clean_on_del=False], leaves it
    in place. *)
Lemma teardown_ignores_who_supplied_the_directory :
  (exists s w1,
      __init__ clean_on_del_default self_contained_default
        (Some "/out") Example.disk = (Ok s, w1)
      /\ dir s = "/out"
      /\ os_path_isdir "/out" w1 = true
      /\ os_path_exists "/out" (snd (__del__ s w1)) = false)
  /\ (exists s w1,
        __init__ false self_contained_default None Example.disk
          = (Ok s, w1)
        /\ dir s = "/tmp/tmpw"
        /\ os_path_isdir "/tmp/tmpw" w1 = true
        /\ __del__ s w1 = (Ok tt, w1)).
Proof.
  split; eexists _, _; (split; [reflexivity |]); repeat split; reflexivity.
Qed.

(** C5, amended.  On teardown, that is when [__del__] runs, the working
    directory is removed, by one call of [shutil.rmtree] on it, if and only
    if the [clean_on_del] attribute of the session is true; otherwise
    nothing changes.  The attribute is the parameter of the constructor
    (true by default), whether the directory was supplied by the caller or
    allocated as a temporary one, and no method of the session changes it
    or the directory (the converters being assumed to keep to their
    contract). *)
Theorem teardown_follows_clean_on_del {HH : Host} {HC : Converters} :
  (forall c sc path w s w1,
      __init__ c sc path w = (Ok s, w1) ->
      clean_on_del s = c
      /\ match path with
         | Some p => dir s = p
         | None => tempfile_mkdtemp "w" w = (Ok (dir s), w1)
         end)
  /\ (forall s w,
        __del__ s w =
        if clean_on_del s then shutil_rmtree (dir s) w else (Ok tt, w))
  /\ (converters_contract ->
      forall c sf path w s w1 (st' : state),
        __init__ c sf path w = (Ok s, w1) ->
        reachable (s, w1) st' ->
        __del__ (fst st') (snd st') =
        if c then shutil_rmtree (dir s) (snd st') else (Ok tt, snd st')).
Proof.
  split; [exact init_owns_directory |].
  split; [intros s w; unfold __del__; destruct (clean_on_del s); reflexivity |].
  intros Hcontract c sf path w s w1 st' Hinit Hreach.
  pose proof (owns_directory_stable c (dir s)) as Hst.
  assert (Hown : owns_directory c (dir s) (fst st')).
  { apply (reachable_preserves _ Hst (contract_preserves _ Hst Hcontract)
             (s, w1) st' Hreach).
    split; [exact (proj1 (init_owns_directory _ _ _ _ _ _ Hinit)) | reflexivity]. }
  destruct Hown as [Hc Hd]. unfold __del__. rewrite Hc, Hd.
  destruct c; reflexivity.
Qed.

Lemma teardown_follows_clean_on_del_witness :
  let temporary := Example.fresh in
  let kept := Example.persistent in
  let after (st : state) :=
    snd (perform op_save (snd (perform (op_add_all Example.stage) st))) in
  converters_contract (HC := Example.converters)
  /\ __init__ true false None Example.disk = (Ok (fst temporary), snd temporary)
  /\ __init__ false false (Some "/out") Example.disk = (Ok (fst kept), snd kept)
  /\ reachable temporary (after temporary)
  /\ reachable kept (after kept)
  /\ __del__ (fst (after temporary)) (snd (after temporary))
     = shutil_rmtree "/tmp/tmpw" (snd (after temporary))
  /\ os_path_isfile "/tmp/tmpw/scene.json" (snd (after temporary)) = true
  /\ os_path_exists "/tmp/tmpw/scene.json"
       (snd (__del__ (fst (after temporary)) (snd (after temporary)))) = false
  /\ os_path_exists "/tmp/tmpw"
       (snd (__del__ (fst (after temporary)) (snd (after temporary)))) = false
  /\ __del__ (fst (after kept)) (snd (after kept)) = (Ok tt, snd (after kept))
  /\ os_path_isfile "/out/scene.json" (snd (after kept)) = true.
Proof.
  intros temporary kept after.
  destruct (teardown_follows_clean_on_del
              (HH := Example.host) (HC := Example.converters))
    as (_ & _ & Hlater).
  pose proof example_converters_contract as Hrely.
  assert (Htemp : __init__ true false None Example.disk
                  = (Ok (fst temporary), snd temporary)) by reflexivity.
  assert (Hkept : __init__ false false (Some "/out") Example.disk
                  = (Ok (fst kept), snd kept)) by reflexivity.
  assert (Hreach : forall st : state, reachable st (after st)).
  { intros st. apply (reachable_step _ (op_add_all Example.stage)).
    apply (reachable_step _ op_save). apply reachable_refl. }
  split; [exact Hrely |]. split; [exact Htemp |]. split; [exact Hkept |].
  split; [exact (Hreach temporary) |]. split; [exact (Hreach kept) |].
  split; [exact (Hlater Hrely true false None Example.disk _ _ _ Htemp
                   (Hreach temporary)) |].
  split; [vm_compute; reflexivity |].
  split; [vm_compute; reflexivity |].
  split; [vm_compute; reflexivity |].
  split; [exact (Hlater Hrely false false (Some "/out") Example.disk _ _ _ Hkept
                   (Hreach kept)) |].
  vm_compute. reflexivity.
Defined.

(** ** The export operator *)

Lemma execute_conflict {HH : Host} {HC : Converters} op sc w msg :
  path_conflict op w = Some msg ->
  execute op sc w = (Ok (mkOutcome "CANCELLED" [("WARNING", msg)]), w).
Proof.
  intros Hc. unfold execute. unfold bind at 1. unfold query at 1.
  rewrite Hc. reflexivity.
Qed.

(** C7. When the target exists and is of the wrong kind, a directory for an
    archive export or a file for a directory export, [execute] reports a
    warning and returns CANCELLED before anything else happens: the host is
    left exactly as it was, so no session and no file was created or
    changed.  The same holds whenever the target exists and fails the test
    of the requested mode (not a file, respectively not a directory). *)
Theorem conflicting_target_is_rejected {HH : Host} {HC : Converters}
    (op : W_OT_export) (sc : Scene) (w : env) :
  (zip op = true /\ os_path_isdir (filepath op) w = true
   \/ zip op = false /\ os_path_isfile (filepath op) w = true
   \/ os_path_exists (filepath op) w = true
      /\ (zip op = true /\ os_path_isfile (filepath op) w = false
          \/ zip op = false /\ os_path_isdir (filepath op) w = false)) ->
  execute op sc w =
  (Ok (mkOutcome "CANCELLED"
         [("WARNING",
           if zip op then "Please select a file, not a directory."
           else "Please select a directory, not a file.")]),
   w).
Proof.
  intros Hwrong. apply execute_conflict. unfold path_conflict.
  assert (Hcode : os_path_exists (filepath op) w = true
                  /\ (zip op = true /\ os_path_isfile (filepath op) w = false
                      \/ zip op = false /\ os_path_isdir (filepath op) w = false)).
  { destruct Hwrong as [[Hz Hd] | [[Hz Hf] | Hcode]]; [| | exact Hcode].
    - split; [apply os_path_isdir_exists; exact Hd |].
      left. split; [exact Hz | apply os_path_isdir_not_isfile; exact Hd].
    - split; [apply os_path_isfile_exists; exact Hf |].
      right. split; [exact Hz |].
      destruct (os_path_isdir (filepath op) w) eqn:Hd; [| reflexivity].
      rewrite (os_path_isdir_not_isfile _ _ Hd) in Hf. discriminate Hf. }
  destruct Hcode as [-> [[-> ->] | [-> ->]]]; reflexivity.
Qed.

Lemma conflicting_target_is_rejected_witness :
  let archive_to_directory := mkExport "/out" true true true in
  let directory_to_file := mkExport "/tex/wood.png" true false true in
  os_path_isdir "/out" Example.disk = true
  /\ os_path_isfile "/tex/wood.png" Example.disk = true
  /\ execute archive_to_directory Example.stage Example.disk
     = (Ok (mkOutcome "CANCELLED"
              [("WARNING", "Please select a file, not a directory.")]),
        Example.disk)
  /\ execute directory_to_file Example.stage Example.disk
     = (Ok (mkOutcome "CANCELLED"
              [("WARNING", "Please select a directory, not a file.")]),
        Example.disk).
Proof.
  intros archive_to_directory directory_to_file.
  assert (Hdir : os_path_isdir "/out" Example.disk = true) by reflexivity.
  assert (Hfile : os_path_isfile "/tex/wood.png" Example.disk = true)
    by reflexivity.
  split; [exact Hdir |]. split; [exact Hfile |]. split.
  - exact (conflicting_target_is_rejected archive_to_directory Example.stage
             Example.disk (or_introl (conj eq_refl Hdir))).
  - exact (conflicting_target_is_rejected directory_to_file Example.stage
             Example.disk (or_intror (or_introl (conj eq_refl Hfile)))).
Defined.

(** ** Populating the document *)

Lemma init_seeds_renderer {HH : Host} c sc path w s w1 :
  __init__ c sc path w = (Ok s, w1) ->
  renderer (scene s) = renderer_defaults.
Proof.
  unfold __init__. unfold bind at 1.
  match goal with
  | |- context [match ?x with (_, _) => _ end] => destruct x as [[d | e] w2]
  end; [| discriminate].
  unfold ret. intros [= <- _]. reflexivity.
Qed.

(** * Further properties of the session *)

(** ** Runs *)

Lemma run_ok {S A} (x : result A * S) a : fst x = Ok a -> x = (Ok a, snd x).
Proof. destruct x as [r s]. simpl. intros ->. reflexivity. Qed.

Lemma run_raise {S A} (x : result A * S) e :
  fst x = Raise e -> x = (Raise e, snd x).
Proof. destruct x as [r s]. simpl. intros ->. reflexivity. Qed.

(** ** Loops *)

Lemma for_each_app {S A} (xs ys : list A) (body : A -> M S unit) s :
  for_each (xs ++ ys) body s = (for_each xs body ;;; for_each ys body) s.
Proof.
  revert s. induction xs as [| x xs IH]; intros s; simpl; [reflexivity |].
  unfold bind. destruct (body x s) as [[[] | e] s1]; [| reflexivity].
  rewrite IH. reflexivity.
Qed.

(** ** The session only grows *)

Lemma keeps_identity_refl s : keeps_identity s s.
Proof. split; reflexivity. Qed.

Lemma keeps_identity_trans s1 s2 s3 :
  keeps_identity s1 s2 -> keeps_identity s2 s3 -> keeps_identity s1 s3.
Proof.
  intros [Hd Hc Hs Hf Hm Hb Hc1] [Hd' Hc' Hs' Hf' Hm' Hb' Hc1'].
  split; try congruence; etrans; eassumption.
Qed.

Lemma extends_refl s : extends s s.
Proof. split; try reflexivity. apply keeps_identity_refl. Qed.

Lemma extends_trans s1 s2 s3 : extends s1 s2 -> extends s2 s3 -> extends s1 s3.
Proof.
  intros [Hi Hm Hc Hg Hr Hp] [Hi' Hm' Hc' Hg' Hr' Hp'].
  split; try congruence.
  - eapply keeps_identity_trans; eassumption.
  - etrans; eassumption.
Qed.

Lemma set_images_extends s f : extends s (set_images f s).
Proof. split; try reflexivity. split; reflexivity. Qed.

Lemma append_primitive_extends s p :
  extends s (set_scene (set_primitives (fun l => l ++ [p])) s).
Proof.
  split; try reflexivity; [split; reflexivity |].
  simpl. by apply prefix_app_r.
Qed.

Section Advancing.
Context {HH : Host} {HC : Converters}.
Variable R : TungstenScene -> TungstenScene -> Prop.
Hypothesis R_refl : forall s, R s s.
Hypothesis R_trans : forall s1 s2 s3, R s1 s2 -> R s2 s3 -> R s1 s3.

Lemma advances_ret {A} (a : A) : advances R (ret a).
Proof. intros st. apply R_refl. Qed.

Lemma advances_self : advances R self.
Proof. intros st. apply R_refl. Qed.

Lemma advances_host {A} (m : M env A) : advances R (host m).
Proof. intros st. unfold host. destruct (m (snd st)). apply R_refl. Qed.

Lemma advances_update_self f :
  (forall s, R s (f s)) -> advances R (update_self f).
Proof. intros Hf st. apply Hf. Qed.

Lemma advances_bind {A B} (m : M state A) (k : A -> M state B) :
  advances R m -> (forall a, advances R (k a)) -> advances R (bind m k).
Proof.
  intros Hm Hk st. specialize (Hm st). unfold bind.
  destruct (m st) as [[a | e] st1]; simpl in *; [| exact Hm].
  eapply R_trans; [exact Hm | apply Hk].
Qed.

Lemma advances_for_each {A} (xs : list A) (body : A -> M state unit) :
  (forall x, advances R (body x)) -> advances R (for_each xs body).
Proof.
  intros Hbody. induction xs as [| x xs IH]; simpl.
  - apply advances_ret.
  - apply advances_bind; [apply Hbody | intros _; exact IH].
Qed.
End Advancing.

Section Growing.
Context {HH : Host} {HC : Converters}.

Lemma changes_image_cache_only_extends {A} (m : M state A) :
  changes_image_cache_only m -> advances extends m.
Proof. intros Hm st. destruct (Hm st) as [cache ->]. apply set_images_extends. Qed.

Lemma add_image_extends im : advances extends (add_image im).
Proof.
  apply changes_image_cache_only_extends, add_image_changes_image_cache_only.
Qed.

Lemma add_mesh_extends sc o name : advances extends (add_mesh sc o name).
Proof.
  intros st. destruct (add_mesh sc o name st) as [r st1] eqn:Hrun.
  simpl. rewrite (add_mesh_session sc o name st r st1 Hrun). apply extends_refl.
Qed.

Hypothesis contract : converters_contract.

Lemma add_material_extends m : advances extends (add_material m).
Proof.
  intros st. unfold add_material. unfold bind at 1. unfold self at 1.
  destruct (mats (fst st) !! material_name m) eqn:Hfree; [apply extends_refl |].
  unfold bind at 1.
  destruct (W_PT_material_to_scene_data m st) as [r st1] eqn:Hconv.
  destruct (changes_image_cache_only_run _ _ _ _
              (material_contract contract m) Hconv) as [cache Hst1].
  destruct r as [[obj mat] | e];
    [| simpl; rewrite Hst1; apply set_images_extends].
  assert (Hgrow : forall rec,
             extends (fst st)
               (set_mats (<[material_name m := obj]>)
                  (set_scene (set_bsdfs (fun l => l ++ rec)) (fst st1)))).
  { intros rec. rewrite Hst1. split; try reflexivity.
    split; try reflexivity; simpl.
    - by apply prefix_app_r.
    - by apply insert_subseteq. }
  simpl. destruct mat as [d |]; simpl; [destruct (negb (size d =? 0)%nat) |];
    unfold bind, update_self, ret; simpl.
  - apply (Hgrow [d]).
  - specialize (Hgrow []). destruct st1 as [[? ? ? [] ? ? ? ?] ?].
    simpl in *. unfold set_scene, set_bsdfs in Hgrow. simpl in Hgrow.
    rewrite app_nil_r in Hgrow. exact Hgrow.
  - specialize (Hgrow []). destruct st1 as [[? ? ? [] ? ? ? ?] ?].
    simpl in *. unfold set_scene, set_bsdfs in Hgrow. simpl in Hgrow.
    rewrite app_nil_r in Hgrow. exact Hgrow.
Qed.

Lemma add_world_extends w : advances extends (add_world w).
Proof.
  unfold add_world. apply advances_bind; [exact extends_trans | |].
  - apply changes_image_cache_only_extends, (world_contract contract).
  - intros p. apply advances_update_self. intros s. apply append_primitive_extends.
Qed.

Lemma add_object_extends sc o : advances extends (add_object sc o).
Proof.
  unfold add_object.
  destruct (negb (bool_decide (object_type o ∈ geometry_types)));
    [apply advances_ret, extends_refl |].
  apply advances_bind; [exact extends_trans | apply add_mesh_extends |].
  intros file. apply advances_bind; [exact extends_trans | |].
  - destruct (first_material o) as [m |].
    + apply advances_bind; [exact extends_trans | apply add_material_extends |].
      intros obj. apply advances_ret, extends_refl.
    + apply advances_bind; [exact extends_trans | apply advances_self, extends_refl |].
      intros s. apply advances_ret, extends_refl.
  - intros dat. apply advances_update_self. intros s.
    apply append_primitive_extends.
Qed.
End Growing.

(** X1. The methods that export assets and objects ([add_image],
    [add_mesh], [add_material], [add_object], [add_world], and a loop of
    [add_object]) only append: whether they return or raise, the camera,
    integrator and renderer records, [media], the directory and the flags
    of the session are as before, [bsdfs] and [primitives] have their old
    entries in front, and every cached material is still cached (the
    converters being assumed to keep to their contract). *)
Theorem asset_methods_only_append {HH : Host} {HC : Converters} :
  converters_contract ->
  (forall im, advances extends (add_image im))
  /\ (forall sc o name, advances extends (add_mesh sc o name))
  /\ (forall m, advances extends (add_material m))
  /\ (forall w, advances extends (add_world w))
  /\ (forall sc o, advances extends (add_object sc o))
  /\ (forall sc os, advances extends (for_each os (add_object sc))).
Proof.
  intros contract.
  split; [exact add_image_extends |].
  split; [exact add_mesh_extends |].
  split; [exact (add_material_extends contract) |].
  split; [exact (add_world_extends contract) |].
  split; [exact (add_object_extends contract) |].
  intros sc os. apply advances_for_each.
  - exact extends_refl.
  - exact extends_trans.
  - exact (add_object_extends contract sc).
Qed.

Lemma asset_methods_only_append_witness :
  converters_contract (HC := Example.converters)
  /\ extends (fst Example.fresh)
       (fst (snd (for_each [Example.cube; Example.lamp; Example.plane]
                    (add_object Example.stage) Example.fresh)))
  /\ extends (fst Example.fresh)
       (fst (snd (add_material Example.broken Example.fresh))).
Proof.
  pose proof example_converters_contract as contract.
  destruct (asset_methods_only_append
              (HH := Example.host) (HC := Example.converters) contract)
    as (_ & _ & Hmaterial & _ & _ & Hloop).
  split; [exact contract |]. split.
  - exact (Hloop Example.stage [Example.cube; Example.lamp; Example.plane]
             Example.fresh).
  - exact (Hmaterial Example.broken Example.fresh).
Defined.


(** ** Histories only grow the session *)

Lemma grows_refl s : grows s s.
Proof. split; try reflexivity. apply keeps_identity_refl. Qed.

Lemma grows_trans s1 s2 s3 : grows s1 s2 -> grows s2 s3 -> grows s1 s3.
Proof.
  intros [Hi Hm Hp Hg Hr] [Hi' Hm' Hp' Hg' Hr'].
  split; try congruence; try (etrans; eassumption).
  eapply keeps_identity_trans; eassumption.
Qed.

Lemma extends_grows s s' : extends s s' -> grows s s'.
Proof.
  intros [Hi Hm Hc Hg Hr Hp]. split; try assumption.
  - by rewrite Hg.
  - by rewrite Hr.
Qed.

Lemma merged_settings_grow s :
  (forall d, grows s (set_scene (set_renderer (fun r => dict_update r d)) s))
  /\ (forall d, grows s (set_scene (set_integrator (fun i => dict_update i d)) s))
  /\ (forall f, grows s (set_scene (set_camera f) s)).
Proof.
  split; [| split]; intros d; split; try reflexivity;
    try (split; reflexivity); simpl; unfold dict_update;
    rewrite dom_union_L; set_solver.
Qed.

Section GrowingHistories.
Context {HH : Host} {HC : Converters}.
Hypothesis contract : converters_contract.

Lemma advances_weaken {A} (m : M state A) : advances extends m -> advances grows m.
Proof. intros Hm st. apply extends_grows, Hm. Qed.

Lemma converter_grows {A} (m : M state A) :
  changes_image_cache_only m -> advances grows m.
Proof. intros Hm. apply advances_weaken, changes_image_cache_only_extends, Hm. Qed.

Lemma add_camera_grows sc cam : advances grows (add_camera sc cam).
Proof.
  unfold add_camera. apply advances_bind; [exact grows_trans | |].
  - apply advances_update_self. intros s. apply merged_settings_grow.
  - intros _. apply advances_bind; [exact grows_trans | |].
    + apply converter_grows, (camera_contract contract).
    + intros d. apply advances_update_self. intros s. apply merged_settings_grow.
Qed.

Lemma add_all_grows sc : advances grows (add_all sc).
Proof.
  unfold add_all.
  apply advances_bind;
    [exact grows_trans | apply converter_grows, (renderer_contract contract) |].
  intros d1. apply advances_bind; [exact grows_trans | |].
  { apply advances_update_self. intros s. apply merged_settings_grow. }
  intros _. apply advances_bind;
    [exact grows_trans | apply converter_grows, (integrator_contract contract) |].
  intros d2. apply advances_bind; [exact grows_trans | |].
  { apply advances_update_self. intros s. apply merged_settings_grow. }
  intros _. apply advances_bind; [exact grows_trans | |].
  { destruct (scene_world sc) as [world |].
    - apply advances_weaken, (add_world_extends contract).
    - apply advances_ret, grows_refl. }
  intros _. apply advances_bind; [exact grows_trans | apply add_camera_grows |].
  intros _. apply advances_for_each; [exact grows_refl | exact grows_trans |].
  intros o. apply advances_weaken, (add_object_extends contract).
Qed.

Lemma save_run (st : state) :
  save st =
  match json_dump (scenefile (fst st)) (scene (fst st)) (snd st) with
  | (r, w') => (r, (fst st, w'))
  end.
Proof. reflexivity. Qed.

Lemma perform_grows op : advances grows (perform op).
Proof.
  destruct op as [sc | w | sc cam | im | m | sc o name | sc o | | outpath c];
    simpl.
  - apply add_all_grows.
  - apply advances_weaken, (add_world_extends contract).
  - apply add_camera_grows.
  - apply advances_bind;
      [exact grows_trans | apply advances_weaken, add_image_extends |].
    intros _. apply advances_ret, grows_refl.
  - apply advances_bind;
      [exact grows_trans
      | apply advances_weaken, (add_material_extends contract) |].
    intros _. apply advances_ret, grows_refl.
  - apply advances_bind;
      [exact grows_trans | apply advances_weaken, add_mesh_extends |].
    intros _. apply advances_ret, grows_refl.
  - apply advances_weaken, (add_object_extends contract).
  - intros st. rewrite save_run.
    destruct (json_dump _ _ (snd st)). apply grows_refl.
  - apply advances_bind; [exact grows_trans | apply advances_self, grows_refl |].
    intros s. apply advances_host, grows_refl.
Qed.

Lemma reachable_grows (st st' : state) :
  reachable st st' -> grows (fst st) (fst st').
Proof.
  induction 1 as [st | st op st' _ IH]; [apply grows_refl |].
  eapply grows_trans; [apply perform_grows | exact IH].
Qed.
End GrowingHistories.

(** X2. Along every history of a session, whatever the operations and
    whether they return or raise, the session only grows: it keeps its
    directory, its flags, its manifest path and its default material name;
    [bsdfs] and [primitives] keep their entries in front; a cached
    material stays cached under the same fragment; and no key of
    [renderer] or [integrator] is ever unbound (the converters being
    assumed to keep to their contract). *)
Theorem history_only_grows {HH : Host} {HC : Converters} (st st' : state) :
  converters_contract ->
  reachable st st' ->
  grows (fst st) (fst st').
Proof. intros contract. exact (reachable_grows contract st st'). Qed.

Lemma history_only_grows_witness :
  let st1 := snd (perform (op_add_all Example.stage) Example.fresh) in
  let st2 := snd (perform (op_add_material Example.broken) st1) in
  let st3 := snd (perform op_save st2) in
  converters_contract (HC := Example.converters)
  /\ reachable Example.fresh st3
  /\ grows (fst Example.fresh) (fst st3).
Proof.
  intros st1 st2 st3.
  pose proof example_converters_contract as contract.
  assert (Hreach : reachable Example.fresh st3).
  { apply (reachable_step _ (op_add_all Example.stage)).
    apply (reachable_step _ (op_add_material Example.broken)).
    apply (reachable_step _ op_save). apply reachable_refl. }
  split; [exact contract |]. split; [exact Hreach |].
  exact (history_only_grows Example.fresh st3 contract Hreach).
Defined.

(** ** Objects that share a material, and objects that fail *)

Section Sharing.
Context {HH : Host} {HC : Converters}.

Lemma add_mesh_run sc o name (st : state) :
  add_mesh sc o name st =
  let outname := match name with
                 | None => object_name o
                 | Some n => n
                 end +:+ ".wo3" in
  match write_object_mesh sc o (path (fst st) outname) (snd st) with
  | (Ok _, w') => (Ok outname, (fst st, w'))
  | (Raise e, w') => (Raise e, (fst st, w'))
  end.
Proof.
  unfold add_mesh, bind, self, host. simpl.
  destruct (write_object_mesh sc o _ (snd st)) as [[counts | e] w']; reflexivity.
Qed.

Lemma append_primitives_twice s (ps qs : list dict) :
  set_scene (set_primitives (fun l => l ++ qs))
    (set_scene (set_primitives (fun l => l ++ ps)) s)
  = set_scene (set_primitives (fun l => l ++ (ps ++ qs))) s.
Proof.
  destruct s as [? ? ? [] ? ? ? ?]. unfold set_scene, set_primitives. simpl.
  by rewrite app_assoc.
Qed.

Lemma append_no_primitives s :
  set_scene (set_primitives (fun l => l ++ [])) s = s.
Proof.
  destruct s as [? ? ? [] ? ? ? ?]. unfold set_scene, set_primitives. simpl.
  by rewrite app_nil_r.
Qed.

(** An object whose material, if any, is cached: the mesh is written and
    the record appended; nothing is converted. *)
Lemma add_object_cached sc o (st : state) n frag :
  mats (fst st) !! n = Some frag ->
  match first_material o with
  | Some m => material_name m = n
  | None => True
  end ->
  object_type o ∈ geometry_types ->
  add_object sc o st =
  match write_object_mesh sc o
          (path (fst st) (object_name o +:+ ".wo3")) (snd st) with
  | (Ok _, w') =>
      (Ok tt,
       (set_scene (set_primitives (fun l => l ++ [cached_record (fst st) frag o]))
          (fst st), w'))
  | (Raise e, w') => (Raise e, (fst st, w'))
  end.
Proof.
  intros Hhit Huses Hty. unfold add_object.
  rewrite bool_decide_eq_true_2 by exact Hty. simpl.
  unfold bind at 1. rewrite add_mesh_run. simpl.
  destruct (write_object_mesh sc o _ (snd st)) as [[counts | e] w'];
    [| reflexivity].
  unfold cached_record. destruct (first_material o) as [m |].
  - unfold bind at 1. unfold bind at 1.
    rewrite (add_material_cached m (fst st, w') frag)
      by (simpl; rewrite Huses; exact Hhit).
    reflexivity.
  - reflexivity.
Qed.
End Sharing.

(** X3. Once a material name is cached, objects whose material carries
    that name (or that have no material) are exported without any
    conversion, whatever data block the material is: a loop of
    [add_object] over such objects changes nothing of the session but
    [primitives], to which it appends, for the objects with geometry and in
    their order, the object's record merged with the cached fragment (or
    with the default [bsdf]); if the loop raises, the records appended are
    those of the objects before the failure. *)
Theorem shared_material_is_not_converted_again {HH : Host} {HC : Converters}
    sc (os : list Object) (st : state) n frag :
  mats (fst st) !! n = Some frag ->
  Forall (fun o => match first_material o with
                   | Some m => material_name m = n
                   | None => True
                   end) os ->
  let run := for_each os (add_object sc) st in
  let records := map (cached_record (fst st) frag) (geometry_objects os) in
  exists ps,
    fst (snd run) = set_scene (set_primitives (fun l => l ++ ps)) (fst st)
    /\ ps `prefix_of` records
    /\ (fst run = Ok tt -> ps = records).
Proof.
  intros Hhit Hall. revert st Hhit.
  induction Hall as [| o os Ho Hos IH]; intros st Hhit run records.
  - exists []. split; [symmetry; apply append_no_primitives |].
    split; [reflexivity | reflexivity].
  - subst run records. simpl for_each. unfold bind.
    unfold geometry_objects. rewrite filter_cons. fold (geometry_objects os).
    destruct (decide (object_type o ∈ geometry_types)) as [Hty | Hty].
    + rewrite (add_object_cached sc o st n frag Hhit Ho Hty).
      destruct (write_object_mesh sc o _ (snd st)) as [[counts | e] w'].
      * set (s1 := set_scene (set_primitives
                     (fun l => l ++ [cached_record (fst st) frag o])) (fst st)).
        destruct (IH (s1, w') Hhit) as (ps & Hfinal & Hprefix & Hall').
        exists (cached_record (fst st) frag o :: ps). simpl in *.
        split; [rewrite Hfinal; unfold s1; apply append_primitives_twice |].
        split; [by apply prefix_cons | intros Hok; by rewrite Hall'].
      * exists []. simpl.
        split; [symmetry; apply append_no_primitives |].
        split; [apply prefix_nil | discriminate].
    + assert (Hskip : add_object sc o st = (Ok tt, st)).
      { unfold add_object. rewrite bool_decide_eq_false_2 by exact Hty.
        reflexivity. }
      rewrite Hskip. destruct st as [s w]. exact (IH (s, w) Hhit).
Qed.

Lemma shared_material_is_not_converted_again_witness :
  let st := snd (add_material Example.red Example.fresh) in
  let twin := mkObject "Twin" "MESH" Example.identity
                [mkMaterialSlot (Some (mkMaterial "red" 9))] in
  let os := [Example.cube; Example.lamp; twin; Example.plane] in
  let frag : dict := <["bsdf" := JStr "red"]> ∅ in
  mats (fst st) !! "red" = Some frag
  /\ Forall (fun o => match first_material o with
                      | Some m => material_name m = "red"
                      | None => True
                      end) os
  /\ fst (for_each os (add_object Example.stage) st) = Ok tt
  /\ fst (snd (for_each os (add_object Example.stage) st))
     = set_scene (set_primitives
         (fun l => l ++ map (cached_record (fst st) frag)
                          [Example.cube; twin; Example.plane])) (fst st).
Proof.
  intros st twin os frag.
  assert (Hhit : mats (fst st) !! "red" = Some frag) by reflexivity.
  assert (Hall : Forall (fun o => match first_material o with
                                  | Some m => material_name m = "red"
                                  | None => True
                                  end) os)
    by (repeat constructor).
  assert (Hok : fst (for_each os (add_object Example.stage) st) = Ok tt)
    by reflexivity.
  destruct (shared_material_is_not_converted_again
              Example.stage os st "red" frag Hhit Hall)
    as (ps & Hfinal & _ & Hps).
  split; [exact Hhit |]. split; [exact Hall |]. split; [exact Hok |].
  rewrite Hfinal, (Hps Hok). reflexivity.
Defined.

(** X4. When the mesh writer fails for an object with geometry,
    [add_object] raises its exception and the session is exactly as it
    was: no primitive is appended and the material of the object is not
    converted. *)
Theorem failed_mesh_leaves_session_unchanged {HH : Host} {HC : Converters}
    sc o (st : state) e w' :
  object_type o ∈ geometry_types ->
  write_object_mesh sc o (path (fst st) (object_name o +:+ ".wo3")) (snd st)
    = (Raise e, w') ->
  add_object sc o st = (Raise e, (fst st, w')).
Proof.
  intros Hty Hmesh. unfold add_object.
  rewrite bool_decide_eq_true_2 by exact Hty. simpl.
  apply bind_raise. rewrite add_mesh_run. simpl. rewrite Hmesh. reflexivity.
Qed.

Lemma failed_mesh_leaves_session_unchanged_witness :
  let st : state (HH := Faulty.host) := Example.fresh in
  (object_type Faulty.rock ∈ geometry_types)
  /\ write_object_mesh (Host := Faulty.host) Example.stage Faulty.rock
       (path (fst st) "Broken.wo3") (snd st) = (Raise "IOError", snd st)
  /\ add_object (HH := Faulty.host) (HC := Faulty.converters)
       Example.stage Faulty.rock st = (Raise "IOError", st).
Proof.
  intros st.
  assert (Hty : object_type Faulty.rock ∈ geometry_types)
    by (apply (bool_decide_unpack _); vm_compute; exact I).
  assert (Hmesh : write_object_mesh (Host := Faulty.host) Example.stage
                    Faulty.rock (path (fst st) "Broken.wo3") (snd st)
                  = (Raise "IOError", snd st)) by reflexivity.
  split; [exact Hty |]. split; [exact Hmesh |].
  exact (failed_mesh_leaves_session_unchanged
           (HH := Faulty.host) (HC := Faulty.converters)
           Example.stage Faulty.rock st "IOError" (snd st) Hty Hmesh).
Defined.

(** X5. When the converter fails for the material of an object, the mesh
    file of the object has been written already, but [add_object] raises
    without appending a primitive: [primitives], [bsdfs] and the material
    cache are as before (the converters being assumed to keep to their
    contract). *)
Theorem failed_material_appends_no_primitive {HH : Host} {HC : Converters}
    sc o m (st : state) counts w1 e st2 :
  converters_contract ->
  object_type o ∈ geometry_types ->
  first_material o = Some m ->
  mats (fst st) !! material_name m = None ->
  write_object_mesh sc o (path (fst st) (object_name o +:+ ".wo3")) (snd st)
    = (Ok counts, w1) ->
  W_PT_material_to_scene_data m (fst st, w1) = (Raise e, st2) ->
  add_object sc o st = (Raise e, st2)
  /\ primitives (scene (fst st2)) = primitives (scene (fst st))
  /\ bsdfs (scene (fst st2)) = bsdfs (scene (fst st))
  /\ mats (fst st2) = mats (fst st).
Proof.
  intros contract Hty Hm Hfree Hmesh Hconv.
  destruct (changes_image_cache_only_run _ _ _ _
              (material_contract contract m) Hconv) as [cache Hst2].
  split; [| rewrite Hst2; repeat split; reflexivity].
  unfold add_object. rewrite bool_decide_eq_true_2 by exact Hty. simpl.
  unfold bind at 1. rewrite add_mesh_run. simpl. rewrite Hmesh, Hm.
  apply bind_raise. apply bind_raise.
  apply add_material_failed; [exact Hfree | exact Hconv].
Qed.

Lemma failed_material_appends_no_primitive_witness :
  let crate := mkObject "Crate" "MESH" Example.identity
                 [mkMaterialSlot (Some Example.broken)] in
  let st := Example.fresh in
  let w1 : Example.files := <["/tmp/tmpw/Crate.wo3" := "mesh"]> (snd st) in
  converters_contract (HC := Example.converters)
  /\ (object_type crate ∈ geometry_types)
  /\ mats (fst st) !! "broken" = None
  /\ write_object_mesh Example.stage crate (path (fst st) "Crate.wo3") (snd st)
     = (Ok (8%Z, 12%Z), w1)
  /\ add_object Example.stage crate st = (Raise "RuntimeError", (fst st, w1))
  /\ os_path_isfile "/tmp/tmpw/Crate.wo3" w1 = true.
Proof.
  intros crate st w1.
  assert (Hty : object_type crate ∈ geometry_types)
    by (apply (bool_decide_unpack _); vm_compute; exact I).
  assert (Hfree : mats (fst st) !! "broken" = None) by reflexivity.
  assert (Hmesh : write_object_mesh Example.stage crate
                    (path (fst st) "Crate.wo3") (snd st)
                  = (Ok (8%Z, 12%Z), w1)) by reflexivity.
  split; [exact example_converters_contract |]. split; [exact Hty |].
  split; [exact Hfree |]. split; [exact Hmesh |].
  split; [| reflexivity].
  exact (proj1 (failed_material_appends_no_primitive
                  Example.stage crate Example.broken st (8%Z, 12%Z) w1
                  "RuntimeError" (fst st, w1)
                  example_converters_contract Hty eq_refl Hfree Hmesh eq_refl)).
Defined.

(** X6. The loop over the objects stops at the first object that cannot
    be exported.  When the mesh writer fails for an object with geometry,
    the loop raises the exception of the writer; the session is the one
    the objects before it left, with their primitives and none for the
    failed object; the objects after it are not visited, so the host is as
    the failed write left it. *)
Theorem object_loop_stops_at_first_failure {HH : Host} {HC : Converters}
    sc (xs ys : list Object) o (st st1 : state) e w' :
  for_each xs (add_object sc) st = (Ok tt, st1) ->
  object_type o ∈ geometry_types ->
  write_object_mesh sc o (path (fst st1) (object_name o +:+ ".wo3")) (snd st1)
    = (Raise e, w') ->
  for_each (xs ++ o :: ys) (add_object sc) st = (Raise e, (fst st1, w')).
Proof.
  intros Hxs Hty Hmesh. rewrite for_each_app. rewrite (bind_ok _ _ _ _ _ Hxs).
  simpl. apply bind_raise. unfold add_object.
  rewrite bool_decide_eq_true_2 by exact Hty. simpl.
  apply bind_raise. rewrite add_mesh_run. simpl. rewrite Hmesh. reflexivity.
Qed.

Lemma object_loop_stops_at_first_failure_witness :
  let st : state (HH := Faulty.host) := Example.fresh in
  let loop := for_each (S := state (HH := Faulty.host)) in
  let st1 := snd (loop [Example.cube]
                    (add_object (HH := Faulty.host) (HC := Faulty.converters)
                       Example.stage) st) in
  loop [Example.cube]
    (add_object (HH := Faulty.host) (HC := Faulty.converters) Example.stage) st
  = (Ok tt, st1)
  /\ (object_type Faulty.rock ∈ geometry_types)
  /\ write_object_mesh (Host := Faulty.host) Example.stage Faulty.rock
       (path (fst st1) "Broken.wo3") (snd st1) = (Raise "IOError", snd st1)
  /\ loop ([Example.cube] ++ Faulty.rock :: [Example.plane])
       (add_object (HH := Faulty.host) (HC := Faulty.converters) Example.stage) st
     = (Raise "IOError", st1)
  /\ length (primitives (scene (fst st1))) = 1%nat
  /\ os_path_exists (Host := Faulty.host) "/tmp/tmpw/Plane.wo3" (snd st1) = false.
Proof.
  intros st loop st1.
  assert (Hxs : loop [Example.cube]
                  (add_object (HH := Faulty.host) (HC := Faulty.converters)
                     Example.stage) st = (Ok tt, st1)).
  { refine (run_ok _ tt _). vm_compute. reflexivity. }
  assert (Hty : object_type Faulty.rock ∈ geometry_types)
    by (apply (bool_decide_unpack _); vm_compute; exact I).
  assert (Hmesh : write_object_mesh (Host := Faulty.host) Example.stage
                    Faulty.rock (path (fst st1) "Broken.wo3") (snd st1)
                  = (Raise "IOError", snd st1)) by reflexivity.
  split; [exact Hxs |]. split; [exact Hty |]. split; [exact Hmesh |].
  split; [| split; vm_compute; reflexivity].
  exact (object_loop_stops_at_first_failure
           (HH := Faulty.host) (HC := Faulty.converters)
           Example.stage [Example.cube] [Example.plane] Faulty.rock
           st st1 "IOError" (snd st1) Hxs Hty Hmesh).
Defined.

(** X7. Resolving an image is idempotent: after [add_image] returned a
    path for an image, [add_image] for any image of that name returns the
    same path and changes nothing, in the session or in the host. *)
Theorem add_image_is_idempotent {HH : Host} im im' (st st1 : state) p :
  add_image im st = (Ok p, st1) ->
  image_name im' = image_name im ->
  images (fst st1) !! image_name im = Some p
  /\ add_image im' st1 = (Ok p, st1).
Proof.
  intros Hrun Hname.
  assert (Hbound : images (fst st1) !! image_name im = Some p).
  { destruct st as [s w].
    destruct (images s !! image_name im) as [q |] eqn:Hcache.
    - rewrite (add_image_cached im (s, w) q Hcache) in Hrun.
      injection Hrun as <- <-. exact Hcache.
    - rewrite (add_image_uncached im s w Hcache) in Hrun.
      unfold image_outcome in Hrun.
      destruct (image_policy s im w) as [q | dest fmt].
      + injection Hrun as <- <-. apply lookup_insert_eq.
      + destruct (_save_image_as s im dest fmt w) as [[[] | e] w'];
          [| discriminate].
        injection Hrun as <- <-. apply lookup_insert_eq. }
  split; [exact Hbound |].
  apply add_image_cached. rewrite Hname. exact Hbound.
Qed.

Lemma add_image_is_idempotent_witness :
  let st := Example.fresh in
  let st1 := snd (add_image Example.texture st) in
  let namesake := mkImage "wood" "PNG" "/tex/wood.png" None "FILE" in
  add_image Example.texture st = (Ok "wood.png", st1)
  /\ image_name namesake = image_name Example.texture
  /\ images (fst st1) !! "wood" = Some "wood.png"
  /\ add_image namesake st1 = (Ok "wood.png", st1).
Proof.
  intros st st1 namesake.
  assert (Hrun : add_image Example.texture st = (Ok "wood.png", st1))
    by reflexivity.
  split; [exact Hrun |]. split; [reflexivity |].
  exact (add_image_is_idempotent Example.texture namesake st st1 "wood.png"
           Hrun eq_refl).
Defined.

(** ** The document after [add_all] *)

Section Populated.
Context {HH : Host} {HC : Converters}.

(** A successful [add_all], stage by stage. *)
Lemma add_all_returns sc (st st' : state) :
  add_all sc st = (Ok tt, st') ->
  exists d1 st1 d2 st2 st3 d4 st4,
    W_PT_renderer_to_scene_data sc st = (Ok d1, st1)
    /\ W_PT_integrator_to_scene_data sc
         (set_scene (set_renderer (fun r => dict_update r d1)) (fst st1), snd st1)
       = (Ok d2, st2)
    /\ match scene_world sc with
       | Some w => add_world w
       | None => ret tt
       end (set_scene (set_integrator (fun i => dict_update i d2)) (fst st2), snd st2)
       = (Ok tt, st3)
    /\ W_PT_camera_to_scene_data (scene_camera sc)
         (set_scene (set_camera (fun _ => camera_record sc (scene_camera sc)))
            (fst st3), snd st3)
       = (Ok d4, st4)
    /\ for_each (scene_objects sc) (add_object sc)
         (set_scene (set_camera (fun c => dict_update c d4)) (fst st4), snd st4)
       = (Ok tt, st').
Proof.
  unfold add_all. unfold bind at 1.
  destruct (W_PT_renderer_to_scene_data sc st) as [[d1 | e] st1] eqn:Hr;
    [| discriminate].
  unfold bind at 1. unfold update_self at 1. unfold bind at 1.
  destruct (W_PT_integrator_to_scene_data sc _) as [[d2 | e] st2] eqn:Hi;
    [| discriminate].
  unfold bind at 1. unfold update_self at 1. unfold bind at 1.
  destruct (match scene_world sc with
            | Some w => add_world w
            | None => ret tt
            end _) as [[[] | e] st3] eqn:Hw; [| discriminate].
  unfold bind at 1. unfold add_camera at 1.
  unfold bind at 1. unfold update_self at 1. unfold bind at 1.
  destruct (W_PT_camera_to_scene_data (scene_camera sc) _)
    as [[d4 | e] st4] eqn:Hc; [| discriminate].
  unfold update_self at 1. intros Hloop.
  exists d1, st1, d2, st2, st3, d4, st4. repeat split; assumption.
Qed.

Hypothesis contract : converters_contract.

Lemma add_material_primitives m (st : state) :
  primitives (scene (fst (snd (add_material m st))))
  = primitives (scene (fst st)).
Proof.
  unfold add_material. unfold bind at 1. unfold self at 1.
  destruct (mats (fst st) !! material_name m); [reflexivity |].
  unfold bind at 1.
  destruct (W_PT_material_to_scene_data m st) as [r st1] eqn:Hconv.
  destruct (changes_image_cache_only_run _ _ _ _
              (material_contract contract m) Hconv) as [cache Hst1].
  destruct r as [[obj mat] | e]; simpl; [| by rewrite Hst1].
  destruct mat as [d |]; simpl; [destruct (negb (size d =? 0)%nat) |];
    unfold bind, update_self, ret; simpl; by rewrite Hst1.
Qed.

(** What one object adds to [primitives]. *)
Lemma add_object_primitives sc o (st st' : state) :
  add_object sc o st = (Ok tt, st') ->
  exists ps,
    primitives (scene (fst st')) = primitives (scene (fst st)) ++ ps
    /\ length ps = length (geometry_objects [o]).
Proof.
  unfold add_object, geometry_objects. rewrite filter_cons, filter_nil.
  destruct (decide (object_type o ∈ geometry_types)) as [Hty | Hty].
  - rewrite bool_decide_eq_true_2 by exact Hty. simpl.
    unfold bind at 1. rewrite add_mesh_run. simpl.
    destruct (write_object_mesh sc o _ (snd st)) as [[counts | e] w'];
      [| discriminate].
    unfold bind at 1.
    destruct (first_material o) as [m |].
    + unfold bind at 1.
      pose proof (add_material_primitives m (fst st, w')) as Hprim.
      destruct (add_material m (fst st, w')) as [[obj | e] st1];
        [| discriminate].
      simpl in *. intros [= <-]. simpl. rewrite Hprim. eexists. split; reflexivity.
    + simpl. intros [= <-]. simpl. eexists. split; reflexivity.
  - rewrite bool_decide_eq_false_2 by exact Hty. simpl. intros [= <-].
    exists []. split; [by rewrite app_nil_r | reflexivity].
Qed.

Lemma object_loop_primitives sc os (st st' : state) :
  for_each os (add_object sc) st = (Ok tt, st') ->
  length (primitives (scene (fst st')))
  = (length (primitives (scene (fst st))) + length (geometry_objects os))%nat.
Proof.
  revert st. induction os as [| o os IH]; intros st; simpl.
  - intros [= <-]. simpl. lia.
  - unfold bind.
    destruct (add_object sc o st) as [[[] | e] st1] eqn:Ho; [| discriminate].
    intros Hrest. rewrite (IH st1 Hrest).
    destruct (add_object_primitives sc o st st1 Ho) as (ps & -> & Hlen).
    rewrite length_app, Hlen. unfold geometry_objects.
    rewrite !filter_cons, filter_nil.
    destruct (decide (object_type o ∈ geometry_types)); simpl; lia.
Qed.
End Populated.

(** X8. A successful [add_all] appends exactly one primitive for the world,
    if the scene has one, and exactly one for every object with geometry:
    objects of the other types (camera, lamp, empty) leave no entry (the
    converters being assumed to keep to their contract). *)
Theorem add_all_appends_one_primitive_per_geometry_object
    {HH : Host} {HC : Converters} sc (st st' : state) :
  converters_contract ->
  add_all sc st = (Ok tt, st') ->
  length (primitives (scene (fst st')))
  = (length (primitives (scene (fst st)))
     + (match scene_world sc with Some _ => 1 | None => 0 end)
     + length (geometry_objects (scene_objects sc)))%nat.
Proof.
  intros contract Hrun.
  destruct (add_all_returns sc st st' Hrun)
    as (d1 & st1 & d2 & st2 & st3 & d4 & st4 & Hr & Hi & Hw & Hc & Hloop).
  rewrite (object_loop_primitives contract sc _ _ _ Hloop). simpl.
  destruct (changes_image_cache_only_run _ _ _ _
              (renderer_contract contract sc) Hr) as [c1 H1].
  destruct (changes_image_cache_only_run _ _ _ _
              (integrator_contract contract sc) Hi) as [c2 H2].
  destruct (changes_image_cache_only_run _ _ _ _
              (camera_contract contract (scene_camera sc)) Hc) as [c4 H4].
  rewrite H4. simpl.
  assert (Hworld : length (primitives (scene (fst st3)))
                   = (length (primitives (scene (fst st)))
                      + (match scene_world sc with Some _ => 1 | None => 0 end))%nat).
  { destruct (scene_world sc) as [world |].
    - unfold add_world in Hw. unfold bind in Hw.
      destruct (W_PT_world_to_scene_data world _) as [[p | e] stw] eqn:Hconv;
        [| discriminate].
      destruct (changes_image_cache_only_run _ _ _ _
                  (world_contract contract world) Hconv) as [cw Hcw].
      injection Hw as <-. simpl. rewrite Hcw. simpl. rewrite H2. simpl.
      rewrite H1. simpl. rewrite length_app. reflexivity.
    - injection Hw as <-. simpl. rewrite H2. simpl. rewrite H1. simpl. lia. }
  rewrite Hworld. reflexivity.
Qed.

Lemma add_all_appends_one_primitive_per_geometry_object_witness :
  let st' := snd (add_all Example.stage Example.fresh) in
  converters_contract (HC := Example.converters)
  /\ add_all Example.stage Example.fresh = (Ok tt, st')
  /\ length (primitives (scene (fst st')))
     = (length (primitives (scene (fst Example.fresh)))
        + match scene_world Example.stage with Some _ => 1 | None => 0 end
        + length (geometry_objects (scene_objects Example.stage)))%nat.
Proof.
  intros st'.
  assert (Hrun : add_all Example.stage Example.fresh = (Ok tt, st')).
  { refine (run_ok (add_all Example.stage Example.fresh) tt _).
    vm_compute. reflexivity. }
  split; [exact example_converters_contract |]. split; [exact Hrun |].
  exact (add_all_appends_one_primitive_per_geometry_object
           Example.stage Example.fresh st' example_converters_contract Hrun).
Defined.

(** ** The stages of [add_all] *)

Lemma for_each_fold {S A} (xs : list A) (body : A -> M S unit) s :
  for_each xs body s =
  fold_left (fun (r : result unit * S) x =>
               match r with
               | (Ok _, s') => body x s'
               | (Raise e, s') => (Raise e, s')
               end) xs (Ok tt, s).
Proof.
  revert s. induction xs as [| x xs IH]; intros s; [reflexivity |].
  simpl. unfold bind. destruct (body x s) as [[[] | e] s1]; [apply IH |].
  clear IH. induction xs as [| y ys IH]; [reflexivity | exact IH].
Qed.

Section Stages.
Context {HH : Host} {HC : Converters}.

(** [add_all], stage by stage, down to the loop over the objects. *)
Lemma add_all_runs_stages (sc : Scene) (st st1 st2 st3 st4 : state)
    (d1 d2 d4 p : dict) :
  W_PT_renderer_to_scene_data sc st = (Ok d1, st1) ->
  let merged1 : state :=
    (set_scene (set_renderer (fun r => dict_update r d1)) (fst st1), snd st1) in
  W_PT_integrator_to_scene_data sc merged1 = (Ok d2, st2) ->
  let merged2 : state :=
    (set_scene (set_integrator (fun i => dict_update i d2)) (fst st2), snd st2) in
  match scene_world sc with
  | Some world =>
      exists stw,
        W_PT_world_to_scene_data world merged2 = (Ok p, stw)
        /\ st3 = (set_scene (set_primitives (fun l => l ++ [p])) (fst stw), snd stw)
  | None => st3 = merged2
  end ->
  let with_record : state :=
    (set_scene (set_camera (fun _ => camera_record sc (scene_camera sc))) (fst st3),
     snd st3) in
  W_PT_camera_to_scene_data (scene_camera sc) with_record = (Ok d4, st4) ->
  let merged4 : state :=
    (set_scene (set_camera (fun c => dict_update c d4)) (fst st4), snd st4) in
  add_all sc st = for_each (scene_objects sc) (add_object sc) merged4.
Proof.
  intros Hr merged1 Hi merged2 Hw with_record Hc merged4.
  unfold add_all.
  rewrite (bind_ok _ _ _ _ _ Hr).
  unfold bind at 1. unfold update_self at 1. fold merged1.
  rewrite (bind_ok _ _ _ _ _ Hi).
  unfold bind at 1. unfold update_self at 1. fold merged2.
  assert (Hworld : match scene_world sc with
                   | Some w => add_world w
                   | None => ret tt
                   end merged2 = (Ok tt, st3)).
  { destruct (scene_world sc) as [world |].
    - destruct Hw as (stw & Hconv & ->). unfold add_world.
      rewrite (bind_ok _ _ _ _ _ Hconv). reflexivity.
    - rewrite Hw. reflexivity. }
  rewrite (bind_ok _ _ _ _ _ Hworld).
  assert (Hcam : add_camera sc (scene_camera sc) st3 = (Ok tt, merged4)).
  { unfold add_camera. unfold bind at 1. unfold update_self at 1.
    fold with_record. rewrite (bind_ok _ _ _ _ _ Hc). reflexivity. }
  rewrite (bind_ok _ _ _ _ _ Hcam). reflexivity.
Qed.

Hypothesis contract : converters_contract.

(** What the loop over the objects leaves of the document it found. *)
Lemma object_loop_document sc os (st st' : state) :
  for_each os (add_object sc) st = (Ok tt, st') ->
  renderer (scene (fst st')) = renderer (scene (fst st))
  /\ integrator (scene (fst st')) = integrator (scene (fst st))
  /\ camera (scene (fst st')) = camera (scene (fst st))
  /\ exists ps,
       primitives (scene (fst st')) = primitives (scene (fst st)) ++ ps
       /\ length ps = length (geometry_objects os).
Proof.
  intros Hloop.
  pose proof (advances_for_each extends extends_refl extends_trans
                os (add_object sc) (add_object_extends contract sc) st) as Hext.
  rewrite Hloop in Hext. simpl in Hext.
  split; [exact (same_renderer _ _ Hext) |].
  split; [exact (same_integrator _ _ Hext) |].
  split; [exact (same_camera _ _ Hext) |].
  destruct (primitives_extended _ _ Hext) as [ps Hps]. exists ps.
  split; [exact Hps |].
  pose proof (object_loop_primitives contract sc os st st' Hloop) as Hlen.
  rewrite Hps, length_app in Hlen. lia.
Qed.
End Stages.

(** C8. [add_all] runs its stages in this order, each on the state the
    previous one left: the renderer converter, whose output is merged into
    [renderer]; the integrator converter, merged into [integrator]; the
    world converter, if the scene has a world, whose output is appended to
    [primitives] once; the camera record, which replaces [camera] before
    the camera converter runs and receives its output; then [add_object]
    on every object, in order, up to the first that raises.  Each merge is
    key-wise: a key of the converter takes the converter's value, every
    other key keeps its value.  When [add_all] has returned, [renderer]
    and [integrator] are the records it found with the output of their
    converter merged in, [camera] is the new camera record with the output
    of the camera converter merged in, and [primitives] has gained the
    primitive of the world, if there is one, and after it one primitive
    for every object with geometry; the four defaults the constructor
    seeds (output_file ['scene.png'], overwrite_output_files true,
    enable_resume_render false, checkpoint_interval 0) survive where the
    renderer converter is silent (the converters being assumed to keep to
    their contract). *)
Theorem add_all_stages {HH : Host} {HC : Converters}
    (sc : Scene) (st st1 st2 st3 st4 : state) (d1 d2 d4 p : dict) :
  let session (s : TungstenScene) (ps : list dict) (cam integ rend : dict)
    : TungstenScene :=
    {| dir := dir s;
       clean_on_del := clean_on_del s;
       self_contained := self_contained s;
       scene := {| media := media (scene s);
                   bsdfs := bsdfs (scene s);
                   primitives := ps;
                   camera := cam;
                   integrator := integ;
                   renderer := rend |};
       mats := mats s;
       images := images s;
       scenefile := scenefile s;
       default_mat := default_mat s |} in
  let merged (old new : dict) (k : string) : option json :=
    match new !! k with
    | Some v => Some v
    | None => old !! k
    end in
  W_PT_renderer_to_scene_data sc st = (Ok d1, st1) ->
  let merged1 : state :=
    (session (fst st1) (primitives (scene (fst st1))) (camera (scene (fst st1)))
       (integrator (scene (fst st1))) (d1 ∪ renderer (scene (fst st1))),
     snd st1) in
  W_PT_integrator_to_scene_data sc merged1 = (Ok d2, st2) ->
  let merged2 : state :=
    (session (fst st2) (primitives (scene (fst st2))) (camera (scene (fst st2)))
       (d2 ∪ integrator (scene (fst st2))) (renderer (scene (fst st2))),
     snd st2) in
  match scene_world sc with
  | Some world =>
      exists stw,
        W_PT_world_to_scene_data world merged2 = (Ok p, stw)
        /\ st3 =
           (session (fst stw) (primitives (scene (fst stw)) ++ [p])
              (camera (scene (fst stw))) (integrator (scene (fst stw)))
              (renderer (scene (fst stw))),
            snd stw)
  | None => st3 = merged2
  end ->
  let with_record : state :=
    (session (fst st3) (primitives (scene (fst st3)))
       (camera_record sc (scene_camera sc))
       (integrator (scene (fst st3))) (renderer (scene (fst st3))),
     snd st3) in
  W_PT_camera_to_scene_data (scene_camera sc) with_record = (Ok d4, st4) ->
  let merged4 : state :=
    (session (fst st4) (primitives (scene (fst st4)))
       (d4 ∪ camera (scene (fst st4)))
       (integrator (scene (fst st4))) (renderer (scene (fst st4))),
     snd st4) in
  let visit (r : result unit * state) (o : Object) : result unit * state :=
    match r with
    | (Ok _, s) => add_object sc o s
    | (Raise e, s) => (Raise e, s)
    end in
  add_all sc st = fold_left visit (scene_objects sc) (Ok tt, merged4)
  /\ (converters_contract ->
      forall st' : state,
        add_all sc st = (Ok tt, st') ->
        (forall k, renderer (scene (fst st')) !! k
                   = merged (renderer (scene (fst st))) d1 k)
        /\ (forall k, integrator (scene (fst st')) !! k
                      = merged (integrator (scene (fst st))) d2 k)
        /\ (forall k, camera (scene (fst st')) !! k
                      = merged (camera_record sc (scene_camera sc)) d4 k)
        /\ (exists ps,
              primitives (scene (fst st'))
              = primitives (scene (fst st))
                ++ match scene_world sc with
                   | Some _ => [p]
                   | None => []
                   end
                ++ ps
              /\ length ps
                 = length (filter (fun o => object_type o ∈ geometry_types)
                             (scene_objects sc)))
        /\ (renderer (scene (fst st)) = renderer_defaults ->
            forall k v,
              (k, v) ∈ [("output_file", JStr "scene.png");
                        ("overwrite_output_files", JBool true);
                        ("enable_resume_render", JBool false);
                        ("checkpoint_interval", JInt 0)] ->
              renderer (scene (fst st')) !! k =
              match d1 !! k with
              | Some v' => Some v'
              | None => Some v
              end))
  /\ (forall c sf path w s w1,
        __init__ c sf path w = (Ok s, w1) ->
        renderer (scene s) = renderer_defaults).
Proof.
  intros session merged Hr merged1 Hi merged2 Hw with_record Hc merged4 visit.
  assert (Hrun : add_all sc st
                 = for_each (scene_objects sc) (add_object sc) merged4)
    by exact (add_all_runs_stages sc st st1 st2 st3 st4 d1 d2 d4 p Hr Hi Hw Hc).
  assert (Hmerged : forall (old new : dict) k,
             dict_update old new !! k = merged old new k).
  { intros old new k. unfold merged.
    destruct (new !! k) as [v |] eqn:Hk.
    - exact (dict_update_bound _ _ _ _ Hk).
    - exact (dict_update_free _ _ _ Hk). }
  split; [| split; [| exact init_seeds_renderer]].
  { rewrite Hrun. apply for_each_fold. }
  intros contract st' Hok. rewrite Hrun in Hok.
  destruct (object_loop_document contract sc _ _ _ Hok)
    as (Hren & Hint & Hcam & ps & Hps & Hlen).
  destruct (changes_image_cache_only_run _ _ _ _
              (renderer_contract contract sc) Hr) as [c1 H1].
  destruct (changes_image_cache_only_run _ _ _ _
              (integrator_contract contract sc) Hi) as [c2 H2].
  destruct (changes_image_cache_only_run _ _ _ _
              (camera_contract contract (scene_camera sc)) Hc) as [c4 H4].
  assert (H3 : renderer (scene (fst st3))
               = dict_update (renderer (scene (fst st))) d1
               /\ integrator (scene (fst st3))
                  = dict_update (integrator (scene (fst st))) d2
               /\ primitives (scene (fst st3))
                  = primitives (scene (fst st))
                    ++ match scene_world sc with
                       | Some _ => [p]
                       | None => []
                       end).
  { destruct (scene_world sc) as [world |].
    - destruct Hw as (stw & Hconv & ->).
      destruct (changes_image_cache_only_run _ _ _ _
                  (world_contract contract world) Hconv) as [cw Hcw].
      simpl. rewrite Hcw. simpl. rewrite H2. simpl. rewrite H1.
      repeat split; reflexivity.
    - rewrite Hw. simpl. rewrite H2. simpl. rewrite H1. simpl.
      rewrite app_nil_r. repeat split; reflexivity. }
  destruct H3 as (Hren3 & Hint3 & Hprim3).
  assert (Hrenderer : renderer (scene (fst st'))
                      = dict_update (renderer (scene (fst st))) d1).
  { rewrite Hren. simpl. rewrite H4. exact Hren3. }
  split; [intros k; rewrite Hrenderer; apply Hmerged |].
  split.
  { intros k. rewrite Hint. simpl. rewrite H4. simpl. rewrite Hint3.
    apply Hmerged. }
  split.
  { intros k. rewrite Hcam. simpl. rewrite H4. simpl. apply Hmerged. }
  split.
  { exists ps. split; [| exact Hlen].
    rewrite Hps. simpl. rewrite H4. simpl. rewrite Hprim3.
    by rewrite <- app_assoc. }
  intros Hseed k v Hin. rewrite Hrenderer, Hmerged. unfold merged.
  destruct (d1 !! k) as [v' |]; [reflexivity |].
  rewrite Hseed. unfold renderer_defaults.
  repeat (apply elem_of_cons in Hin as [[= -> ->] | Hin];
          [by simplify_map_eq |]).
  by apply elem_of_nil in Hin.
Qed.

Lemma add_all_stages_witness :
  let d1 : dict := <["output_file" := JStr "render.png"]> (<["spp" := JInt 32]> ∅) in
  let d2 : dict := <["type" := JStr "path_tracer"]> ∅ in
  let p : dict := <["type" := JStr "infinite_sphere"]> ∅ in
  let d4 : dict := <["type" := JStr "pinhole"]> ∅ in
  let st := Example.fresh in
  let merged1 : state :=
    (set_scene (set_renderer (fun r => dict_update r d1)) (fst st), snd st) in
  let merged2 : state :=
    (set_scene (set_integrator (fun i => dict_update i d2)) (fst merged1),
     snd merged1) in
  let st3 : state :=
    (set_scene (set_primitives (fun l => l ++ [p])) (fst merged2), snd merged2) in
  let with_record : state :=
    (set_scene (set_camera (fun _ => camera_record Example.stage Example.eye))
       (fst st3), snd st3) in
  let st' := snd (add_all Example.stage st) in
  converters_contract (HC := Example.converters)
  /\ W_PT_renderer_to_scene_data Example.stage st = (Ok d1, st)
  /\ W_PT_integrator_to_scene_data Example.stage merged1 = (Ok d2, merged1)
  /\ W_PT_world_to_scene_data (mkWorld "World") merged2 = (Ok p, merged2)
  /\ W_PT_camera_to_scene_data Example.eye with_record = (Ok d4, with_record)
  /\ renderer (scene (fst st)) = renderer_defaults
  /\ add_all Example.stage st = (Ok tt, st')
  /\ renderer (scene (fst st')) !! "output_file" = Some (JStr "render.png")
  /\ renderer (scene (fst st')) !! "checkpoint_interval" = Some (JInt 0)
  /\ renderer (scene (fst st')) !! "spp" = Some (JInt 32)
  /\ integrator (scene (fst st')) !! "type" = Some (JStr "path_tracer")
  /\ camera (scene (fst st')) !! "type" = Some (JStr "pinhole")
  /\ camera (scene (fst st')) !! "resolution" = Some (JList [JInt 960; JInt 540])
  /\ (exists ps, primitives (scene (fst st')) = p :: ps /\ length ps = 2%nat)
  /\ map (fun dat : dict => dat !! "name") (primitives (scene (fst st')))
     = [None; Some (JStr "Cube"); Some (JStr "Plane")].
Proof.
  intros d1 d2 p d4 st merged1 merged2 st3 with_record st'.
  pose proof example_converters_contract as contract.
  assert (Hr : W_PT_renderer_to_scene_data Example.stage st = (Ok d1, st))
    by reflexivity.
  assert (Hi : W_PT_integrator_to_scene_data Example.stage merged1
               = (Ok d2, merged1)) by reflexivity.
  assert (Hw : W_PT_world_to_scene_data (mkWorld "World") merged2
               = (Ok p, merged2)) by reflexivity.
  assert (Hc : W_PT_camera_to_scene_data Example.eye with_record
               = (Ok d4, with_record)) by reflexivity.
  assert (Hseed : renderer (scene (fst st)) = renderer_defaults) by reflexivity.
  assert (Hok : add_all Example.stage st = (Ok tt, st')).
  { refine (run_ok (add_all Example.stage st) tt _). vm_compute. reflexivity. }
  destruct (add_all_stages Example.stage st st merged1 st3 with_record
              d1 d2 d4 p Hr Hi (ex_intro _ merged2 (conj Hw eq_refl)) Hc)
    as (_ & Hfinal & _).
  destruct (Hfinal contract st' Hok)
    as (Hrenderer & Hintegrator & Hcamera & Hprimitives & Hdefaults).
  split; [exact contract |].
  split; [exact Hr |]. split; [exact Hi |]. split; [exact Hw |].
  split; [exact Hc |]. split; [exact Hseed |]. split; [exact Hok |].
  split; [exact (Hrenderer "output_file") |].
  split.
  { refine (Hdefaults Hseed "checkpoint_interval" (JInt 0) _).
    do 3 apply list_elem_of_further. apply list_elem_of_here. }
  split; [exact (Hrenderer "spp") |].
  split; [exact (Hintegrator "type") |].
  split; [exact (Hcamera "type") |].
  split; [exact (Hcamera "resolution") |].
  split; [exact Hprimitives |].
  vm_compute. reflexivity.
Defined.

(** ** The manifest and the read-only properties *)

Lemma init_fields {HH : Host} c sf p w s w1 :
  __init__ c sf p w = (Ok s, w1) ->
  s = {| dir := dir s;
         clean_on_del := c;
         self_contained := sf;
         scene := {| media := [];
                     bsdfs := [default_bsdf "__default_mat"];
                     primitives := [];
                     camera := ∅;
                     integrator := ∅;
                     renderer := renderer_defaults |};
         mats := ∅;
         images := ∅;
         scenefile := os_path_join (dir s) "scene.json";
         default_mat := "__default_mat" |}.
Proof.
  unfold __init__. unfold bind at 1.
  match goal with
  | |- context [match ?x with (_, _) => _ end] => destruct x as [[d | e] w2]
  end; [| discriminate].
  unfold ret. intros [= <- _]. reflexivity.
Qed.

Section Reading.
Context {HH : Host} {HC : Converters}.

Lemma add_camera_run sc cam (st : state) :
  add_camera sc cam st =
  match W_PT_camera_to_scene_data cam
          (set_scene (set_camera (fun _ => camera_record sc cam)) (fst st),
           snd st) with
  | (Ok d, st1) =>
      (Ok tt, (set_scene (set_camera (fun c => dict_update c d)) (fst st1),
               snd st1))
  | (Raise e, st1) => (Raise e, st1)
  end.
Proof.
  unfold add_camera, bind, update_self.
  destruct (W_PT_camera_to_scene_data cam _) as [[d | e] st1]; reflexivity.
Qed.

Hypothesis contract : converters_contract.

Lemma add_camera_camera sc cam (st st' : state) :
  add_camera sc cam st = (Ok tt, st') ->
  exists d st1,
    W_PT_camera_to_scene_data cam
      (set_scene (set_camera (fun _ => camera_record sc cam)) (fst st), snd st)
    = (Ok d, st1)
    /\ camera (scene (fst st')) = dict_update (camera_record sc cam) d.
Proof.
  rewrite add_camera_run.
  destruct (W_PT_camera_to_scene_data cam _) as [[d | e] st1] eqn:Hconv;
    [| discriminate].
  intros [= <-]. exists d, st1. split; [reflexivity |].
  destruct (changes_image_cache_only_run _ _ _ _
              (camera_contract contract cam) Hconv) as [cache ->].
  reflexivity.
Qed.

Lemma add_all_camera sc (st st' : state) :
  add_all sc st = (Ok tt, st') ->
  exists st3 st4,
    add_camera sc (scene_camera sc) st3 = (Ok tt, st4)
    /\ camera (scene (fst st')) = camera (scene (fst st4)).
Proof.
  intros Hrun.
  destruct (add_all_returns sc st st' Hrun)
    as (d1 & st1 & d2 & st2 & st3 & d4 & st4 & Hr & Hi & Hw & Hc & Hloop).
  exists st3, (set_scene (set_camera (fun c => dict_update c d4)) (fst st4),
               snd st4).
  split; [rewrite add_camera_run, Hc; reflexivity |].
  pose proof (advances_for_each extends extends_refl extends_trans
                (scene_objects sc) (add_object sc)
                (add_object_extends contract sc)
                (set_scene (set_camera (fun c => dict_update c d4)) (fst st4),
                 snd st4)) as Hext.
  rewrite Hloop in Hext. exact (same_camera _ _ Hext).
Qed.

Lemma add_all_renderer sc (st st1 st' : state) d1 :
  W_PT_renderer_to_scene_data sc st = (Ok d1, st1) ->
  add_all sc st = (Ok tt, st') ->
  renderer (scene (fst st')) = dict_update (renderer (scene (fst st))) d1
  /\ dir (fst st') = dir (fst st).
Proof.
  intros Hr Hrun.
  destruct (add_all_returns sc st st' Hrun)
    as (d1' & st1' & d2 & st2 & st3 & d4 & st4 & Hr' & Hi & Hw & Hc & Hloop).
  rewrite Hr in Hr'. injection Hr' as <- <-.
  destruct (changes_image_cache_only_run _ _ _ _
              (renderer_contract contract sc) Hr) as [c1 H1].
  destruct (changes_image_cache_only_run _ _ _ _
              (integrator_contract contract sc) Hi) as [c2 H2].
  destruct (changes_image_cache_only_run _ _ _ _
              (camera_contract contract (scene_camera sc)) Hc) as [c4 H4].
  pose proof (advances_for_each extends extends_refl extends_trans
                (scene_objects sc) (add_object sc)
                (add_object_extends contract sc)
                (set_scene (set_camera (fun c => dict_update c d4)) (fst st4),
                 snd st4)) as Hext.
  rewrite Hloop in Hext. simpl in Hext.
  assert (Hst3 : renderer (scene (fst st3))
                 = dict_update (renderer (scene (fst st))) d1
                 /\ dir (fst st3) = dir (fst st)).
  { destruct (scene_world sc) as [world |].
    - pose proof (add_world_extends contract world
                    (set_scene (set_integrator (fun i => dict_update i d2))
                       (fst st2), snd st2)) as Hworld.
      rewrite Hw in Hworld. simpl in Hworld.
      rewrite (same_renderer _ _ Hworld).
      rewrite (same_dir _ _ (extends_identity _ _ Hworld)).
      simpl. rewrite H2. simpl. rewrite H1. split; reflexivity.
    - injection Hw as <-. simpl. rewrite H2. simpl. rewrite H1.
      split; reflexivity. }
  rewrite (same_renderer _ _ Hext).
  rewrite (same_dir _ _ (extends_identity _ _ Hext)).
  simpl. rewrite H4. simpl. exact Hst3.
Qed.
End Reading.

(** X9. Whatever happened to a session since it was constructed, [save]
    dumps the document as it is now to the path [os.path.join] makes of
    the directory the session was constructed with and [scene.json], and
    leaves the session as it is; [self.path(name)] is still
    [os.path.join] of that same directory and [name], the directory of the
    session never changing (the converters being assumed to keep to their
    contract). *)
Theorem manifest_is_saved_in_the_working_directory
    {HH : Host} {HC : Converters} c sf p w s w1 (st' : state) :
  converters_contract ->
  __init__ c sf p w = (Ok s, w1) ->
  reachable (s, w1) st' ->
  save st' =
    match json_dump (os_path_join (dir s) "scene.json") (scene (fst st'))
            (snd st') with
    | (r, w') => (r, (fst st', w'))
    end
  /\ forall name, path (fst st') name = os_path_join (dir s) name.
Proof.
  intros contract Hinit Hreach.
  destruct (grows_identity _ _ (reachable_grows contract _ _ Hreach))
    as [Hdir _ _ Hfile _ _ _].
  simpl in Hdir, Hfile. split.
  - rewrite save_run, Hfile, (init_fields _ _ _ _ _ _ Hinit). reflexivity.
  - intros name. unfold path. rewrite Hdir. reflexivity.
Qed.

Lemma manifest_is_saved_in_the_working_directory_witness :
  let s := fst Example.fresh in
  let st1 := snd (perform (op_add_all Example.stage) Example.fresh) in
  let st2 := snd (perform (op_add_material Example.broken) st1) in
  converters_contract (HC := Example.converters)
  /\ __init__ true false None Example.disk = (Ok s, snd Example.fresh)
  /\ reachable Example.fresh st2
  /\ save st2 =
       match json_dump "/tmp/tmpw/scene.json" (scene (fst st2)) (snd st2) with
       | (r, w') => (r, (fst st2, w'))
       end
  /\ path (fst st2) "Cube.wo3" = "/tmp/tmpw/Cube.wo3".
Proof.
  intros s st1 st2.
  pose proof example_converters_contract as contract.
  assert (Hinit : __init__ true false None Example.disk
                  = (Ok s, snd Example.fresh)) by reflexivity.
  assert (Hreach : reachable Example.fresh st2).
  { apply (reachable_step _ (op_add_all Example.stage)).
    apply (reachable_step _ (op_add_material Example.broken)).
    apply reachable_refl. }
  destruct (manifest_is_saved_in_the_working_directory
              (HH := Example.host) (HC := Example.converters)
              true false None Example.disk s (snd Example.fresh) st2
              contract Hinit Hreach) as [Hsave Hpath].
  split; [exact contract |]. split; [exact Hinit |]. split; [exact Hreach |].
  split; [exact Hsave | exact (Hpath "Cube.wo3")].
Defined.

(** X10. Once [add_camera] has returned, and so once [add_all] has, the
    properties [width] and [height] are [int(resolution_x * scale)] and
    [int(resolution_y * scale)], where [scale] is the float
    [resolution_percentage / 100] and the products are products of floats,
    truncated towards zero, provided the camera converter returns no
    'resolution' of its own (the converters being assumed to keep to
    their contract); the exports of the objects that follow in [add_all]
    do not disturb them.  The result is Python's, not the exact one: 70%
    of 720 is 503. *)
Theorem resolution_is_the_scaled_render_size
    {HH : Host} {HC : Converters} sc :
  converters_contract ->
  (forall cam st d st1,
      W_PT_camera_to_scene_data cam st = (Ok d, st1) ->
      d !! "resolution" = None) ->
  let percentage := float_of_int (resolution_percentage (scene_render sc)) in
  let scale := SFdiv 53 1024 percentage (float_of_int 100) in
  let scaled (x : Z) := int_of_float (SFmul 53 1024 (float_of_int x) scale) in
  let w := JInt (scaled (resolution_x (scene_render sc))) in
  let h := JInt (scaled (resolution_y (scene_render sc))) in
  (forall cam (st st' : state),
      add_camera sc cam st = (Ok tt, st') ->
      width (fst st') = Ok w /\ height (fst st') = Ok h)
  /\ (forall (st st' : state),
        add_all sc st = (Ok tt, st') ->
        width (fst st') = Ok w /\ height (fst st') = Ok h).
Proof.
  intros contract Hsilent percentage scale scaled w h.
  assert (Hcam : forall cam (st st' : state),
             add_camera sc cam st = (Ok tt, st') ->
             camera (scene (fst st')) !! "resolution" = Some (JList [w; h])).
  { intros cam st st' Hrun.
    destruct (add_camera_camera contract sc cam st st' Hrun)
      as (d & st1 & Hconv & ->).
    rewrite (dict_update_free _ _ _ (Hsilent _ _ _ _ Hconv)).
    unfold camera_record. by simplify_map_eq. }
  assert (Hread : forall s : TungstenScene,
             camera (scene s) !! "resolution" = Some (JList [w; h]) ->
             width s = Ok w /\ height s = Ok h).
  { intros s Hres. unfold width, height, getitem. rewrite Hres.
    split; reflexivity. }
  split.
  - intros cam st st' Hrun. apply Hread, (Hcam cam st st' Hrun).
  - intros st st' Hrun.
    destruct (add_all_camera contract sc st st' Hrun) as (st3 & st4 & Hc & Heq).
    apply Hread. rewrite Heq. exact (Hcam _ _ _ Hc).
Qed.

Lemma resolution_is_the_scaled_render_size_witness :
  let st' := snd (add_all Example.stage Example.fresh) in
  let st'' := snd (add_all Example.preview Example.fresh) in
  converters_contract (HC := Example.converters)
  /\ (forall cam (st : state) d st1,
         W_PT_camera_to_scene_data cam st = (Ok d, st1) ->
         d !! "resolution" = None)
  /\ add_all Example.stage Example.fresh = (Ok tt, st')
  /\ width (fst st') = Ok (JInt 960)
  /\ height (fst st') = Ok (JInt 540)
  /\ add_all Example.preview Example.fresh = (Ok tt, st'')
  /\ width (fst st'') = Ok (JInt 503)
  /\ height (fst st'') = Ok (JInt 336).
Proof.
  intros st' st''.
  pose proof example_converters_contract as contract.
  assert (Hsilent : forall cam (st : state) d st1,
             W_PT_camera_to_scene_data cam st = (Ok d, st1) ->
             d !! "resolution" = None).
  { intros cam st d st1 [= <- _]. reflexivity. }
  assert (Hrun : add_all Example.stage Example.fresh = (Ok tt, st')).
  { refine (run_ok (add_all Example.stage Example.fresh) tt _).
    vm_compute. reflexivity. }
  assert (Hrun' : add_all Example.preview Example.fresh = (Ok tt, st'')).
  { refine (run_ok (add_all Example.preview Example.fresh) tt _).
    vm_compute. reflexivity. }
  pose proof (proj2 (resolution_is_the_scaled_render_size Example.stage
                       contract Hsilent) Example.fresh st' Hrun) as Hfull.
  pose proof (proj2 (resolution_is_the_scaled_render_size Example.preview
                       contract Hsilent) Example.fresh st'' Hrun') as Hpreview.
  split; [exact contract |]. split; [exact Hsilent |]. split; [exact Hrun |].
  split; [exact (proj1 Hfull) |]. split; [exact (proj2 Hfull) |].
  split; [exact Hrun' |].
  split; [exact (proj1 Hpreview) | exact (proj2 Hpreview)].
Defined.

(** X11. After [add_all] the property [outputfile] follows the renderer
    settings: it is the 'output_file' the renderer converter returned,
    joined to the working directory ([TypeError] if that is not a string),
    and what it was before when the converter returned none; the later
    stages of [add_all] do not disturb it (the converters being assumed to
    keep to their contract). *)
Theorem outputfile_follows_the_renderer_settings
    {HH : Host} {HC : Converters} sc (st st1 st' : state) d1 :
  converters_contract ->
  W_PT_renderer_to_scene_data sc st = (Ok d1, st1) ->
  add_all sc st = (Ok tt, st') ->
  outputfile (fst st') =
  match d1 !! "output_file" with
  | Some (JStr f) => Ok (os_path_join (dir (fst st)) f)
  | Some _ => Raise "TypeError"
  | None => outputfile (fst st)
  end.
Proof.
  intros contract Hr Hrun.
  destruct (add_all_renderer contract sc st st1 st' d1 Hr Hrun) as [Hren Hdir].
  unfold outputfile, getitem, path. rewrite Hren, Hdir.
  destruct (d1 !! "output_file") as [v |] eqn:Hout.
  - rewrite (dict_update_bound _ _ _ _ Hout). destruct v; reflexivity.
  - rewrite (dict_update_free _ _ _ Hout). reflexivity.
Qed.

Lemma outputfile_follows_the_renderer_settings_witness :
  let st' := snd (add_all Example.stage Example.fresh) in
  let d1 : dict := <["output_file" := JStr "render.png"]> (<["spp" := JInt 32]> ∅) in
  converters_contract (HC := Example.converters)
  /\ W_PT_renderer_to_scene_data Example.stage Example.fresh
     = (Ok d1, Example.fresh)
  /\ add_all Example.stage Example.fresh = (Ok tt, st')
  /\ outputfile (fst Example.fresh) = Ok "/tmp/tmpw/scene.png"
  /\ outputfile (fst st') = Ok "/tmp/tmpw/render.png".
Proof.
  intros st' d1.
  pose proof example_converters_contract as contract.
  assert (Hr : W_PT_renderer_to_scene_data Example.stage Example.fresh
               = (Ok d1, Example.fresh)) by reflexivity.
  assert (Hrun : add_all Example.stage Example.fresh = (Ok tt, st')).
  { refine (run_ok (add_all Example.stage Example.fresh) tt _).
    vm_compute. reflexivity. }
  split; [exact contract |]. split; [exact Hr |]. split; [exact Hrun |].
  split; [reflexivity |].
  exact (outputfile_follows_the_renderer_settings Example.stage Example.fresh
           Example.fresh st' d1 contract Hr Hrun).
Defined.

(** X12. On a session that was just constructed, [width] and [height]
    raise [KeyError] (there is no camera record yet) and [outputfile] is
    [scene.png] in the working directory.  From then on, whatever the
    operations, 'output_file' stays bound in the renderer settings:
    [outputfile] never raises [KeyError]; it is the bound value joined to
    the working directory, or [TypeError] when the value is not a string
    (the converters being assumed to keep to their contract). *)
Theorem outputfile_is_always_bound
    {HH : Host} {HC : Converters} c sf p w s w1 :
  converters_contract ->
  __init__ c sf p w = (Ok s, w1) ->
  width s = Raise "KeyError"
  /\ height s = Raise "KeyError"
  /\ outputfile s = Ok (os_path_join (dir s) "scene.png")
  /\ forall st' : state,
       reachable (s, w1) st' ->
       exists v,
         renderer (scene (fst st')) !! "output_file" = Some v
         /\ outputfile (fst st') =
            match v with
            | JStr f => Ok (os_path_join (dir s) f)
            | _ => Raise "TypeError"
            end.
Proof.
  intros contract Hinit.
  pose proof (init_fields _ _ _ _ _ _ Hinit) as Hs.
  split; [rewrite Hs; reflexivity |].
  split; [rewrite Hs; reflexivity |].
  split; [rewrite Hs; reflexivity |].
  intros st' Hreach.
  pose proof (reachable_grows contract _ _ Hreach) as Hgrow.
  assert (Hbound : is_Some (renderer (scene (fst st')) !! "output_file")).
  { apply elem_of_dom, (grows_renderer _ _ Hgrow), elem_of_dom.
    simpl. rewrite Hs. simpl. unfold renderer_defaults. by simplify_map_eq. }
  destruct Hbound as [v Hv]. exists v. split; [exact Hv |].
  unfold outputfile, getitem, path. rewrite Hv.
  rewrite (same_dir _ _ (grows_identity _ _ Hgrow)). simpl.
  destruct v; reflexivity.
Qed.

Lemma outputfile_is_always_bound_witness :
  let s := fst Example.fresh in
  let st1 := snd (perform (op_add_all Example.stage) Example.fresh) in
  let st2 := snd (perform (op_add_object Example.stage Example.cube) st1) in
  converters_contract (HC := Example.converters)
  /\ __init__ true false None Example.disk = (Ok s, snd Example.fresh)
  /\ width s = Raise "KeyError"
  /\ outputfile s = Ok "/tmp/tmpw/scene.png"
  /\ reachable Example.fresh st2
  /\ exists v,
       renderer (scene (fst st2)) !! "output_file" = Some v
       /\ outputfile (fst st2) =
          match v with
          | JStr f => Ok (os_path_join "/tmp/tmpw" f)
          | _ => Raise "TypeError"
          end.
Proof.
  intros s st1 st2.
  pose proof example_converters_contract as contract.
  assert (Hinit : __init__ true false None Example.disk
                  = (Ok s, snd Example.fresh)) by reflexivity.
  assert (Hreach : reachable Example.fresh st2).
  { apply (reachable_step _ (op_add_all Example.stage)).
    apply (reachable_step _ (op_add_object Example.stage Example.cube)).
    apply reachable_refl. }
  destruct (outputfile_is_always_bound
              (HH := Example.host) (HC := Example.converters)
              true false None Example.disk s (snd Example.fresh)
              contract Hinit)
    as (Hwidth & _ & Hout & Hlater).
  split; [exact contract |]. split; [exact Hinit |]. split; [exact Hwidth |].
  split; [exact Hout |]. split; [exact Hreach |].
  exact (Hlater st2 Hreach).
Defined.

(** ** The export operator, when the target is accepted *)

Section Exporting.
Context {HH : Host} {HC : Converters}.

Lemma with_session_run {A} s (m : M state A) w :
  with_session s m w =
  match m (s, w) with
  | (Ok a, st') => (Ok a, snd (__del__ (fst st') (snd st')))
  | (Raise e, st') => (Raise e, snd st')
  end.
Proof.
  unfold with_session. destruct (m (s, w)) as [[a | e] [s' w']]; reflexivity.
Qed.

Hypothesis contract : converters_contract.

Lemma export_grows sc outpath c :
  advances grows (add_all sc ;;; save)
  /\ advances grows
       (add_all sc ;;; save ;;; s <- self ;; host (to_zip s outpath c)).
Proof.
  pose proof (perform_grows contract (op_add_all sc)) as Hall.
  pose proof (perform_grows contract op_save) as Hsave.
  pose proof (perform_grows contract (op_to_zip outpath c)) as Hzip.
  simpl in Hall, Hsave, Hzip. split.
  - apply advances_bind; [exact grows_trans | exact Hall |].
    intros _. exact Hsave.
  - apply advances_bind; [exact grows_trans | exact Hall |].
    intros _. apply advances_bind; [exact grows_trans | exact Hsave |].
    intros _. exact Hzip.
Qed.

(** A session that is local to its caller and runs the body of an export
    is finalised, when the body returns, as its constructor said. *)
Lemma with_session_export {A} s (m : M state A) w :
  advances grows m ->
  with_session s m w =
  match m (s, w) with
  | (Ok a, st') =>
      (Ok a,
       if clean_on_del s then snd (shutil_rmtree (dir s) (snd st'))
       else snd st')
  | (Raise e, st') => (Raise e, snd st')
  end.
Proof.
  intros Hm. rewrite with_session_run.
  destruct (grows_identity _ _ (Hm (s, w))) as [Hdir Hclean _ _ _ _ _].
  destruct (m (s, w)) as [[a | e] st']; [| reflexivity].
  simpl in Hdir, Hclean. unfold __del__. rewrite Hdir, Hclean.
  destruct (clean_on_del s); reflexivity.
Qed.
End Exporting.

(** X13. An archive export whose target is accepted works in a temporary
    directory of its own.  When [add_all], [save] and [to_zip] have all
    returned, [execute] returns FINISHED, with no report, and the last
    thing done to the host is the removal of the temporary directory, the
    session being finalised as [execute] returns.  When one of them
    raises, [execute] raises its exception and the host is as that method
    left it: the session is still alive when the exception leaves
    [execute], and the temporary directory has not been removed.  If the
    temporary directory cannot be created, nothing else is attempted (the
    converters being assumed to keep to their contract). *)
Theorem archive_export_removes_its_directory_on_return
    {HH : Host} {HC : Converters} op sc w :
  converters_contract ->
  zip op = true ->
  path_conflict op w = None ->
  let export :=
    add_all sc ;;; save ;;;
    s <- self ;; host (to_zip s (filepath op) (compress op)) in
  (forall s w1,
      __init__ true (export_self_contained op) None w = (Ok s, w1) ->
      tempfile_mkdtemp "w" w = (Ok (dir s), w1)
      /\ execute op sc w =
         match export (s, w1) with
         | (Ok _, st') =>
             (Ok (mkOutcome "FINISHED" []),
              snd (shutil_rmtree (dir s) (snd st')))
         | (Raise e, st') => (Raise e, snd st')
         end)
  /\ (forall e w1,
        tempfile_mkdtemp "w" w = (Raise e, w1) ->
        execute op sc w = (Raise e, w1)).
Proof.
  intros contract Hzip Hfree export. split.
  - intros s w1 Hinit.
    split; [exact (proj2 (init_owns_directory _ _ _ _ _ _ Hinit)) |].
    unfold execute. unfold bind at 1. unfold query at 1.
    rewrite Hfree, Hzip. unfold bind at 1. unfold bind at 1.
    rewrite Hinit. fold export.
    rewrite (with_session_export s export w1
               (proj2 (export_grows contract sc _ _))).
    rewrite (proj1 (init_owns_directory _ _ _ _ _ _ Hinit)).
    destruct (export (s, w1)) as [[[] | e] st']; reflexivity.
  - intros e w1 Hfail.
    unfold execute. unfold bind at 1. unfold query at 1.
    rewrite Hfree, Hzip. unfold bind at 1. unfold bind at 1.
    unfold __init__. unfold bind at 1. rewrite Hfail. reflexivity.
Qed.

Lemma archive_export_removes_its_directory_on_return_witness :
  let op := mkExport "/scene.zip" true true true in
  let s := fst (Example.constructed (__init__ true true None Example.disk)) in
  let w1 := snd Example.fresh in
  let crate := mkObject "Crate" "MESH" Example.identity
                 [mkMaterialSlot (Some Example.broken)] in
  let wreck := mkScene (Some (mkWorld "World")) Example.eye
                 [Example.cube; crate; Example.plane]
                 (mkRenderSettings 1920 1080 50) in
  let export (sc : Scene) :=
    add_all sc ;;; save ;;;
    s <- self ;; host (to_zip s (filepath op) (compress op)) in
  let out := snd (shutil_rmtree "/tmp/tmpw"
                    (snd (snd (export Example.stage (s, w1))))) in
  let failed := snd (snd (export wreck (s, w1))) in
  converters_contract (HC := Example.converters)
  /\ path_conflict op Example.disk = None
  /\ __init__ true true None Example.disk = (Ok s, w1)
  /\ execute op Example.stage Example.disk
     = (Ok (mkOutcome "FINISHED" []), out)
  /\ os_path_exists "/tmp/tmpw" out = false
  /\ os_path_isfile "/scene.zip" out = true
  /\ execute op wreck Example.disk = (Raise "RuntimeError", failed)
  /\ os_path_isdir "/tmp/tmpw" failed = true
  /\ os_path_isfile "/tmp/tmpw/Cube.wo3" failed = true
  /\ os_path_exists "/scene.zip" failed = false.
Proof.
  intros op s w1 crate wreck export out failed.
  pose proof example_converters_contract as contract.
  assert (Hfree : path_conflict op Example.disk = None) by reflexivity.
  assert (Hinit : __init__ true true None Example.disk = (Ok s, w1))
    by reflexivity.
  assert (Hok : export Example.stage (s, w1)
                = (Ok tt, snd (export Example.stage (s, w1)))).
  { refine (run_ok (export Example.stage (s, w1)) tt _).
    vm_compute. reflexivity. }
  assert (Hbad : export wreck (s, w1)
                 = (Raise "RuntimeError", snd (export wreck (s, w1)))).
  { refine (run_raise (export wreck (s, w1)) "RuntimeError" _).
    vm_compute. reflexivity. }
  pose proof (proj2 (proj1 (archive_export_removes_its_directory_on_return
                              (HH := Example.host) (HC := Example.converters)
                              op Example.stage Example.disk
                              contract eq_refl Hfree)
                       s w1 Hinit)) as Hrun.
  pose proof (proj2 (proj1 (archive_export_removes_its_directory_on_return
                              (HH := Example.host) (HC := Example.converters)
                              op wreck Example.disk
                              contract eq_refl Hfree)
                       s w1 Hinit)) as Hfail.
  cbv zeta in Hrun, Hfail.
  change (execute op Example.stage Example.disk =
          match export Example.stage (s, w1) with
          | (Ok _, st') =>
              (Ok (mkOutcome "FINISHED" []),
               snd (shutil_rmtree (dir s) (snd st')))
          | (Raise e, st') => (Raise e, snd st')
          end) in Hrun.
  change (execute op wreck Example.disk =
          match export wreck (s, w1) with
          | (Ok _, st') =>
              (Ok (mkOutcome "FINISHED" []),
               snd (shutil_rmtree (dir s) (snd st')))
          | (Raise e, st') => (Raise e, snd st')
          end) in Hfail.
  rewrite Hok in Hrun. rewrite Hbad in Hfail.
  split; [exact contract |]. split; [exact Hfree |]. split; [exact Hinit |].
  split; [exact Hrun |].
  split; [vm_compute; reflexivity |]. split; [vm_compute; reflexivity |].
  split; [exact Hfail |].
  split; [vm_compute; reflexivity |]. split; vm_compute; reflexivity.
Defined.

(** X14. A directory export whose target is accepted works in the target
    directory itself, which it creates when it does not exist and leaves
    alone when it does, and it removes nothing when it ends: [execute]
    returns FINISHED, with no report, when [add_all] and [save] have both
    returned, and raises the exception of the first of them that raises;
    the host is left as [save], or the method that raised, left it.  If the
    directory cannot be created, nothing else is attempted (the converters
    being assumed to keep to their contract). *)
Theorem directory_export_keeps_its_directory {HH : Host} {HC : Converters}
    op sc w :
  converters_contract ->
  zip op = false ->
  path_conflict op w = None ->
  let export := add_all sc ;;; save in
  let created :=
    if os_path_exists (filepath op) w then (Ok tt, w)
    else os_mkdir (filepath op) w in
  (forall s w1,
      __init__ false (export_self_contained op) (Some (filepath op)) w
        = (Ok s, w1) ->
      created = (Ok tt, w1)
      /\ dir s = filepath op
      /\ execute op sc w =
         (match fst (export (s, w1)) with
          | Ok _ => Ok (mkOutcome "FINISHED" [])
          | Raise e => Raise e
          end,
          snd (snd (export (s, w1)))))
  /\ (forall e w1,
        __init__ false (export_self_contained op) (Some (filepath op)) w
          = (Raise e, w1) ->
        created = (Raise e, w1)
        /\ execute op sc w = (Raise e, w1)).
Proof.
  intros contract Hzip Hfree export created.
  assert (Hmk : forall A (k : string -> M env A),
             (d <- (e <- query (os_path_exists (filepath op)) ;;
                    (if e then ret tt else os_mkdir (filepath op)) ;;;
                    ret (filepath op)) ;; k d) w
             = match created with
               | (Ok _, w1) => k (filepath op) w1
               | (Raise e, w1) => (Raise e, w1)
               end).
  { intros A k. subst created. unfold bind, query, ret.
    destruct (os_path_exists (filepath op) w); [reflexivity |].
    destruct (os_mkdir (filepath op) w) as [[[] | e] w1]; reflexivity. }
  assert (Hexec : forall r w1,
             __init__ false (export_self_contained op) (Some (filepath op)) w
               = (r, w1) ->
             execute op sc w =
             match r with
             | Ok s =>
                 (match fst (with_session s export w1) with
                  | Ok _ => Ok (mkOutcome "FINISHED" [])
                  | Raise e => Raise e
                  end, snd (with_session s export w1))
             | Raise e => (Raise e, w1)
             end
             /\ match r with
                | Ok s => created = (Ok tt, w1) /\ dir s = filepath op
                         /\ clean_on_del s = false
                | Raise e => created = (Raise e, w1)
                end).
  { intros r w1 Hinit. split.
    - unfold execute. unfold bind at 1. unfold query at 1.
      rewrite Hfree, Hzip. unfold bind at 1. unfold bind at 1.
      rewrite Hinit. fold export. destruct r as [s | e]; [| reflexivity].
      unfold bind. destruct (with_session s export w1) as [[[] | e] w2];
        reflexivity.
    - unfold __init__ in Hinit. rewrite Hmk in Hinit.
      destruct created as [[[] | e] w2]; unfold ret in Hinit;
        injection Hinit as <- <-; repeat split. }
  split.
  - intros s w1 Hinit.
    destruct (Hexec _ _ Hinit) as (Hrun & Hcreated & Hdir & Hclean).
    split; [exact Hcreated |]. split; [exact Hdir |].
    rewrite Hrun.
    rewrite (with_session_export s export w1
               (proj1 (export_grows contract sc "" true))).
    rewrite Hclean. destruct (export (s, w1)) as [[[] | e] st']; reflexivity.
  - intros e w1 Hinit. destruct (Hexec _ _ Hinit) as (Hrun & Hcreated).
    split; [exact Hcreated | exact Hrun].
Qed.

Lemma directory_export_keeps_its_directory_witness :
  let op := mkExport "/new" false false true in
  let s := fst (Example.constructed
                  (__init__ false false (Some "/new") Example.disk)) in
  let w1 := snd (os_mkdir "/new" Example.disk) in
  let export := add_all Example.stage ;;; save in
  let out := snd (snd (export (s, w1))) in
  converters_contract (HC := Example.converters)
  /\ path_conflict op Example.disk = None
  /\ __init__ false false (Some "/new") Example.disk = (Ok s, w1)
  /\ os_mkdir "/new" Example.disk = (Ok tt, w1)
  /\ dir s = "/new"
  /\ execute op Example.stage Example.disk = (Ok (mkOutcome "FINISHED" []), out)
  /\ os_path_isfile "/new/scene.json" out = true.
Proof.
  intros op s w1 export out.
  pose proof example_converters_contract as contract.
  assert (Hfree : path_conflict op Example.disk = None) by reflexivity.
  assert (Hinit : __init__ false false (Some "/new") Example.disk = (Ok s, w1))
    by reflexivity.
  assert (Hok : fst (export (s, w1)) = Ok tt) by (vm_compute; reflexivity).
  destruct (proj1 (directory_export_keeps_its_directory
                     (HH := Example.host) (HC := Example.converters)
                     op Example.stage Example.disk contract eq_refl Hfree)
              s w1 Hinit) as (Hmk & Hdir & Hrun).
  cbv zeta in Hrun. fold export in Hrun. rewrite Hok in Hrun.
  split; [exact contract |]. split; [exact Hfree |]. split; [exact Hinit |].
  split; [exact Hmk |]. split; [exact Hdir |]. split; [exact Hrun |].
  vm_compute. reflexivity.
Defined.

(** ** The archive *)

Section Archiving.
Context {HH : Host}.
Hypothesis write_frame :
  forall out f a w, same_paths w (snd (zipfile_write out f a w)).

Lemma bind_run {S A B} (m : M S A) (k : A -> M S B) s :
  bind m k s =
  match m s with
  | (Ok a, s') => k a s'
  | (Raise e, s') => (Raise e, s')
  end.
Proof. reflexivity. Qed.

Lemma same_paths_refl w : same_paths w w.
Proof. split; reflexivity. Qed.

Lemma same_paths_trans w1 w2 w3 :
  same_paths w1 w2 -> same_paths w2 w3 -> same_paths w1 w3.
Proof.
  intros [Hf Hr] [Hf' Hr']. split.
  - intros p. by rewrite Hf', Hf.
  - intros p start. by rewrite Hr', Hr.
Qed.

Lemma write_entries_same_paths out es w0 w :
  same_paths w0 w -> same_paths w0 (snd (write_entries out es w)).
Proof.
  revert w. induction es as [| [f a] es IH]; intros w Hw; [exact Hw |].
  unfold write_entries. simpl. unfold bind.
  pose proof (write_frame out f a w) as Hstep.
  destruct (zipfile_write out f a w) as [[[] | e] w']; simpl in *.
  - apply IH. eapply same_paths_trans; eassumption.
  - eapply same_paths_trans; eassumption.
Qed.

Lemma write_entries_app out es1 es2 w :
  write_entries out (es1 ++ es2) w
  = (write_entries out es1 ;;; write_entries out es2) w.
Proof. apply for_each_app. Qed.

Lemma files_loop out root relroot files w0 w :
  same_paths w0 w ->
  for_each files (fun file =>
    isf <- query (os_path_isfile (os_path_join root file)) ;;
    if isf
    then zipfile_write out (os_path_join root file) (os_path_join relroot file)
    else ret tt) w
  = write_entries out
      (map (fun file => (os_path_join root file, os_path_join relroot file))
         (filter (fun file => os_path_isfile (os_path_join root file) w0 = true)
            files)) w.
Proof.
  revert w. induction files as [| file files IH]; intros w Hw; [reflexivity |].
  simpl for_each. rewrite filter_cons. unfold bind at 1. unfold bind at 1.
  unfold query at 1. rewrite (proj1 Hw).
  destruct (decide (os_path_isfile (os_path_join root file) w0 = true))
    as [Hfile | Hfile].
  - rewrite Hfile. unfold write_entries. simpl. unfold bind.
    pose proof (write_frame out (os_path_join root file)
                  (os_path_join relroot file) w) as Hstep.
    destruct (zipfile_write out _ _ w) as [[[] | e] w']; [| reflexivity].
    apply IH. eapply same_paths_trans; eassumption.
  - apply not_true_is_false in Hfile. rewrite Hfile. unfold ret.
    apply IH, Hw.
Qed.

Lemma triple_loop out root relroot files w0 w :
  same_paths w0 w ->
  ((if bool_decide (relroot = ".") then ret tt
    else zipfile_write out root relroot) ;;;
   for_each files (fun file =>
     isf <- query (os_path_isfile (os_path_join root file)) ;;
     if isf
     then zipfile_write out (os_path_join root file) (os_path_join relroot file)
     else ret tt)) w
  = write_entries out (triple_entries root relroot files w0) w.
Proof.
  intros Hw. unfold triple_entries. rewrite write_entries_app.
  destruct (bool_decide (relroot = ".")).
  - unfold bind, ret. simpl. apply files_loop, Hw.
  - unfold write_entries at 1. simpl. unfold bind.
    pose proof (write_frame out root relroot w) as Hstep.
    destruct (zipfile_write out root relroot w) as [[[] | e] w'];
      [| reflexivity].
    unfold ret. apply files_loop. eapply same_paths_trans; eassumption.
Qed.

Lemma walk_loop out top walk w0 w :
  same_paths w0 w ->
  for_each walk (fun '(root, dirs, files) =>
    r <- query (os_path_relpath root top) ;;
    match r with
    | None => raise "ValueError"
    | Some relroot =>
        (if bool_decide (relroot = ".") then ret tt
         else zipfile_write out root relroot) ;;;
        for_each files (fun file =>
          let filename := os_path_join root file in
          isf <- query (os_path_isfile filename) ;;
          if isf
          then zipfile_write out filename (os_path_join relroot file)
          else ret tt)
    end) w
  = (write_entries out (fst (walk_entries top walk w0)) ;;;
     if snd (walk_entries top walk w0) then raise "ValueError" else ret tt) w.
Proof.
  revert w. induction walk as [| [[root dirs] files] walk IH]; intros w Hw;
    [reflexivity |].
  simpl for_each. simpl walk_entries.
  unfold bind at 1. unfold bind at 1. unfold query at 1.
  rewrite (proj2 Hw).
  destruct (os_path_relpath root top w0) as [relroot |]; [| reflexivity].
  destruct (walk_entries top walk w0) as [entries failed] eqn:Hrest.
  simpl fst in *. simpl snd in *.
  rewrite (triple_loop out root relroot files w0 w Hw).
  rewrite (bind_run (write_entries out (_ ++ entries))).
  rewrite write_entries_app, bind_run.
  pose proof (write_entries_same_paths out
                (triple_entries root relroot files w0) w0 w Hw) as Hnext.
  destruct (write_entries out (triple_entries root relroot files w0) w)
    as [[[] | e] w']; [| reflexivity].
  simpl in Hnext. exact (IH w' Hnext).
Qed.
End Archiving.

(** X15. [to_zip] opens the archive, writes to it, in the order of the
    walk, one entry for every directory of the working directory but the
    top one, named by its path relative to the working directory, and
    after each directory one entry for each of its regular files, named by
    the relative path of the directory joined to the file name (a name
    that is not a regular file gets no entry), and closes the archive,
    also when a write raises or a directory cannot be made relative
    ([ValueError]).  When the archive cannot be opened nothing else is
    done.  Writing to the archive is assumed not to change which paths are
    regular files, nor how paths are made relative. *)
Theorem to_zip_archives_the_working_directory {HH : Host}
    s outpath compress w :
  (forall out f a w, same_paths w (snd (zipfile_write out f a w))) ->
  to_zip s outpath compress w =
  match zipfile_open outpath (if compress then ZIP_DEFLATED else 0%Z) w with
  | (Ok _, w0) =>
      let entries := walk_entries (dir s) (os_walk (dir s) w0) w0 in
      try_finally
        (write_entries outpath (fst entries) ;;;
         if snd entries then raise "ValueError" else ret tt)
        (zipfile_close outpath) w0
  | (Raise e, w0) => (Raise e, w0)
  end.
Proof.
  intros write_frame. unfold to_zip. rewrite bind_run.
  destruct (zipfile_open outpath _ w) as [[[] | e] w0]; [| reflexivity].
  cbv zeta.
  match goal with
  | |- try_finally ?body _ _ = _ =>
      assert (Hloop : body w0 =
                (write_entries outpath
                   (fst (walk_entries (dir s) (os_walk (dir s) w0) w0)) ;;;
                 if snd (walk_entries (dir s) (os_walk (dir s) w0) w0)
                 then raise "ValueError" else ret tt) w0)
        by exact (walk_loop write_frame outpath (dir s)
                    (os_walk (dir s) w0) w0 w0 (same_paths_refl w0))
  end.
  unfold try_finally. rewrite Hloop. reflexivity.
Qed.

Lemma to_zip_archives_the_working_directory_witness :
  let s := fst Example.fresh in
  let w := Tree.disk in
  let w0 := snd (zipfile_open (Host := Tree.host) "/scene.zip" ZIP_DEFLATED w) in
  let entries :=
    [("/tmp/tmpw/scene.json", "./scene.json");
     ("/tmp/tmpw/Cube.wo3", "./Cube.wo3");
     ("/tmp/tmpw/textures", "textures");
     ("/tmp/tmpw/textures/wood.png", "textures/wood.png")] in
  (forall out f a w,
      same_paths (HH := Tree.host) w
        (snd (zipfile_write (Host := Tree.host) out f a w)))
  /\ walk_entries (HH := Tree.host) (dir s) (os_walk (dir s) w0) w0
     = (entries, false)
  /\ to_zip (HH := Tree.host) s "/scene.zip" true w
     = try_finally
         (write_entries "/scene.zip" entries ;;; ret tt)
         (zipfile_close "/scene.zip") w0
  /\ snd (snd (to_zip (HH := Tree.host) s "/scene.zip" true w))
     = map (fun e => ("/scene.zip", fst e, snd e)) entries.
Proof.
  intros s w w0 entries.
  assert (Hframe : forall out f a w,
             same_paths (HH := Tree.host) w
               (snd (zipfile_write (Host := Tree.host) out f a w))).
  { intros o f a w'. split; reflexivity. }
  assert (Hopen : zipfile_open (Host := Tree.host) "/scene.zip" ZIP_DEFLATED w
                  = (Ok tt, w0)) by reflexivity.
  assert (Hentries : walk_entries (HH := Tree.host) (dir s)
                       (os_walk (dir s) w0) w0
                     = (entries, false))
    by (vm_compute; reflexivity).
  pose proof (to_zip_archives_the_working_directory (HH := Tree.host)
                s "/scene.zip" true w Hframe) as Hrun.
  change (if true then ZIP_DEFLATED else 0%Z) with ZIP_DEFLATED in Hrun.
  rewrite Hopen in Hrun. cbv zeta in Hrun. rewrite Hentries in Hrun.
  cbn [fst snd] in Hrun.
  split; [exact Hframe |]. split; [exact Hentries |]. split; [exact Hrun |].
  vm_compute. reflexivity.
Defined.

(** ** The handedness correction and the flattening *)

Lemma camera_transform_involutive (t : Matrix) :
  camera_transform (camera_transform t) = t.
Proof.
  rewrite !camera_transform_negates.
  destruct t as [[a0 b0 c0 d0] [a1 b1 c1 d1] [a2 b2 c2 d2] [a3 b3 c3 d3]].
  unfold negate_xz. cbn [row0 row1 row2 row3 vx vy vz vw].
  by rewrite !Qcopp_involutive.
Qed.

(** X16. The handedness correction of [add_camera] is an involution:
    applied to a corrected transform it gives the transform of the host
    back.  The two flips commute, so the order in which [add_camera]
    multiplies them does not matter, and the correction leaves the second
    and fourth columns (the Y axis and the translation) as they are. *)
Theorem camera_correction_is_an_involution (t : Matrix) :
  camera_transform (camera_transform t) = t
  /\ Matrix_mul (Matrix_mul t (Matrix_Scale (-1) (1, 0, 0)%Qc))
                (Matrix_Scale (-1) (0, 0, 1)%Qc)
     = camera_transform t
  /\ col vy (camera_transform t) = col vy t
  /\ col vw (camera_transform t) = col vw t.
Proof.
  split; [apply camera_transform_involutive | split; [| split]].
  - destruct t as [[a0 b0 c0 d0] [a1 b1 c1 d1] [a2 b2 c2 d2] [a3 b3 c3 d3]].
    unfold camera_transform, Matrix_mul, row_mul, dot4, col, Matrix_Scale.
    cbn [row0 row1 row2 row3 vx vy vz vw]. f_equal; f_equal; ring.
  - rewrite camera_transform_negates. reflexivity.
  - rewrite camera_transform_negates. reflexivity.
Qed.

Lemma extend_rows_injective (m1 m2 : Matrix) :
  extend_rows [] m1 = extend_rows [] m2 -> m1 = m2.
Proof.
  destruct m1 as [[a0 b0 c0 d0] [a1 b1 c1 d1] [a2 b2 c2 d2] [a3 b3 c3 d3]].
  destruct m2 as [[p0 q0 r0 s0] [p1 q1 r1 s1] [p2 q2 r2 s2] [p3 q3 r3 s3]].
  unfold extend_rows, list_of_vector. cbn. intros H. congruence.
Qed.

(** X17. The flattening of a transform loses nothing: two objects whose
    serialized transforms are equal have the same world transform, and two
    cameras whose serialized transforms are equal have the same world
    transform, the correction being undone by applying it again. *)
Theorem serialized_transform_determines_the_transform {HH : Host}
    (sc : Scene) (o1 o2 : Object) (file1 file2 : string) :
  (object_record o1 file1 !! "transform" = object_record o2 file2 !! "transform"
   -> matrix_world o1 = matrix_world o2)
  /\ (camera_record sc o1 !! "transform" = camera_record sc o2 !! "transform"
      -> matrix_world o1 = matrix_world o2).
Proof.
  split.
  - unfold object_record. rewrite !lookup_insert_eq. intros H.
    apply extend_rows_injective. congruence.
  - unfold camera_record. cbv zeta. rewrite !lookup_insert_eq. intros H.
    assert (H' : camera_transform (matrix_world o1)
                 = camera_transform (matrix_world o2))
      by (apply extend_rows_injective; congruence).
    apply (f_equal camera_transform) in H'.
    by rewrite !camera_transform_involutive in H'.
Qed.

Lemma serialized_transform_determines_the_transform_witness :
  let twin := mkObject "Twin" "MESH" Example.translation [] in
  (object_record Example.cube "Cube.wo3" !! "transform"
   = object_record twin "Twin.wo3" !! "transform")
  /\ (camera_record Example.stage Example.eye !! "transform"
      = camera_record Example.stage twin !! "transform")
  /\ matrix_world Example.cube = matrix_world twin
  /\ matrix_world Example.eye = matrix_world twin.
Proof.
  intros twin.
  assert (Hobject : object_record Example.cube "Cube.wo3" !! "transform"
                    = object_record twin "Twin.wo3" !! "transform")
    by reflexivity.
  assert (Hcamera : camera_record Example.stage Example.eye !! "transform"
                    = camera_record Example.stage twin !! "transform")
    by reflexivity.
  split; [exact Hobject |]. split; [exact Hcamera |]. split.
  - exact (proj1 (serialized_transform_determines_the_transform
                    (HH := Example.host) Example.stage Example.cube twin
                    "Cube.wo3" "Twin.wo3") Hobject).
  - exact (proj2 (serialized_transform_determines_the_transform
                    (HH := Example.host) Example.stage Example.eye twin
                    "Cube.wo3" "Twin.wo3") Hcamera).
Defined.
